(** * pyflocks: aggregation and plotting of flocking simulations

    A shallow embedding of [util/plot.py] and [analysis/plot_aggregate.py].

    Conventions of the embedding.
    - Python floats are exact rationals ([Q]): rounding and overflow are not
      modelled.  A value that numpy makes [nan] (the mean of an empty array,
      a division by zero) is kept apart as a missing number.  The code
      computes in float64, where sums, differences, products and
      quotients are rounded to the nearest double.  The statements below
      are to be read with that in mind: a sum, product or quotient that a
      statement displays stands for the rounded one, and is evaluated
      only at inputs on which every intermediate result is a double;
      where computed numbers are compared (the mask of the jumps, the
      range of the opacity), the statement is one that rounding, which
      is monotone, leaves true.
    - [matplotlib.pyplot] is a state machine.  A plotting function is a
      computation that issues a sequence of [plt] calls and either returns
      or raises; calls issued before a raise stay issued.
    - Python dictionaries keep insertion order and are association lists;
      dictionaries that the aggregator mutates through aliases live in a
      store and are referred to by address.
    - The file system is not modelled: [plt.savefig] is taken to find the
      directory that it is to write to. *)

From Stdlib Require Import QArith Qabs Qround ZArith List String Ascii Bool Lia Lqa.
From Stdlib Require Import Sorting.Permutation Sorting.Sorted OrderedTypeEx.
From stdpp Require Import base list.
Import ListNotations.

(** ** Python values, exceptions and outcomes *)

Module Py.

Inductive exn : Type :=
| NameError (name : string)
| IndexError
| KeyError
| ValueError
| TypeError
| AttributeError
| MaskError
| SystemExit.

Inductive outcome (A : Type) : Type :=
| Returned (a : A)
| Raised (e : exn).
Arguments Returned {A} a.
Arguments Raised {A} e.

(** The pieces of an f-string, or a value handed to a text argument:
    numbers are kept unformatted. *)
Inductive piece : Type :=
| Str (s : string)
| Int (z : Z)
| Float (x : Q).

Definition text := list piece.

(** A Python float that may be [nan]. *)
Definition pyfloat := option Q.

Definition Qltb (x y : Q) : bool := negb (Qle_bool y x).

(** [int(x)] on a float truncates towards zero. *)
Definition int_of_float (x : Q) : Z :=
  if Qle_bool 0 x then Qfloor x else Qceiling x.

(** [range(k)] *)
Definition range (k : Z) : list Z := map Z.of_nat (seq 0 (Z.to_nat k)).

(** [np.pi], the double nearest to pi, as the rational it is. *)
Definition np_pi : Q := 884279719003555 # 281474976710656.

End Py.

(** ** matplotlib.pyplot *)

Module Plt.
Import Py.

(** A colour argument: a matplotlib colour name, or the result of a
    fresh [np.random.rand(3,)], kept symbolic. *)
Inductive color : Type :=
| Named (c : string)
| RandomRGB.

(** One coordinate handed to [plt.plot]: a number, a masked or non-finite
    entry (matplotlib leaves a gap there), or a category. *)
Inductive datum : Type :=
| Number (x : Q)
| Missing
| Category (s : string).

Record plot_kw : Type := {
  kw_color     : color;
  kw_linestyle : option string;
  kw_marker    : option string;
  kw_label     : option text;
  kw_alpha     : option Q;
  kw_linewidth : option Q
}.

Inductive plt_call : Type :=
| Axis (xmin xmax ymin ymax : Q)
| StyleUse (name : string)
| RcParams (name : string) (value : list Z)
| Gca
| SetAspect (mode : string)
| SetXTicks (ticks : list Z)
| SetYTicks (ticks : list Z)
| Scatter (x y : Q) (c : string) (marker : string) (alpha : option Q)
| Quiver (x y vx vy : Q) (c : string)
| Plot (xs ys : list datum) (kw : plot_kw)
| XLabel (s : text)
| YLabel (s : text)
| Title (s : text)
| Suptitle (s : text)
| Legend
| Show
| Savefig (file : text)
| Close
| Cla.

(** A computation over pyplot: the calls it issued, in order, and how it
    ended. *)
Definition run (A : Type) : Type := (list plt_call * outcome A)%type.

Definition ret {A} (a : A) : run A := ([], Returned a).

Definition raise {A} (e : exn) : run A := ([], Raised e).

Definition bind {A B} (m : run A) (k : A -> run B) : run B :=
  match m with
  | (w, Returned a) => let (w', r) := k a in (w ++ w', r)
  | (w, Raised e) => (w, Raised e)
  end.

Definition call (c : plt_call) : run unit := ([c], Returned tt).

Definition calls {A} (m : run A) : list plt_call := fst m.
Definition result {A} (m : run A) : outcome A := snd m.

Declare Scope plt_scope.
Delimit Scope plt_scope with plt.
Notation "x <- m ;; k" := (bind m (fun x => k))
  (at level 100, m at next level, right associativity) : plt_scope.
Notation "m ;; k" := (bind m (fun _ => k))
  (at level 100, right associativity) : plt_scope.

Local Open Scope plt_scope.

(** [for x in xs: body(x)] *)
Fixpoint for_each {A} (xs : list A) (body : A -> run unit) : run unit :=
  match xs with
  | [] => ret tt
  | x :: xs' => body x ;; for_each xs' body
  end.

(** [xs[i]] for [0 <= i] *)
Definition index {A} (xs : list A) (i : nat) : run A :=
  match xs !! i with
  | Some x => ret x
  | None => raise IndexError
  end.

(** [Artist.set_alpha] refuses an opacity outside the range 0-1 with a
    [ValueError]. *)
Definition valid_alpha (alpha : option Q) : bool :=
  match alpha with
  | Some a => Qle_bool 0 a && Qle_bool a 1
  | None => true
  end.

Definition plt_scatter (x y : Q) (c marker : string) (alpha : option Q) : run unit :=
  if valid_alpha alpha then call (Scatter x y c marker alpha) else raise ValueError.

(** [Axes.plot] refuses x and y of different first dimension with a
    [ValueError]. *)
Definition plt_plot (xs ys : list datum) (kw : plot_kw) : run unit :=
  if (length xs =? length ys)%nat && valid_alpha (kw_alpha kw)
  then call (Plot xs ys kw)
  else raise ValueError.

(** *** What is on the plotting surface

    The drawings (artists and texts) that a sequence of calls leaves on
    the current axes and on the current figure.  [plt.cla()] clears the
    current axes; the super title belongs to the figure, which
    [plt.close()] discards.  [plt.show()] leaves the figure alone where it
    does not block (an interactive or a non-GUI backend); where it blocks,
    the figure is gone once its window has been closed: [blocking] tells
    which.  Axis limits, ticks, aspect and style are settings, not
    drawings, and are not tracked. *)
Record surface : Type := {
  on_axes   : list plt_call;
  on_figure : list plt_call
}.

Definition blank : surface := {| on_axes := []; on_figure := [] |}.

Definition draw (blocking : bool) (s : surface) (c : plt_call) : surface :=
  match c with
  | Scatter _ _ _ _ _ | Quiver _ _ _ _ _ | Plot _ _ _
  | XLabel _ | YLabel _ | Title _ | Legend =>
      {| on_axes := on_axes s ++ [c]; on_figure := on_figure s |}
  | Suptitle _ => {| on_axes := on_axes s; on_figure := [c] |}
  | Cla => {| on_axes := []; on_figure := on_figure s |}
  | Close => blank
  | Show => if blocking then blank else s
  | Axis _ _ _ _ | StyleUse _ | RcParams _ _ | Gca | SetAspect _
  | SetXTicks _ | SetYTicks _ | Savefig _ => s
  end.

Definition surface_after (blocking : bool) (s : surface) (w : list plt_call)
    : surface :=
  fold_left (draw blocking) w s.

(** The line segments that [Plot xs ys] draws: segment [i] joins point
    [i] to point [i+1], and is drawn when both points are there. *)
Definition point_at (xs ys : list datum) (i : nat) : option (Q * Q) :=
  match xs !! i, ys !! i with
  | Some (Number x), Some (Number y) => Some (x, y)
  | _, _ => None
  end.

Definition segment_drawn (xs ys : list datum) (i : nat) : bool :=
  match point_at xs ys i, point_at xs ys (S i) with
  | Some _, Some _ => true
  | _, _ => false
  end.

(** A computation that, whenever it returns and whatever was on the
    surface before, leaves nothing on the axes, and nothing at all when
    [save] is set. *)
Definition clears (save : bool) (m : run unit) : Prop :=
  forall blocking s, result m = Returned tt ->
    on_axes (surface_after blocking s (calls m)) = [] /\
    (save = true -> surface_after blocking s (calls m) = blank).

(** A computation that does not end in [ValueError]. *)
Definition calm {A} (m : run A) : Prop := result m <> Raised ValueError.

(** A computation that, whenever it returns, leaves the surface blank. *)
Definition leaves_nothing (m : run unit) : Prop :=
  forall blocking s,
    result m = Returned tt -> surface_after blocking s (calls m) = blank.

End Plt.

(** ** util/plot.py *)

Module Plot.
Import Py Plt.
Local Open Scope plt_scope.
Local Open Scope string_scope.
Local Open Scope Q_scope.

(** Modelled from the spec: [EnumBounds] is declared in [util.geometry],
    which is not among the sources; by the docstring of
    [plot_state_particles_trajectories] it tells whether the boundaries of
    the space are reflective or periodic.  The code here only passes it
    on. *)
Inductive EnumBounds : Type := PERIODIC | REFLECTIVE.

(** A trajectory array of shape (T, N, 2): T frames of N points. *)
Record traj3 : Type := {
  shape_N : nat;
  frames  : list (list (Q * Q))
}.

(** [Xt[:, i]] *)
Definition column (Xt : traj3) (i : nat) : list (Q * Q) :=
  map (fun fr => nth i fr (0, 0)) (frames Xt).

(** [np.diff] *)
Fixpoint np_diff (xs : list Q) : list Q :=
  match xs with
  | x :: (y :: _) as tl => (y - x) :: np_diff tl
  | _ => []
  end.

(** An entry of a masked array, as [plt.plot] sees it. *)
Definition unmask (dm : Q * bool) : datum :=
  if snd dm then Missing else Number (fst dm).

(** [np.ma.MaskedArray(data, mask)] *)
Definition masked_array (data : list Q) (mask : list bool) : run (list datum) :=
  if (length data =? length mask)%nat
  then ret (map unmask (combine data mask))
  else raise MaskError.

(** [Xt[lo:hi]] for [0 <= lo] and [0 <= hi] *)
Definition slice {A} (lo hi : nat) (xs : list A) : list A :=
  skipn lo (firstn hi xs).

(** [np.hstack([np.abs(np.diff(xs)) >= l-1, [False]])]: entry [i] is set
    when the step from [xs[i]] to [xs[i+1]] is [l - 1] or more.  The
    difference and [l - 1] are the exact ones here.  numpy compares the
    rounded ones: as rounding is monotone, it sets every entry that is
    set here, and may set one more where the exact step is below [l - 1]
    by less than the rounding. *)
Definition jump_mask (l : Q) (xs : list Q) : list bool :=
  map (fun d => Qle_bool (l - 1) (Qabs d)) (np_diff xs) ++ [false].

Section Geometry.

(** Names that [from util.geometry import *] brings in and the code
    calls; their source is not part of the embedding. *)
Variable ang_to_vec : Q -> Q * Q.
Variable sum_vec_ang : list Q -> list Q -> Q * Q.
Variable centre_of_mass : list (Q * Q) -> Q -> EnumBounds -> Q * Q.

(** [plot_state] reads the names [V] and [sumvec], which are neither
    parameters nor locals of it nor defined in [plot.py]: Python looks
    them up among the module globals.  [None] is an unbound name. *)
Variable global_V : option (list Q).
Variable global_sumvec : option bool.

Definition prepare_state_plot (l : Q) : run unit :=
  call (Axis 0 l 0 l) ;;
  call (StyleUse "dark_background") ;;
  call Gca ;;
  call (SetAspect "equal") ;;
  if Qltb l 20 then
    call (SetXTicks (range (int_of_float l + 1))) ;;
    call (SetYTicks (range (int_of_float l + 1)))
  else ret tt.

Definition plot_particle (X : Q * Q) : run unit :=
  let '(x, y) := X in
  plt_scatter x y "w" "." None.

Definition plot_vector (X V : Q * Q) (col : string) : run unit :=
  let '(x, y) := X in
  let '(vx, vy) := V in
  call (Quiver x y vx vy col).

Definition plot_vector_ang (X : Q * Q) (a v : Q) (col : string) : run unit :=
  let '(x, y) := X in
  let '(vx, vy) := (fst (ang_to_vec a) * v, snd (ang_to_vec a) * v) in
  call (Quiver x y vx vy col).

(** The brightness of the light in fade mode. *)
Definition fade_alpha (p : Q) : Q :=
  let p :=
    if Qltb np_pi p then 2 * np_pi - p
    else if Qltb p 0 then Qabs p
    else p in
  p / np_pi.

Definition plot_oscillator (X : Q * Q) (p f dt : Q) (blink : bool)
    (col1 col2 : string) : run unit :=
  let '(x, y) := X in
  (if blink then
     if Qle_bool 0 p && Qle_bool p (2 * np_pi * f * dt)
     then plt_scatter x y "y" "o" None
     else ret tt
   else
     plt_scatter x y col1 "o" (Some (fade_alpha p))) ;;
  plt_scatter x y col2 "." None.

(** The part of the trajectory that [plot_trajectory] keeps:
    [Xt[t-dt-1:t+1]] or [Xt[0:t+1]]. *)
Definition window (t dt : nat) (Xt : list (Q * Q)) : list (Q * Q) :=
  if (dt <? t)%nat then slice (t - dt - 1) (t + 1) Xt
  else slice 0 (t + 1) Xt.

Definition plot_trajectory (t : nat) (Xt : list (Q * Q)) (l : Q)
    (col : string) (dt : nat) : run unit :=
  let Xt := window t dt Xt in
  if (0 <? t)%nat then
    mask_Xt0 <- masked_array (map fst Xt) (jump_mask l (map fst Xt)) ;;
    mask_Xt1 <- masked_array (map snd Xt) (jump_mask l (map snd Xt)) ;;
    let alpha := if String.eqb col "grey" then 3 # 10 else 1 in
    plt_plot mask_Xt0 mask_Xt1
      {| kw_color := Named col; kw_linestyle := None; kw_marker := None;
         kw_label := None; kw_alpha := Some alpha; kw_linewidth := None |}
  else ret tt.

(** The tail shared by the frame-producing functions:
    label, show, save, clear. *)
Definition finish_frame (labels : run unit) (file : text) (save show : bool) : run unit :=
  labels ;;
  (if show then call Show else ret tt) ;;
  (if save then call (Savefig file) ;; call Close else ret tt) ;;
  call Cla.

Definition frame_labels (t : nat) (title subtitle : string) : run unit :=
  call (XLabel [Int (Z.of_nat t)]) ;;
  call (Title [Str subtitle]) ;;
  call (Suptitle [Str title]).

Definition frame_file (path : string) (t : nat) : text :=
  [Str path; Str "/"; Int (Z.of_nat t); Str ".jpg"].

(** [S = sum_vec_ang(A, V) / n] and the yellow line from the centre. *)
Definition plot_sum_vector (A V : list Q) (n : nat) (l : Q) : run unit :=
  let S := sum_vec_ang A V in
  let over_n (s : Q) : datum :=
    if (n =? 0)%nat then Missing else Number (s / inject_Z (Z.of_nat n) + l / 2) in
  plt_plot [Number (l / 2); over_n (fst S)] [Number (l / 2); over_n (snd S)]
    {| kw_color := Named "yellow"; kw_linestyle := None; kw_marker := None;
       kw_label := None; kw_alpha := None; kw_linewidth := Some 3 |}.

(** [plot_state(t, X, A, v, l, title, subtitle, path, save, show)]:
    the parameter is the scalar [v]; the body reads [V] and [sumvec]. *)
Definition plot_state (t : nat) (X : list (Q * Q)) (A : list Q) (v : Q) (l : Q)
    (title subtitle path : string) (save show : bool) : run unit :=
  let n := length X in
  prepare_state_plot l ;;
  for_each (seq 0 n) (fun i =>
    Xi <- index X i ;;
    Ai <- index A i ;;
    V <- match global_V with Some V => ret V | None => raise (NameError "V") end ;;
    Vi <- index V i ;;
    plot_vector_ang Xi Ai Vi "w") ;;
  sumvec <- match global_sumvec with
            | Some b => ret b
            | None => raise (NameError "sumvec")
            end ;;
  (if sumvec : bool then
     V <- match global_V with Some V => ret V | None => raise (NameError "V") end ;;
     plot_sum_vector A V n l
   else ret tt) ;;
  finish_frame (frame_labels t title subtitle) (frame_file path t) save show.

Definition plot_state_vectors (t : nat) (X : list (Q * Q)) (A V : list Q) (l : Q)
    (title subtitle path : string) (sumvec save show : bool) : run unit :=
  let n := length X in
  prepare_state_plot l ;;
  for_each (seq 0 n) (fun i =>
    Xi <- index X i ;;
    Ai <- index A i ;;
    Vi <- index V i ;;
    plot_vector_ang Xi Ai Vi "w") ;;
  (if sumvec then plot_sum_vector A V n l else ret tt) ;;
  finish_frame (frame_labels t title subtitle) (frame_file path t) save show.

Definition plot_state_particles_trajectories (t : nat) (Xt : traj3) (l : Q)
    (topology : EnumBounds) (title subtitle path : string)
    (cmass save show : bool) : run unit :=
  let n := shape_N Xt in
  prepare_state_plot l ;;
  for_each (seq 0 n) (fun i => plot_trajectory t (column Xt i) l "grey" 20) ;;
  for_each (seq 0 n) (fun i =>
    fr <- index (frames Xt) t ;;
    Xti <- index fr i ;;
    plot_particle Xti) ;;
  (if cmass then
     let M := map (fun X => centre_of_mass X l topology) (frames Xt) in
     plot_trajectory t M l "yellow" 20
   else ret tt) ;;
  finish_frame (frame_labels t title subtitle) (frame_file path t) save show.

Definition plot_state_oscillators (t : nat) (X : list (Q * Q)) (F P : list Q)
    (dt : Q) (l : Q) (title subtitle path : string) (save show : bool) : run unit :=
  let n := length X in
  prepare_state_plot l ;;
  for_each (seq 0 n) (fun i =>
    Xi <- index X i ;;
    Pi <- index P i ;;
    Fi <- index F i ;;
    plot_oscillator Xi Pi Fi dt false "y" "g") ;;
  finish_frame (frame_labels t title subtitle) (frame_file path t) save show.

Definition plot_trajectories (X : traj3) (M : list (Q * Q)) (l : Q)
    (name title suptitle path : string) (save show : bool) : run unit :=
  let T := length (frames X) in
  let N := shape_N X in
  call Cla ;;
  for_each (seq 0 N) (fun i => plot_trajectory T (column X i) l "grey" T) ;;
  plot_trajectory T M l "r" T ;;
  finish_frame (call (Title [Str title]) ;; call (Suptitle [Str suptitle]))
    [Str path; Str "/trajectories_"; Str name; Str ".png"] save show.

End Geometry.

End Plot.

(** ** Strings, association lists and the store of dictionaries *)

Module Str.
Import Py.
Local Open Scope string_scope.

(** [sub in s] *)
Fixpoint contains (sub s : string) : bool :=
  String.prefix sub s ||
  match s with
  | EmptyString => false
  | String _ s' => contains sub s'
  end.

(** [s.split(sep)] for a one-character separator *)
Fixpoint split (sep : ascii) (s : string) : list string :=
  match s with
  | EmptyString => [EmptyString]
  | String c s' =>
      if Ascii.eqb c sep then EmptyString :: split sep s'
      else match split sep s' with
           | hd :: tl => String c hd :: tl
           | [] => [String c EmptyString]
           end
  end.

Definition digit_of (c : ascii) : option Z :=
  let n := nat_of_ascii c in
  if (48 <=? n)%nat && (n <=? 57)%nat then Some (Z.of_nat (n - 48)) else None.

Fixpoint digits (acc : Z) (s : string) : option Z :=
  match s with
  | EmptyString => Some acc
  | String c s' =>
      match digit_of c with
      | Some d => digits (10 * acc + d) s'
      | None => None
      end
  end.

(** [int(s)] on a string of decimal digits; anything else is taken to be
    the [ValueError] that [int] raises on a malformed literal (signs,
    blanks and underscores, which [int] also accepts, do not occur in
    the run suffixes of experiment names). *)
Definition int (s : string) : outcome Z :=
  match s with
  | EmptyString => Raised ValueError
  | _ => match digits 0 s with
         | Some z => Returned z
         | None => Raised ValueError
         end
  end.

Fixpoint insert (x : string) (l : list string) : list string :=
  match l with
  | [] => [x]
  | y :: l' => if String.leb x y then x :: l else y :: insert x l'
  end.

(** [sorted(l)] on strings *)
Definition sorted (l : list string) : list string := fold_right insert [] l.

End Str.

Module Dict.
Import Py.

Section Assoc.
Context {K V : Type} (eqb : K -> K -> bool).

(** [d.get(k)] *)
Fixpoint lookup (d : list (K * V)) (k : K) : option V :=
  match d with
  | [] => None
  | (k', v) :: d' => if eqb k' k then Some v else lookup d' k
  end.

(** [k in d.keys()] *)
Definition mem (d : list (K * V)) (k : K) : bool :=
  match lookup d k with Some _ => true | None => false end.

(** [d[k] = v]: in place for a key that is there, at the end for a
    new one. *)
Fixpoint set_item (d : list (K * V)) (k : K) (v : V) : list (K * V) :=
  match d with
  | [] => [(k, v)]
  | (k', v') :: d' =>
      if eqb k' k then (k', v) :: d' else (k', v') :: set_item d' k v
  end.

(** [d |= e] *)
Definition update (d e : list (K * V)) : list (K * V) :=
  fold_left (fun acc kv => set_item acc (fst kv) (snd kv)) e d.

(** [d[k]] *)
Definition getitem (d : list (K * V)) (k : K) : outcome V :=
  match lookup d k with
  | Some v => Returned v
  | None => Raised KeyError
  end.
End Assoc.

End Dict.

Module Store.
Import Py.

(** A key of the dictionaries that the aggregator builds: a parameter
    value or a statistic name. *)
Inductive key : Type :=
| KNum (q : Q)
| KStr (s : string).

Abbreviation addr := nat (only parsing).

(** What such a dictionary holds: a number, or a reference to a
    dictionary of the store. *)
Inductive value : Type :=
| VFloat (x : pyfloat)
| VDict (a : addr).

Abbreviation pydict := (list (key * value)) (only parsing).
Abbreviation store := (list (list (key * value))) (only parsing).

(** Python compares numeric keys by value. *)
Definition key_eqb (k1 k2 : key) : bool :=
  match k1, k2 with
  | KNum p, KNum q => Qeq_bool p q
  | KStr s, KStr t => String.eqb s t
  | _, _ => false
  end.

Definition read (h : store) (a : addr) : pydict := default [] (h !! a).

Definition write (h : store) (a : addr) (d : pydict) : store := <[a := d]> h.

(** [dict()] *)
Definition alloc (h : store) : store * addr := (h ++ [[]], length h).

(** [stats = dict()]: the store holds one empty dictionary, at [root]. *)
Definition root : addr := 0%nat.
Definition fresh_store : store := [[]].

(** Follow a list of keys down from a dictionary. *)
Fixpoint follow (h : store) (a : addr) (ks : list key) : option addr :=
  match ks with
  | [] => Some a
  | k :: ks' =>
      match Dict.lookup key_eqb (read h a) k with
      | Some (VDict a') => follow h a' ks'
      | _ => None
      end
  end.

(** The dictionary at an address is nested to a depth: at depth 0 it
    maps statistic names, among [names], to numbers; at depth [S d] it
    maps numbers to dictionaries nested to depth [d]. *)
Fixpoint nested (names : list string) (h : store) (depth : nat) (a : addr) : Prop :=
  match depth with
  | O => forall k v, In (k, v) (read h a) ->
           exists s x, k = KStr s /\ v = VFloat x /\ In s names
  | S d => forall k v, In (k, v) (read h a) ->
             exists q a', k = KNum q /\ v = VDict a' /\ nested names h d a'
  end.

(** The dictionary at an address holds a number under a statistic name. *)
Definition has_number (a : addr) (stat : string) (h : store) : Prop :=
  exists x, Dict.lookup key_eqb (read h a) (KStr stat) = Some (VFloat x).

(** A depth for every address, and what an entry of a dictionary of a
    given depth may be. *)
Definition entry_ok (names : list string) (D : list nat) (d : nat)
    (k : key) (v : value) : Prop :=
  match d, k, v with
  | O, KStr s, VFloat _ => In s names
  | S d', KNum _, VDict a' => D !! a' = Some d'
  | _, _, _ => False
  end.

Definition typed (names : list string) (D : list nat) (h : store) : Prop :=
  length D = length h /\
  forall a d k v, D !! a = Some d -> In (k, v) (read h a) -> entry_ok names D d k v.

(** The store grows: references stay, numbers stay numbers. *)
Definition ext (h h' : store) : Prop :=
  forall a k,
    match Dict.lookup key_eqb (read h a) k with
    | Some (VDict a') => Dict.lookup key_eqb (read h' a) k = Some (VDict a')
    | Some (VFloat _) => exists x, Dict.lookup key_eqb (read h' a) k = Some (VFloat x)
    | None => True
    end.

End Store.

(** ** analysis/plot_aggregate.py *)

Module Aggregate.
Import Py Plt Store.
Local Open Scope string_scope.

(** *** Computations that return or raise *)

Definition obind {A B} (m : outcome A) (k : A -> outcome B) : outcome B :=
  match m with
  | Returned a => k a
  | Raised e => Raised e
  end.

Declare Scope py_scope.
Delimit Scope py_scope with py.
Notation "x <- m ;; k" := (obind m (fun x => k))
  (at level 100, m at next level, right associativity) : py_scope.
Notation "m ;; k" := (obind m (fun _ => k))
  (at level 100, right associativity) : py_scope.
Local Open Scope py_scope.

(** [for x in xs: s = body(s, x)] *)
Fixpoint foldM {A S} (body : S -> A -> outcome S) (xs : list A) (s : S) : outcome S :=
  match xs with
  | [] => Returned s
  | x :: xs' => s' <- body s x ;; foldM body xs' s'
  end.

(** [[f(x) for x in xs]] *)
Fixpoint mapM {A B} (f : A -> outcome B) (xs : list A) : outcome (list B) :=
  match xs with
  | [] => Returned []
  | x :: xs' => y <- f x ;; ys <- mapM f xs' ;; Returned (y :: ys)
  end.

(** [[f(x) for x in xs if c(x)]]: [f] answers [None] where the
    condition fails. *)
Fixpoint filter_mapM {A B} (f : A -> outcome (option B)) (xs : list A)
    : outcome (list B) :=
  match xs with
  | [] => Returned []
  | x :: xs' =>
      y <- f x ;;
      ys <- filter_mapM f xs' ;;
      Returned (match y with Some b => b :: ys | None => ys end)
  end.

(** *** Module-level tables *)

Definition backslash : string := String (ascii_of_nat 92) EmptyString.

Definition labels : list (string * string) :=
  [ ("avg_abs_vel",    "$\frac{1}{N v}  \sum_i^N \mathbf{v}_{X_i}$");
    ("std_angle",      "$\sigma_{\theta}$");
    ("std_dist_cmass", "$\sigma_{X_M}$");
    ("psi_cmass",      "$\psi_{x_M}$") ].

Definition titles : list (string * string) :=
  [ ("avg_abs_vel",    "Absolute average normalised velocity");
    ("std_angle",      "Standard deviation of particle direction");
    ("std_dist_cmass", "Standard deviation of distance from centre of mass");
    ("psi_cmass",      "Emergence $\psi$ for centre of mass") ].

(** [itertools.cycle(('.', '+', '^', 'o', '*'))]: the marker at a
    position of the cycle. *)
Definition marker_at (pos : nat) : string :=
  nth (pos mod 5) ["."; "+"; "^"; "o"; "*"] ".".

(** *** Models *)

(** An array of shape (t, n, d). *)
Record ndarray3 : Type := {
  dim_n   : nat;
  dim_d   : nat;
  entries : list (list (list Q))
}.

(** [X[skip:]] *)
Definition drop3 (skip : nat) (X : ndarray3) : ndarray3 :=
  {| dim_n := dim_n X; dim_d := dim_d X; entries := skipn skip (entries X) |}.

(** Modelled from the spec: [FlockModel] is declared in [flock.model],
    which is not among the sources; the record has what the aggregator
    reads of a loaded model: [m.params], [m.traj['X']], [m.traj['A']] and
    [m.bounds]. *)
Record FlockModel : Type := {
  params : list (string * Q);
  traj_X : ndarray3;
  traj_A : list (list Q);
  bounds : Plot.EnumBounds
}.

(** A numpy array of statistics, flattened. *)
Definition ndarray := list Q.

Definition np_sum (xs : ndarray) : Q := fold_right Qplus 0%Q xs.

(** [np.mean]: [nan] on an empty array. *)
Definition np_mean (xs : ndarray) : pyfloat :=
  match xs with
  | [] => None
  | _ => Some (np_sum xs / inject_Z (Z.of_nat (length xs)))%Q
  end.

(** [x + y] and [x / c] on floats, [nan] included: the exact sum and
    quotient, which are what float64 computes where they are doubles. *)
Definition fadd (x y : pyfloat) : pyfloat :=
  match x, y with
  | Some a, Some b => Some (a + b)%Q
  | _, _ => None
  end.

Definition fdiv (x : pyfloat) (c : Q) : pyfloat :=
  match x with
  | Some a => Some (a / c)%Q
  | None => None
  end.

Definition models_dict := list (string * FlockModel).

Definition getparam (m : FlockModel) (p : string) : outcome Q :=
  Dict.getitem String.eqb (params m) p.

Definition getmodel (models : models_dict) (name : string) : outcome FlockModel :=
  Dict.getitem String.eqb models name.

Definition in_list (p : string) (l : list string) : bool :=
  existsb (String.eqb p) l.

(** [set([p for m in models.values() for p in m.params.keys()])]; the
    code only tests membership in it and reads every member. *)
Definition model_params (models : models_dict) : list string :=
  flat_map (fun nm => map fst (params (snd nm))) models.

(** [sorted([m for m in models.keys() if '-' not in m])] *)
Definition batch_names (models : models_dict) : list string :=
  Str.sorted (List.filter (fun m => negb (Str.contains "-" m)) (map fst models)).

(** [sorted([m for m in models.keys() if batch in m])] *)
Definition exp_in_batch (models : models_dict) (batch : string) : list string :=
  Str.sorted (List.filter (fun m => Str.contains batch m) (map fst models)).

(** [int(m.split('-')[1]) if len(m.split('-')) > 1 else 0] *)
Definition run_index (m : string) : outcome Z :=
  let parts := Str.split "-" m in
  if (1 <? length parts)%nat then Str.int (nth 1 parts "") else Returned 0%Z.

(** [max([...]) + 1] *)
Definition count_runs (exps : list string) : outcome Z :=
  idx <- mapM run_index exps ;;
  match idx with
  | [] => Raised ValueError
  | i :: rest => Returned (fold_left Z.max rest i + 1)%Z
  end.

(** [tmp.keys()], [tmp[k]] and [np.mean(tmp)] on a value that is a
    dictionary or a numpy scalar. *)
Definition keys_of (h : store) (v : value) : outcome (list key) :=
  match v with
  | VDict a => Returned (map fst (read h a))
  | VFloat _ => Raised AttributeError
  end.

Definition subscript (h : store) (v : value) (k : key) : outcome value :=
  match v with
  | VDict a => Dict.getitem key_eqb (read h a) k
  | VFloat _ => Raised IndexError
  end.

Definition mean_of (v : value) : outcome pyfloat :=
  match v with
  | VFloat x => Returned x
  | VDict _ => Raised TypeError
  end.

(** One round of the loop over [param_list]:
    [if pval not in tmp.keys(): tmp[pval] = dict()] and [tmp = tmp[pval]]. *)
Definition descend (h : store) (tmp : value) (pval : Q) : outcome (store * value) :=
  match tmp with
  | VFloat _ => Raised AttributeError
  | VDict a =>
      let h1 :=
        if Dict.mem key_eqb (read h a) (KNum pval) then h
        else let (h', fresh) := alloc h in
             write h' a (Dict.set_item key_eqb (read h' a) (KNum pval) (VDict fresh)) in
      v <- subscript h1 tmp (KNum pval) ;;
      Returned (h1, v)
  end.

(** [tmp[stat] += x] if the key is there, [tmp[stat] = x] otherwise. *)
Definition accumulate (s : list (string * ndarray)) (tmp : value)
    (h : store) (stat : string) : outcome store :=
  match tmp with
  | VFloat _ => Raised AttributeError
  | VDict a =>
      if Dict.mem key_eqb (read h a) (KStr stat) then
        old <- subscript h tmp (KStr stat) ;;
        x <- Dict.getitem String.eqb s stat ;;
        match old with
        | VFloat y =>
            Returned (write h a (Dict.set_item key_eqb (read h a) (KStr stat)
                                   (VFloat (fadd y (np_mean x)))))
        | VDict _ => Raised TypeError
        end
      else
        x <- Dict.getitem String.eqb s stat ;;
        Returned (write h a (Dict.set_item key_eqb (read h a) (KStr stat)
                               (VFloat (np_mean x))))
  end.

(** [tmp[stat] /= float(count)] *)
Definition average (count : Z) (tmp : value) (h : store) (stat : string) : outcome store :=
  old <- subscript h tmp (KStr stat) ;;
  match tmp, old with
  | VDict a, VFloat y =>
      Returned (write h a (Dict.set_item key_eqb (read h a) (KStr stat)
                             (VFloat (fdiv y (inject_Z count)))))
  | _, _ => Raised TypeError
  end.

Section Statistics.

(** [np.sqrt], and the statistics of [analysis.stats] and
    [analysis.emergence_calculator], whose source is not part of the
    embedding. *)
Variable np_sqrt : Q -> Q.
Variable process_space :
  ndarray3 -> Q -> Plot.EnumBounds -> list (string * ndarray).
Variable process_angles : list (list Q) -> Q -> list (string * ndarray).
Variable em_format : ndarray3 -> ndarray3.
Variable emergence_psi : ndarray3 -> ndarray -> ndarray.

(** The statistics of one experiment: lines 109 to 114. *)
Definition experiment_stats (skip : nat) (m : FlockModel)
    : outcome (list (string * ndarray)) :=
  let n := dim_n (traj_X m) in
  rho <- getparam m "rho" ;;
  let l := np_sqrt (rho * inject_Z (Z.of_nat n))%Q in
  let s := process_space (drop3 skip (traj_X m)) l (bounds m) in
  v <- getparam m "v" ;;
  let s := Dict.update String.eqb s (process_angles (skipn skip (traj_A m)) v) in
  cmass <- Dict.getitem String.eqb s "cmass" ;;
  Returned (Dict.update String.eqb s
              [("psi_cmass", emergence_psi (em_format (drop3 skip (traj_X m))) cmass)]).

(** The body of the loop over [batch_names]. *)
Definition process_batch (models : models_dict) (param_list stats_names : list string)
    (skip : nat) (stats : store) (batch : string) : outcome store :=
  let exps := exp_in_batch models batch in
  count <- count_runs exps ;;
  (* the arguments of [print] *)
  _ <- mapM (fun p => mb <- getmodel models batch ;; getparam mb p)
         (model_params models) ;;
  ht <- foldM (fun (ht : store * value) p =>
                 mb <- getmodel models batch ;;
                 pval <- getparam mb p ;;
                 descend (fst ht) (snd ht) pval)
          param_list (stats, VDict root) ;;
  let tmp := snd ht in
  h <- foldM (fun h exp =>
                m <- getmodel models exp ;;
                s <- experiment_stats skip m ;;
                foldM (accumulate s tmp) stats_names h)
         exps (fst ht) ;;
  foldM (average count tmp) stats_names h.

(** [aggregate_model_stats(models, param_list, stats_names, skip)]:
    the store it returns holds [stats] at [root]. *)
Definition aggregate_model_stats (models : models_dict)
    (param_list stats_names : list string) (skip : nat) : outcome store :=
  _ <- foldM (fun (_ : unit) p =>
                if in_list p (model_params models) then Returned tt
                else Raised ValueError)
         param_list tt ;;
  foldM (process_batch models param_list stats_names skip)
    (batch_names models) fresh_store.

(** The time-average of one statistic of one experiment. *)
Definition time_average (skip : nat) (m : FlockModel) (stat : string)
    : outcome pyfloat :=
  s <- experiment_stats skip m ;;
  x <- Dict.getitem String.eqb s stat ;;
  Returned (np_mean x).

(** Enough for the aggregation to return: the parameters to aggregate by
    are parameters of the models; every model has every parameter that
    some model has; run suffixes are numbers; and the statistics of every
    model can be computed and hold every requested name. *)
Definition runnable (models : models_dict) (param_list stats_names : list string)
    (skip : nat) : Prop :=
  (forall p, In p param_list -> In p (model_params models)) /\
  (forall name, In name (map fst models) -> exists z, run_index name = Returned z) /\
  (forall name m p, getmodel models name = Returned m ->
     In p (model_params models) -> exists q, getparam m p = Returned q) /\
  (forall name m, getmodel models name = Returned m ->
     exists s, experiment_stats skip m = Returned s /\
       forall stat, In stat stats_names ->
         exists arr, Dict.lookup String.eqb s stat = Some arr).

(** Every experiment of the batch had its statistics computed, and
    they held every requested name. *)
Definition batch_computed (models : models_dict) (names : list string)
    (skip : nat) (batch : string) : Prop :=
  forall exp, In exp (exp_in_batch models batch) ->
    exists m s, getmodel models exp = Returned m /\
                experiment_stats skip m = Returned s /\
                forall stat, In stat names ->
                  exists arr, Dict.lookup String.eqb s stat = Some arr.

End Statistics.

(** What one round of the loop over the batches leaves behind: the
    values of the parameters of the batch lead to a dictionary that
    holds a number for every requested statistic. *)
Definition batch_done (models : models_dict) (pl names : list string)
    (batch : string) (h : store) : Prop :=
  exists mb pvals leaf,
    getmodel models batch = Returned mb /\
    mapM (getparam mb) pl = Returned pvals /\
    follow h root (map KNum pvals) = Some leaf /\
    forall stat, In stat names -> has_number leaf stat h.

(** A model without the first [skip] timepoints of its trajectories. *)
Definition without_first (skip : nat) (m : FlockModel) : FlockModel :=
  {| params := params m;
     traj_X := drop3 skip (traj_X m);
     traj_A := skipn skip (traj_A m);
     bounds := bounds m |}.

Definition map_models (f : FlockModel -> FlockModel) (models : models_dict)
    : models_dict :=
  map (fun nm => (fst nm, f (snd nm))) models.

(** *** Plots of the aggregated statistics *)

Definition lift {A} (o : outcome A) : run A := ([], o).

(** [for x in xs: s = body(s, x)] over pyplot *)
Fixpoint for_fold {A S} (body : S -> A -> run S) (xs : list A) (s : S) : run S :=
  match xs with
  | [] => Plt.ret s
  | x :: xs' => Plt.bind (body s x) (for_fold body xs')
  end.

Definition datum_of_key (k : key) : datum :=
  match k with
  | KNum q => Number q
  | KStr s => Category s
  end.

Definition datum_of_float (x : pyfloat) : datum :=
  match x with
  | Some q => Number q
  | None => Missing
  end.

(** A key inside an f-string. *)
Definition piece_of_key (k : key) : piece :=
  match k with
  | KNum q => Float q
  | KStr s => Str s
  end.

Definition curve_kw (label : option text) (marker : string) : plot_kw :=
  {| kw_color := RandomRGB; kw_linestyle := Some "--"; kw_marker := Some marker;
     kw_label := label; kw_alpha := None; kw_linewidth := None |}.

Definition table (d : list (string * string)) (k : string) : outcome string :=
  Dict.getitem String.eqb d k.

Local Open Scope plt_scope.

Section Mathtext.

(** Whether matplotlib's mathtext can typeset [$\name$]: it can where
    [name] is the name of a TeX symbol that it knows, as [rho] and [eta]
    are, and it cannot for a name such as [r].  Its source is not part of
    the embedding. *)
Variable tex_symbol : string -> bool.

(** [plt.savefig(file)] of a figure whose title ends in [$\b$] and whose
    super title holds [$\a$], as [plot_2param] and [plot_3param] write
    them from the names of the parameters.  A figure is drawn when it is
    saved, and its texts are typeset then: where mathtext cannot typeset
    one of them, [plt.savefig] raises [ValueError] and writes no file.
    The other texts of these figures are the axis labels, which are
    entries of [labels] or [$\eta$], and the legend; the name of the
    model and the labels of the legend are taken to hold no formula. *)
Definition plt_savefig (a b : string) (file : text) : run unit :=
  if tex_symbol b && tex_symbol a then call (Savefig file) else raise ValueError.

(** [plot_2param(name, stats, param, path)]; [markers] is the
    module-level cycle, whose position is threaded through. *)
Definition plot_2param (name : string) (h : store) (stats : value)
    (param : list string) (path : string) (markers : nat) : run nat :=
  if negb (length param =? 2)%nat then raise ValueError
  else
    for_fold (fun markers val =>
      top <- lift (keys_of h stats) ;;
      for_fold (fun markers p0 =>
        s0 <- lift (subscript h stats p0) ;;
        xval <- lift (keys_of h s0) ;;
        yval <- lift (mapM (fun p1 =>
                  s0 <- subscript h stats p0 ;;
                  s1 <- subscript h s0 p1 ;;
                  v <- subscript h s1 (KStr val) ;;
                  mean_of v)%py xval) ;;
        plt_plot (map datum_of_key xval) (map datum_of_float yval)
          (curve_kw None (marker_at markers)) ;;
        ttl <- lift (table titles val) ;;
        call (Title [Str ttl; Str " vs $"; Str backslash; Str (nth 1 param ""); Str "$"]) ;;
        call (Suptitle [Str name; Str " $"; Str backslash; Str (nth 0 param "");
                        Str "$ = "; piece_of_key p0]) ;;
        call (XLabel [Str "$\eta$"]) ;;
        lbl <- lift (table labels val) ;;
        call (YLabel [Str lbl]) ;;
        plt_savefig (nth 0 param "") (nth 1 param "")
          [Str path; Str "/"; Str name; Str "_"; Str (nth 0 param "");
           piece_of_key p0; Str "_"; Str (nth 1 param ""); Str "_vs_";
           Str val; Str ".png"] ;;
        call Cla ;;
        ret (S markers)) top markers)
      (map fst titles) markers.

(** What is known of [list(set(xs))] whatever the hash order: its members
    are members of [xs], and it is not empty unless [xs] is. *)
Definition set_order (list_of_set : list key -> list key) : Prop :=
  forall ks,
    (forall k, In k (list_of_set ks) -> In k ks) /\
    (ks <> [] -> list_of_set ks <> []).

(** One such order: that of first occurrence. *)
Fixpoint first_occurrences (ks : list key) : list key :=
  match ks with
  | [] => []
  | k :: ks' => k :: List.filter (fun k' => negb (key_eqb k k')) (first_occurrences ks')
  end.

Section SetOrder.

(** [list(set(xs))]: the order in which Python iterates a set is that
    of its hash table. *)
Variable list_of_set : list key -> list key.

(** [plot_3param(name, stats, param, path)]; its [markers] is a fresh
    cycle. *)
Definition plot_3param (name : string) (h : store) (stats : value)
    (param : list string) (path : string) : run unit :=
  if negb (length param =? 3)%nat then raise ValueError
  else
    for_fold (fun markers val =>
      top <- lift (keys_of h stats) ;;
      for_fold (fun markers p0 =>
        s0 <- lift (subscript h stats p0) ;;
        xval <- lift (keys_of h s0) ;;
        p2s <- lift (mapM (fun p1 =>
                  s0 <- subscript h stats p0 ;;
                  s1 <- subscript h s0 p1 ;;
                  keys_of h s1)%py xval) ;;
        let groups := list_of_set (concat p2s) in
        markers <- for_fold (fun markers p2 =>
          yval <- lift (filter_mapM (fun p1 =>
                    s0 <- subscript h stats p0 ;;
                    s1 <- subscript h s0 p1 ;;
                    ks <- keys_of h s1 ;;
                    if existsb (key_eqb p2) ks then
                      s0 <- subscript h stats p0 ;;
                      s1 <- subscript h s0 p1 ;;
                      s2 <- subscript h s1 p2 ;;
                      v <- subscript h s2 (KStr val) ;;
                      y <- mean_of v ;;
                      Returned (Some y)
                    else Returned None)%py xval) ;;
          plt_plot (map datum_of_key xval) (map datum_of_float yval)
            (curve_kw (Some [Str (nth 2 param ""); Str " = "; piece_of_key p2])
               (marker_at markers)) ;;
          ret (S markers)) groups markers ;;
        ttl <- lift (table titles val) ;;
        call (Title [Str ttl; Str " vs $"; Str backslash; Str (nth 1 param ""); Str "$"]) ;;
        call (Suptitle [Str name; Str " $"; Str backslash; Str (nth 0 param "");
                        Str "$ = "; piece_of_key p0]) ;;
        call (XLabel [Str "$\eta$"]) ;;
        lbl <- lift (table labels val) ;;
        call (YLabel [Str lbl]) ;;
        call Legend ;;
        plt_savefig (nth 0 param "") (nth 1 param "")
          [Str path; Str "/"; Str name; Str "_"; Str (nth 0 param "");
           piece_of_key p0; Str "_"; Str (nth 1 param ""); Str "_";
           Str (nth 2 param ""); Str "_vs_"; Str val; Str ".png"] ;;
        call Cla ;;
        ret markers) top markers)
      (map fst titles) 0%nat ;;
    ret tt.

End SetOrder.

End Mathtext.

Section Script.

Variable np_sqrt : Q -> Q.
Variable process_space :
  ndarray3 -> Q -> Plot.EnumBounds -> list (string * ndarray).
Variable process_angles : list (list Q) -> Q -> list (string * ndarray).
Variable em_format : ndarray3 -> ndarray3.
Variable emergence_psi : ndarray3 -> ndarray -> ndarray.
Variable list_of_set : list key -> list key.
Variable tex_symbol : string -> bool.

(** What [find_models(path, name)] loads from the directories that
    it finds. *)
Variable find_models : string -> string -> models_dict.

(** Line 205: the aggregation that [plot_results] asks for, with the
    default [skip]. *)
Definition results_stats (models : models_dict) (aggregate : list string)
    : outcome store :=
  aggregate_model_stats np_sqrt process_space process_angles em_format
    emergence_psi models aggregate (map fst titles) 10.

(** [plot_results(path, out, model, aggregate)] *)
Definition plot_results (path out model : string) (aggregate : list string)
    (markers : nat) : run nat :=
  if (3 <? length aggregate)%nat then raise ValueError
  else
    let models := find_models path model in
    if (length models =? 0)%nat then raise SystemExit
    else
      stats <- lift (results_stats models aggregate) ;;
      call (RcParams "figure.figsize" [10; 7]%Z) ;;
      markers <- (if (length aggregate =? 2)%nat
                  then plot_2param tex_symbol model stats (VDict root) aggregate
                         out markers
                  else ret markers) ;;
      (if (length aggregate =? 3)%nat
       then plot_3param tex_symbol list_of_set model stats (VDict root)
              aggregate out
       else ret tt) ;;
      ret markers.

End Script.

End Aggregate.

(** ** Sample data

    Stand-ins for the statistics whose source is missing (the aggregator
    only averages what they return), and small sets of experiments. *)

Module Sample.
Import Py Plt Store Aggregate.
Local Open Scope string_scope.

Definition first_coordinate (fr : list (list Q)) : Q := hd 0%Q (hd [] fr).

(** Exact on 0 and 1, the only values it meets here. *)
Definition sample_sqrt (x : Q) : Q := x.

Definition sample_space (X : ndarray3) (l : Q) (b : Plot.EnumBounds)
    : list (string * ndarray) :=
  [("cmass", map first_coordinate (entries X));
   ("std_dist_cmass", map first_coordinate (entries X))].

Definition sample_angles (A : list (list Q)) (v : Q) : list (string * ndarray) :=
  [("avg_abs_vel", map (fun a => v * hd 0 a)%Q A);
   ("std_angle", map (hd 0%Q) A)].

Definition sample_format (X : ndarray3) : ndarray3 := X.

Definition sample_psi (X : ndarray3) (cmass : ndarray) : ndarray := cmass.

Definition aggregate :=
  aggregate_model_stats sample_sqrt sample_space sample_angles sample_format sample_psi.

(** An experiment of 11 timepoints: one particle that rests at the
    origin and keeps the angle [a]; [rho = 1], [v = 1]. *)
Definition still (a eta : Q) (more : list (string * Q)) : FlockModel :=
  {| params := [("rho", 1%Q); ("eta", eta); ("v", 1%Q)] ++ more;
     traj_X := {| dim_n := 1; dim_d := 2; entries := repeat [[0%Q; 0%Q]] 11 |};
     traj_A := repeat [a] 11;
     bounds := Plot.PERIODIC |}.

(** Two experiments that differ in [r] only. *)
Definition r_varies : models_dict :=
  [("Vicsek_r1", still 2 (1 # 10) [("r", 1%Q)]);
   ("Vicsek_r2", still 4 (1 # 10) [("r", 2%Q)])].

(** An experiment and its first repeat. *)
Definition repeated : models_dict :=
  [("Vicsek", still 2 (1 # 10) []); ("Vicsek-1", still 4 (1 # 10) [])].

(** A repeat whose first run is not loaded. *)
Definition orphan : models_dict :=
  [("Vicsek-1", still 2 (1 # 10) [])].

(** Two experiments on an incomplete grid: [eta = 1] was run with
    [r = 1] only, [eta = 2] with [r = 2] only. *)
Definition incomplete_grid : models_dict :=
  [("Vicsek_a", still 2 1 [("r", 1%Q)]); ("Vicsek_b", still 4 2 [("r", 2%Q)])].

Definition four_numbers (a : Q) : list (key * value) :=
  [(KStr "avg_abs_vel", VFloat (Some a)); (KStr "std_angle", VFloat (Some a));
   (KStr "std_dist_cmass", VFloat (Some 0%Q)); (KStr "psi_cmass", VFloat (Some 0%Q))].

(** What the aggregation of [incomplete_grid] by [rho], [eta] and [r]
    returns. *)
Definition incomplete_grid_stats : list (list (key * value)) :=
  [ [(KNum 1, VDict 1)];
    [(KNum 1, VDict 2); (KNum 2, VDict 4)];
    [(KNum 1, VDict 3)];
    four_numbers 2;
    [(KNum 2, VDict 5)];
    four_numbers 4 ].

(** Stand-ins for [ang_to_vec] and [sum_vec_ang]: every particle heads
    east. *)
Definition east (a : Q) : Q * Q := (1%Q, 0%Q).
Definition no_sum (A V : list Q) : Q * Q := (0%Q, 0%Q).

(** A trajectory that crosses the periodic boundary of a world of size
    10 between its first two positions. *)
Definition crossing : list (Q * Q) := [(0, 0); (9, 0); (9, 1)]%Q.

Definition sample_average :=
  time_average sample_sqrt sample_space sample_angles sample_format sample_psi.

(** What the aggregation of [repeated] by [rho] and [eta] returns. *)
Definition repeated_stats : list (list (key * value)) :=
  [ [(KNum 1, VDict 1)];
    [(KNum (1 # 10), VDict 2)];
    [(KStr "avg_abs_vel", VFloat (Some (6 # 2)));
     (KStr "std_angle", VFloat (Some (6 # 2)));
     (KStr "std_dist_cmass", VFloat (Some (0 # 2)));
     (KStr "psi_cmass", VFloat (Some (0 # 2)))] ].

(** A stand-in for what mathtext can typeset: of the names that the
    samples are aggregated by, [rho] and [eta] are TeX symbols and [r]
    is not. *)
Definition greek (name : string) : bool := in_list name ["rho"; "eta"].

(** An experiment of 12 timepoints: one particle that rests at the
    origin, keeps the angle [a] and turns to the angle [b] at the last
    timepoint; [rho = 1], [v = 1].  Without the first 10 timepoints its
    angles are [a] and [b]. *)
Definition turning (a b eta : Q) (more : list (string * Q)) : FlockModel :=
  {| params := [("rho", 1%Q); ("eta", eta); ("v", 1%Q)] ++ more;
     traj_X := {| dim_n := 1; dim_d := 2; entries := repeat [[0%Q; 0%Q]] 12 |};
     traj_A := repeat [a] 11 ++ [[b]];
     bounds := Plot.PERIODIC |}.

(** Three experiments: the first two differ in [r] only, the third has
    another [eta]. *)
Definition three_runs : models_dict :=
  [("Vicsek_a", turning 1 3 (1 # 2) [("r", 1%Q)]);
   ("Vicsek_b", turning 3 5 (1 # 2) [("r", 2%Q)]);
   ("Vicsek_c", turning 4 6 (1 # 4) [("r", 1%Q)])].

(** What the aggregation of [three_runs] by [rho] and [eta] returns for
    the statistics [avg_abs_vel] and [std_angle]. *)
Definition three_runs_stats : list (list (key * value)) :=
  [ [(KNum 1, VDict 1)];
    [(KNum (1 # 2), VDict 2); (KNum (1 # 4), VDict 3)];
    [(KStr "avg_abs_vel", VFloat (Some (24 # 4)));
     (KStr "std_angle", VFloat (Some (24 # 4)))];
    [(KStr "avg_abs_vel", VFloat (Some (10 # 2)));
     (KStr "std_angle", VFloat (Some (10 # 2)))] ].

End Sample.

(** ** What is drawn and saved, and what the dictionaries hold

    Notions that the properties below are stated with. *)

Module Figures.
Import Py Plt.

(** The calls that put a drawing on the current axes. *)
Definition artist (c : plt_call) : bool :=
  match c with
  | Scatter _ _ _ _ _ | Quiver _ _ _ _ _ | Plot _ _ _
  | XLabel _ | YLabel _ | Title _ | Legend => true
  | _ => false
  end.

(** The calls that draw on the axes or change a setting: they neither
    save, show, close nor clear, and leave the super title alone. *)
Definition quiet (c : plt_call) : bool :=
  match c with
  | Suptitle _ | Show | Savefig _ | Close | Cla => false
  | _ => true
  end.

(** What [plt.savefig] writes: each file, with the surface as it is when
    the call is made. *)
Fixpoint saved_figures (blocking : bool) (s : surface) (w : list plt_call)
    : list (text * surface) :=
  match w with
  | [] => []
  | c :: w' =>
      match c with
      | Savefig file => [(file, s)]
      | _ => []
      end ++ saved_figures blocking (draw blocking s c) w'
  end.

(** A computation that, when it returns, has saved exactly one figure,
    to [file]: blank after a blocking [plt.show()], and otherwise what was
    on the axes before followed by the computation's own drawings, under
    the super title. *)
Definition saves_frame (file title : text) (show : bool) (m : run unit) : Prop :=
  result m = Returned tt ->
  forall blocking s,
    saved_figures blocking s (calls m) =
      [(file,
        if show && blocking then blank
        else {| on_axes := on_axes s ++ List.filter artist (calls m);
                on_figure := [Suptitle title] |})].

(** The files that a sequence of calls saves, in order. *)
Definition saved_files (w : list plt_call) : list text :=
  flat_map (fun c => match c with Savefig file => [file] | _ => [] end) w.

(** The curves that a sequence of calls plots, in order. *)
Definition curves (w : list plt_call) : list plt_call :=
  List.filter (fun c => match c with Plot _ _ _ => true | _ => false end) w.

End Figures.

Module Content.
Import Py Plt Store Aggregate.
Local Open Scope string_scope.

(** The number that a dictionary holds under a statistic name, if any. *)
Definition number_at (h : store) (a : addr) (stat : string) : option pyfloat :=
  match Dict.lookup key_eqb (read h a) (KStr stat) with
  | Some (VFloat x) => Some x
  | _ => None
  end.

(** [tmp[stat] += x] if there is a number already, [tmp[stat] = x]
    otherwise. *)
Definition added (old : option pyfloat) (x : pyfloat) : pyfloat :=
  match old with
  | Some y => fadd y x
  | None => x
  end.

(** What the loop over the experiments of a batch leaves under a
    statistic name, from what was there before and the time averages of
    the experiments, in order. *)
Definition accumulated (old : option pyfloat) (xs : list pyfloat) : option pyfloat :=
  fold_left (fun acc x => Some (added acc x)) xs old.

(** No dictionary of the store is referred to twice. *)
Definition tree (h : store) : Prop :=
  forall a1 a2 k1 k2 c,
    In (k1, VDict c) (read h a1) -> In (k2, VDict c) (read h a2) ->
    a1 = a2 /\ key_eqb k1 k2 = true.

(** What a loop that sets numbers in the dictionary at [a] keeps: the
    typing, the other dictionaries, the shape of the store, and what was
    there. *)
Definition same_but (names : list string) (a : addr) (D : list nat)
    (h h' : store) : Prop :=
  typed names D h' /\ (forall b, b <> a -> read h' b = read h b) /\
  (tree h -> tree h') /\ ext h h'.

(** Every dictionary that two parameter values lead to holds a number
    under each of the names. *)
Definition complete2 (names : list string) (h : store) : Prop :=
  forall k0 a1 k1 a2,
    In (k0, VDict a1) (read h root) -> In (k1, VDict a2) (read h a1) ->
    forall stat, In stat names -> has_number a2 stat h.

(** A complete grid: under a value of the first parameter, every value
    of the third parameter that occurs under some value of the second
    occurs under each of them, and leads to a dictionary that holds a
    number under each of the names. *)
Definition complete3 (names : list string) (h : store) : Prop :=
  forall k0 a1 k1 a2 k1' a2' k2 v,
    In (k0, VDict a1) (read h root) ->
    In (k1, VDict a2) (read h a1) -> In (k1', VDict a2') (read h a1) ->
    In (k2, v) (read h a2') ->
    exists a3,
      Dict.lookup key_eqb (read h a2) k2 = Some (VDict a3) /\
      forall stat, In stat names -> has_number a3 stat h.

(** The files that [plot_2param] and [plot_3param] save a figure to. *)
Definition file_2param (name path pa pb val : string) (p0 : key) : text :=
  [Str path; Str "/"; Str name; Str "_"; Str pa; piece_of_key p0; Str "_";
   Str pb; Str "_vs_"; Str val; Str ".png"].

Definition file_3param (name path pa pb pc val : string) (p0 : key) : text :=
  [Str path; Str "/"; Str name; Str "_"; Str pa; piece_of_key p0; Str "_";
   Str pb; Str "_"; Str pc; Str "_vs_"; Str val; Str ".png"].

End Content.

(** ** More sample data *)

Module Grid.
Import Py Plt Store Aggregate Sample.
Local Open Scope string_scope.

(** What the aggregation of [r_varies] by [rho], [eta] and [r] returns:
    a complete grid. *)
Definition r_varies_stats : list (list (key * value)) :=
  [ [(KNum 1, VDict 1)];
    [(KNum (1 # 10), VDict 2)];
    [(KNum 1, VDict 3); (KNum 2, VDict 4)];
    four_numbers 2;
    four_numbers 4 ].

(** One particle at (1, 2), one frame. *)
Definition one_frame : Plot.traj3 :=
  {| Plot.shape_N := 1; Plot.frames := [[(1, 2)%Q]] |}.

(** [repeated] and one more experiment, with another [eta]. *)
Definition with_other : models_dict :=
  (repeated ++ [("Other", still 5 (1 # 2) [])])%list.

(** What the aggregation of [with_other] by [rho] and [eta] returns. *)
Definition with_other_stats : list (list (key * value)) :=
  [ [(KNum 1, VDict 1)];
    [(KNum (1 # 2), VDict 2); (KNum (1 # 10), VDict 3)];
    four_numbers 5;
    [(KStr "avg_abs_vel", VFloat (Some (6 # 2)));
     (KStr "std_angle", VFloat (Some (6 # 2)));
     (KStr "std_dist_cmass", VFloat (Some (0 # 2)));
     (KStr "psi_cmass", VFloat (Some (0 # 2)))] ].

(** Directory listings that find [repeated], [r_varies], or nothing. *)
Definition found_repeated (path model : string) : models_dict := repeated.
Definition found_r_varies (path model : string) : models_dict := r_varies.
Definition found_nothing (path model : string) : models_dict := [].

End Grid.

(** * Properties *)

(** ** util/plot.py *)

Module PlotFacts.
Import Py Plt Plot.
Local Open Scope Q_scope.

Lemma Qltb_true (x y : Q) : Qltb x y = true <-> x < y.
Proof.
  unfold Qltb. rewrite negb_true_iff. split.
  - intros H. apply Qnot_le_lt. intros Hle.
    apply Qle_bool_iff in Hle. congruence.
  - intros H. destruct (Qle_bool y x) eqn:E; [|reflexivity].
    apply Qle_bool_iff in E. apply Qlt_not_le in H. contradiction.
Qed.

Lemma Qltb_false (x y : Q) : Qltb x y = false <-> y <= x.
Proof.
  unfold Qltb. rewrite negb_false_iff. apply Qle_bool_iff.
Qed.

Lemma np_pi_pos : 0 < np_pi.
Proof. reflexivity. Qed.

Lemma fade_alpha_range (p : Q) :
  - np_pi <= p -> p <= 2 * np_pi -> 0 <= fade_alpha p /\ fade_alpha p <= 1.
Proof.
  intros Hlo Hhi. pose proof np_pi_pos as Hpi. unfold fade_alpha.
  destruct (Qltb np_pi p) eqn:E1.
  - apply Qltb_true in E1. split.
    + apply Qle_shift_div_l; [exact Hpi | lra].
    + apply Qle_shift_div_r; [exact Hpi | lra].
  - apply Qltb_false in E1. destruct (Qltb p 0) eqn:E2.
    + apply Qltb_true in E2.
      assert (Ha : Qabs p == - p) by (apply Qabs_neg; lra).
      split.
      * apply Qle_shift_div_l; [exact Hpi | rewrite Ha; lra].
      * apply Qle_shift_div_r; [exact Hpi | rewrite Ha; lra].
    + apply Qltb_false in E2. split.
      * apply Qle_shift_div_l; [exact Hpi | lra].
      * apply Qle_shift_div_r; [exact Hpi | lra].
Qed.

Lemma valid_alpha_iff (a : Q) : valid_alpha (Some a) = true <-> 0 <= a /\ a <= 1.
Proof.
  simpl. rewrite andb_true_iff, !Qle_bool_iff. reflexivity.
Qed.

Lemma plot_oscillator_fade (X : Q * Q) (p f dt : Q) (col1 col2 : string) :
  - np_pi <= p -> p <= 2 * np_pi ->
  plot_oscillator X p f dt false col1 col2 =
    ([Scatter (fst X) (snd X) col1 "o" (Some (fade_alpha p));
      Scatter (fst X) (snd X) col2 "." None], Returned tt).
Proof.
  intros Hlo Hhi. pose proof (fade_alpha_range p Hlo Hhi) as Hr.
  destruct X as [x y]. unfold plot_oscillator, plt_scatter.
  rewrite (proj2 (valid_alpha_iff (fade_alpha p)) Hr).
  reflexivity.
Qed.

(** C10.  In fade mode, for a phase [p] between [-pi] and [2 pi], the
    brightness that [plot_oscillator] computes lies between 0 and 1; it is
    0 at phase 0 and 1 at phase [pi]; so [plt.scatter] accepts it as an
    opacity and both markers are drawn. *)
Theorem plot_oscillator_fade_opacity (X : Q * Q) (p f dt : Q) (col1 col2 : string) :
  - np_pi <= p -> p <= 2 * np_pi ->
  (0 <= fade_alpha p /\ fade_alpha p <= 1) /\
  fade_alpha 0 == 0 /\
  fade_alpha np_pi == 1 /\
  plot_oscillator X p f dt false col1 col2 =
    ([Scatter (fst X) (snd X) col1 "o" (Some (fade_alpha p));
      Scatter (fst X) (snd X) col2 "." None], Returned tt).
Proof.
  intros Hlo Hhi.
  split; [apply fade_alpha_range; assumption|].
  split; [reflexivity|]. split; [reflexivity|].
  apply plot_oscillator_fade; assumption.
Qed.

Lemma lookup_map {A B} (f : A -> B) (l : list A) (i : nat) :
  map f l !! i = option_map f (l !! i).
Proof.
  revert i. induction l as [|a l IH]; intros [|i]; simpl; auto.
Qed.

Lemma length_np_diff (xs : list Q) : S (length (np_diff xs)) = length xs \/ xs = [].
Proof.
  induction xs as [|x tl IH]; auto.
  destruct tl as [|y tl]; auto.
  left. destruct IH as [IH|IH]; [|discriminate].
  change (np_diff (x :: y :: tl)) with ((y - x) :: np_diff (y :: tl)).
  simpl length in *. lia.
Qed.

Lemma length_jump_mask (l : Q) (xs : list Q) :
  xs <> [] -> length (jump_mask l xs) = length xs.
Proof.
  intros Hne. unfold jump_mask.
  rewrite length_app, length_map. simpl.
  destruct (length_np_diff xs) as [H|H]; [lia | contradiction].
Qed.


(** An entry that the jump mask leaves visible is a position whose
    successor, if any, is nearer than [l - 1]. *)
Lemma visible_entry (l : Q) (data : list Q) (i : nat) (x : Q) :
  map unmask (combine data (jump_mask l data)) !! i = Some (Number x) ->
  data !! i = Some x /\
  forall x', data !! S i = Some x' -> Qabs (x' - x) < l - 1.
Proof.
  revert i. induction data as [|x0 tl IH]; intros i H.
  { destruct i; discriminate. }
  destruct tl as [|y tl].
  - destruct i as [|i]; [|destruct i; discriminate].
    simpl in H. unfold unmask in H. simpl in H. assert (x = x0) as -> by congruence.
    split; [reflexivity|]. intros x' Hx'. discriminate.
  - change (jump_mask l (x0 :: y :: tl))
      with (Qle_bool (l - 1) (Qabs (y - x0)) :: jump_mask l (y :: tl)) in H.
    destruct (Qle_bool (l - 1) (Qabs (y - x0))) eqn:E;
      (destruct i as [|i]; [|apply (IH i H)]).
    + discriminate H.
    + simpl in H. unfold unmask in H. simpl in H.
      assert (x = x0) as -> by congruence. split; [reflexivity|].
      intros x' Hx'. assert (x' = y) as -> by (simpl in Hx'; congruence).
      apply Qltb_true. unfold Qltb. rewrite E. reflexivity.
Qed.

Lemma point_at_visible (l : Q) (W : list (Q * Q)) (i : nat) (p : Q * Q) :
  point_at (map unmask (combine (map fst W) (jump_mask l (map fst W))))
           (map unmask (combine (map snd W) (jump_mask l (map snd W)))) i = Some p ->
  W !! i = Some p /\
  forall q, W !! S i = Some q ->
    Qabs (fst q - fst p) < l - 1 /\ Qabs (snd q - snd p) < l - 1.
Proof.
  unfold point_at. intros H.
  destruct (_ !! i) as [[x| |]|] eqn:Ex in H; try discriminate.
  destruct (_ !! i) as [[y| |]|] eqn:Ey in H; try discriminate.
  injection H as <-.
  apply visible_entry in Ex. apply visible_entry in Ey.
  destruct Ex as [Ex Jx], Ey as [Ey Jy].
  rewrite lookup_map in Ex, Ey.
  destruct (W !! i) as [[a b]|] eqn:Ew; [|discriminate].
  simpl in Ex, Ey. assert (a = x) as -> by congruence.
  assert (b = y) as -> by congruence.
  split; [reflexivity|]. intros [c d] Hq. simpl. split.
  - apply Jx. rewrite lookup_map, Hq. reflexivity.
  - apply Jy. rewrite lookup_map, Hq. reflexivity.
Qed.

(** C9.  [plot_trajectory] issues nothing but one [plt.plot]; every line
    segment of it joins two consecutive positions of the plotted part of
    the trajectory, and these differ by less than [l - 1] along both
    axes: a step of [l - 1] or more along either axis is never drawn.
    At [t = 0] nothing is issued at all. *)
Theorem plot_trajectory_masks_jumps
    (t : nat) (Xt : list (Q * Q)) (l : Q) (col : string) (dt : nat) :
  (forall c, In c (calls (plot_trajectory t Xt l col dt)) ->
     exists xs ys kw, c = Plot xs ys kw /\
       forall i p q,
         point_at xs ys i = Some p -> point_at xs ys (S i) = Some q ->
         window t dt Xt !! i = Some p /\ window t dt Xt !! S i = Some q /\
         Qabs (fst q - fst p) < l - 1 /\ Qabs (snd q - snd p) < l - 1) /\
  (forall i p q,
     window t dt Xt !! i = Some p -> window t dt Xt !! S i = Some q ->
     l - 1 <= Qabs (fst q - fst p) \/ l - 1 <= Qabs (snd q - snd p) ->
     forall xs ys kw, In (Plot xs ys kw) (calls (plot_trajectory t Xt l col dt)) ->
       segment_drawn xs ys i = false) /\
  plot_trajectory 0 Xt l col dt = ([], Returned tt).
Proof.
  assert (Hmain : forall c, In c (calls (plot_trajectory t Xt l col dt)) ->
     exists xs ys kw, c = Plot xs ys kw /\
       forall i p q,
         point_at xs ys i = Some p -> point_at xs ys (S i) = Some q ->
         window t dt Xt !! i = Some p /\ window t dt Xt !! S i = Some q /\
         Qabs (fst q - fst p) < l - 1 /\ Qabs (snd q - snd p) < l - 1).
  { unfold plot_trajectory. set (W := window t dt Xt).
    destruct (0 <? t)%nat; [|intros c []].
    unfold masked_array.
    destruct (length (map fst W) =? length (jump_mask l (map fst W)))%nat;
      [|intros c []].
    destruct (length (map snd W) =? length (jump_mask l (map snd W)))%nat;
      [|intros c []].
    unfold plt_plot, bind, ret, call, raise, calls. simpl.
    match goal with |- context [if ?b then _ else _] => destruct b end;
      simpl; [|intros c []].
    intros c [<-|[]]. do 3 eexists. split; [reflexivity|].
    intros i p q Hp Hq.
    pose proof (point_at_visible l W i p Hp) as [Hwp Hj].
    pose proof (point_at_visible l W (S i) q Hq) as [Hwq _].
    split; [exact Hwp|]. split; [exact Hwq|]. apply Hj, Hwq. }
  split; [exact Hmain|]. split; [|reflexivity].
  intros i p q Hp Hq Hjump xs ys kw Hin.
  destruct (Hmain _ Hin) as (xs' & ys' & kw' & Heq & Hseg).
  injection Heq as -> -> ->.
  unfold segment_drawn.
  destruct (point_at xs' ys' i) as [p'|] eqn:E1; [|reflexivity].
  destruct (point_at xs' ys' (S i)) as [q'|] eqn:E2; [|reflexivity].
  destruct (Hseg i p' q' E1 E2) as (Hp' & Hq' & Hx & Hy).
  assert (p' = p) as -> by congruence. assert (q' = q) as -> by congruence.
  exfalso. destruct Hjump as [Hj|Hj];
    [apply (Qlt_not_le _ _ Hx Hj) | apply (Qlt_not_le _ _ Hy Hj)].
Qed.

(** *** How computations over pyplot compose *)

Lemma result_bind {A B} (m : run A) (k : A -> run B) :
  result (bind m k) =
  match result m with
  | Returned a => result (k a)
  | Raised e => Raised e
  end.
Proof.
  destruct m as [w [a|e]]; simpl; [|reflexivity].
  destruct (k a); reflexivity.
Qed.

Lemma calls_bind {A B} (m : run A) (k : A -> run B) :
  calls (bind m k) =
  calls m ++ match result m with
             | Returned a => calls (k a)
             | Raised _ => []
             end.
Proof.
  destruct m as [w [a|e]]; simpl.
  - destruct (k a); reflexivity.
  - symmetry. apply app_nil_r.
Qed.

Lemma run_eta {A} (m : run A) : m = (calls m, result m).
Proof. destruct m; reflexivity. Qed.

Lemma for_each_returns {A} (xs : list A) (body : A -> run unit) :
  (forall x, In x xs -> result (body x) = Returned tt) ->
  result (for_each xs body) = Returned tt.
Proof.
  induction xs as [|x xs IH]; intros H; [reflexivity|].
  simpl for_each. rewrite result_bind, H by (left; reflexivity).
  apply IH. intros y Hy. apply H. right. exact Hy.
Qed.

Lemma index_returns {A} (xs : list A) (i : nat) :
  (i < length xs)%nat -> exists x, xs !! i = Some x /\ index xs i = ([], Returned x).
Proof.
  intros H. destruct (xs !! i) as [x|] eqn:E.
  - exists x. split; [reflexivity|]. unfold index. rewrite E. reflexivity.
  - apply lookup_ge_None in E. lia.
Qed.

Lemma surface_after_app (blocking : bool) (s : surface) (w1 w2 : list plt_call) :
  surface_after blocking s (w1 ++ w2) =
  surface_after blocking (surface_after blocking s w1) w2.
Proof. apply fold_left_app. Qed.

(** *** plot_state never completes *)

Section WithGeometry.
Variable ang_to_vec : Q -> Q * Q.
Variable sum_vec_ang : list Q -> list Q -> Q * Q.
Variable centre_of_mass : list (Q * Q) -> Q -> EnumBounds -> Q * Q.

Lemma prepare_state_plot_returns (l : Q) :
  result (prepare_state_plot l) = Returned tt.
Proof.
  unfold prepare_state_plot. destruct (Qltb l 20); reflexivity.
Qed.

Lemma plot_state_unbound (t : nat) (X : list (Q * Q)) (A : list Q) (v l : Q)
    (title subtitle path : string) (save show : bool) :
  plot_state ang_to_vec sum_vec_ang None None t X A v l title subtitle path save show =
    (calls (prepare_state_plot l),
     Raised match X, A with
            | [], _ => NameError "sumvec"
            | _ :: _, [] => IndexError
            | _ :: _, _ :: _ => NameError "V"
            end).
Proof.
  rewrite (run_eta (plot_state _ _ _ _ _ _ _ _ _ _ _ _ _ _)).
  unfold plot_state.
  rewrite calls_bind, result_bind, prepare_state_plot_returns.
  destruct X as [|x X]; [simpl; rewrite app_nil_r; reflexivity|].
  destruct A as [|a A]; simpl; rewrite app_nil_r; reflexivity.
Qed.

(** C2.  With [V] and [sumvec] unbound, [plot_state] raises on every
    input, after setting up the axes and before drawing anything:
    [NameError] on arrays of the documented shapes. *)
Theorem plot_state_raises (t : nat) (X : list (Q * Q)) (A : list Q) (v l : Q)
    (title subtitle path : string) (save show : bool) :
  plot_state ang_to_vec sum_vec_ang None None t X A v l title subtitle path save show =
    (calls (prepare_state_plot l),
     Raised match X, A with
            | [], _ => NameError "sumvec"
            | _ :: _, [] => IndexError
            | _ :: _, _ :: _ => NameError "V"
            end).
Proof. apply plot_state_unbound. Qed.

Lemma bind_ret_l {A B} (a : A) (k : A -> run B) : bind ([], Returned a) k = k a.
Proof. simpl. destruct (k a); reflexivity. Qed.

Lemma finish_frame_returns (labels : run unit) (file : text) (save show : bool) :
  result labels = Returned tt ->
  result (finish_frame labels file save show) = Returned tt.
Proof.
  intros H. unfold finish_frame.
  rewrite result_bind, H. destruct show, save; reflexivity.
Qed.

Lemma finish_frame_calls_cla (labels : run unit) (file : text) (save show : bool) :
  result labels = Returned tt ->
  In Cla (calls (finish_frame labels file save show)).
Proof.
  intros H. unfold finish_frame. rewrite calls_bind, H.
  apply in_or_app. right. destruct show, save; simpl; tauto.
Qed.

Lemma vectors_loop_returns (X : list (Q * Q)) (A V : list Q) :
  length A = length X -> length V = length X ->
  result (for_each (seq 0 (length X)) (fun i =>
            bind (index X i) (fun Xi =>
            bind (index A i) (fun Ai =>
            bind (index V i) (fun Vi =>
            plot_vector_ang ang_to_vec Xi Ai Vi "w"))))) = Returned tt.
Proof.
  intros HA HV. apply for_each_returns. intros i Hi.
  apply in_seq in Hi.
  destruct (index_returns X i) as (x & _ & ->); [lia|].
  destruct (index_returns A i) as (a & _ & ->); [lia|].
  destruct (index_returns V i) as (w & _ & ->); [lia|].
  rewrite !bind_ret_l. destruct x. reflexivity.
Qed.

(** C7.  On arrays of the documented shapes and with the sum vector
    off, [plot_state_vectors] draws and completes, whereas
    [plot_state], given the same frame, raises once the axes are set
    up: the two do not perform the same sequence of operations. *)
Theorem plot_state_stops_where_vectors_draws
    (t : nat) (X : list (Q * Q)) (A V : list Q) (v l : Q)
    (title subtitle path : string) (save show : bool) :
  length A = length X -> length V = length X ->
  result (plot_state_vectors ang_to_vec sum_vec_ang
            t X A V l title subtitle path false save show) = Returned tt /\
  (exists e, result (plot_state ang_to_vec sum_vec_ang None None
                       t X A v l title subtitle path save show) = Raised e) /\
  calls (plot_state ang_to_vec sum_vec_ang None None
           t X A v l title subtitle path save show) = calls (prepare_state_plot l) /\
  exists more,
    calls (plot_state_vectors ang_to_vec sum_vec_ang
             t X A V l title subtitle path false save show)
    = calls (prepare_state_plot l) ++ more /\ In Cla more.
Proof.
  intros HA HV. rewrite plot_state_unbound. unfold plot_state_vectors.
  rewrite !result_bind, !calls_bind, prepare_state_plot_returns.
  rewrite (vectors_loop_returns X A V HA HV).
  cbn [result calls ret snd fst].
  split; [apply finish_frame_returns; reflexivity|].
  split; [eexists; reflexivity|]. split; [reflexivity|].
  eexists. split; [reflexivity|].
  apply in_or_app. right.
  apply finish_frame_calls_cla. reflexivity.
Qed.

(** *** The functions that do complete *)

Lemma plot_trajectory_returns (t : nat) (Xt : list (Q * Q)) (l : Q)
    (col : string) (dt : nat) :
  t = 0%nat \/ window t dt Xt <> [] ->
  result (plot_trajectory t Xt l col dt) = Returned tt.
Proof.
  intros H. unfold plot_trajectory.
  destruct (Nat.ltb_spec 0 t) as [Hpos|]; [|reflexivity].
  destruct H as [->|Hne]; [lia|].
  set (W := window t dt Xt) in *.
  assert (Hx : map fst W <> []) by (destruct W; [congruence | discriminate]).
  assert (Hy : map snd W <> []) by (destruct W; [congruence | discriminate]).
  unfold masked_array.
  rewrite (length_jump_mask l _ Hx), (length_jump_mask l _ Hy), !Nat.eqb_refl.
  unfold ret. rewrite !bind_ret_l. unfold plt_plot.
  rewrite !length_map, !length_combine, (length_jump_mask l _ Hx),
    (length_jump_mask l _ Hy), !length_map, !Nat.min_id, Nat.eqb_refl.
  cbn [kw_alpha andb]. destruct (String.eqb col "grey"); reflexivity.
Qed.


Lemma plot_state_vectors_returns (t : nat) (X : list (Q * Q)) (A V : list Q) (l : Q)
    (title subtitle path : string) (sumvec save show : bool) :
  length A = length X -> length V = length X ->
  result (plot_state_vectors ang_to_vec sum_vec_ang
            t X A V l title subtitle path sumvec save show) = Returned tt.
Proof.
  intros HA HV. unfold plot_state_vectors.
  rewrite !result_bind, prepare_state_plot_returns.
  rewrite (vectors_loop_returns X A V HA HV).
  destruct sumvec; cbn [result ret snd plot_sum_vector plt_plot length Nat.eqb
                         kw_alpha valid_alpha andb call];
    apply finish_frame_returns; reflexivity.
Qed.


Lemma column_length (Xt : traj3) (i : nat) : length (column Xt i) = length (frames Xt).
Proof. apply length_map. Qed.


Lemma plot_trajectories_returns (X : traj3) (M : list (Q * Q)) (l : Q)
    (name title suptitle path : string) (save show : bool) :
  length M = length (frames X) ->
  result (plot_trajectories X M l name title suptitle path save show) = Returned tt.
Proof.
  intros HM. unfold plot_trajectories.
  assert (Hw : forall W : list (Q * Q), length W = length (frames X) ->
            result (plot_trajectory (length (frames X)) W l "grey" (length (frames X)))
              = Returned tt /\
            result (plot_trajectory (length (frames X)) W l "r" (length (frames X)))
              = Returned tt).
  { intros W HW.
    assert (H : length (frames X) = 0%nat \/
                window (length (frames X)) (length (frames X)) W <> []).
    { destruct (frames X) as [|fr frs] eqn:E; [left; reflexivity|right].
      intros Hw. apply (f_equal (@length _)) in Hw. revert Hw.
      unfold window, slice. rewrite Nat.ltb_irrefl, length_skipn, length_firstn.
      cbn [length] in *. lia. }
    split; apply plot_trajectory_returns, H. }
  rewrite !result_bind. cbn [result call snd].
  rewrite for_each_returns by (intros i _; apply Hw, column_length).
  rewrite (proj2 (Hw M HM)).
  apply finish_frame_returns. reflexivity.
Qed.

(** *** What a frame leaves on the surface *)

Lemma clears_bind {A} (save : bool) (m : run A) (k : A -> run unit) :
  (forall a, clears save (k a)) -> clears save (bind m k).
Proof.
  intros Hk blocking s. rewrite result_bind, calls_bind.
  destruct (result m) as [a|e]; [|discriminate].
  intros Hr. rewrite surface_after_app. apply Hk, Hr.
Qed.

Lemma clears_finish_frame (labels : run unit) (file : text) (save show : bool) :
  clears save (finish_frame labels file save show).
Proof.
  unfold finish_frame. apply clears_bind. intros _.
  apply clears_bind. intros _. intros blocking s _.
  destruct save; simpl; split; auto; discriminate.
Qed.

(** C8, as amended.  Each frame-producing function that returns has
    cleared the current axes: whatever was on the surface before, no
    artist, label, title or legend is left on the axes; and when
    [save] is set the figure was closed as well, so the surface is
    blank. *)
Theorem frames_clear_the_axes
    (gV : option (list Q)) (gsumvec : option bool)
    (t : nat) (X : list (Q * Q)) (A V F P : list Q) (v l dt : Q)
    (Xt : traj3) (M : list (Q * Q)) (topology : EnumBounds)
    (name title subtitle path : string) (sumvec cmass save show : bool) :
  clears save (plot_state ang_to_vec sum_vec_ang gV gsumvec
                 t X A v l title subtitle path save show) /\
  clears save (plot_state_vectors ang_to_vec sum_vec_ang
                 t X A V l title subtitle path sumvec save show) /\
  clears save (plot_state_particles_trajectories centre_of_mass
                 t Xt l topology title subtitle path cmass save show) /\
  clears save (plot_state_oscillators t X F P dt l title subtitle path save show) /\
  clears save (plot_trajectories Xt M l name title subtitle path save show).
Proof.
  repeat apply conj;
    unfold plot_state, plot_state_vectors, plot_state_particles_trajectories,
      plot_state_oscillators, plot_trajectories;
    repeat lazymatch goal with
           | |- clears _ (finish_frame _ _ _ _) => fail
           | |- clears _ _ => apply clears_bind; intros ?
           end;
    apply clears_finish_frame.
Qed.
End WithGeometry.
End PlotFacts.

Module PlotCases.
Import Py Plt Plot Sample PlotFacts.
Local Open Scope string_scope.
Local Open Scope Q_scope.

Lemma plot_oscillator_fade_opacity_witness :
  (- np_pi <= 3 # 2 /\ 3 # 2 <= 2 * np_pi) /\
  (0 <= fade_alpha (3 # 2) /\ fade_alpha (3 # 2) <= 1) /\
  fade_alpha 0 == 0 /\
  fade_alpha np_pi == 1 /\
  plot_oscillator (1, 2) (3 # 2) 1 1 false "y" "g" =
    ([Scatter 1 2 "y" "o" (Some (fade_alpha (3 # 2)));
      Scatter 1 2 "g" "." None], Returned tt).
Proof.
  assert (Hlo : - np_pi <= 3 # 2) by (vm_compute; discriminate).
  assert (Hhi : 3 # 2 <= 2 * np_pi) by (vm_compute; discriminate).
  split; [split; assumption|].
  exact (plot_oscillator_fade_opacity (1, 2) (3 # 2) 1 1 "y" "g" Hlo Hhi).
Defined.

Lemma plot_trajectory_masks_jumps_witness :
  plot_trajectory 2 crossing 10 "grey" 20 =
    ([Plot [Missing; Number 9; Number 9] [Number 0; Number 0; Number 1]
        {| kw_color := Named "grey"; kw_linestyle := None; kw_marker := None;
           kw_label := None; kw_alpha := Some (3 # 10); kw_linewidth := None |}],
     Returned tt) /\
  segment_drawn [Missing; Number 9; Number 9] [Number 0; Number 0; Number 1] 0 = false.
Proof.
  split; [reflexivity|].
  refine (proj1 (proj2 (plot_trajectory_masks_jumps 2 crossing 10 "grey" 20))
            0%nat (0, 0) (9, 0) _ _ _ _ _ _ _).
  - reflexivity.
  - reflexivity.
  - left. vm_compute. discriminate.
  - left. reflexivity.
Defined.

Lemma plot_state_stops_where_vectors_draws_witness :
  (length [0] = length [(1, 2)] /\ length [1] = length [(1, 2)]) /\
  result (plot_state_vectors east no_sum 0 [(1, 2)] [0] [1] 10
            "title" "subtitle" "out" false true false) = Returned tt /\
  (exists e, result (plot_state east no_sum None None 0 [(1, 2)] [0] 1 10
                       "title" "subtitle" "out" true false) = Raised e).
Proof.
  split; [split; reflexivity|].
  pose proof (plot_state_stops_where_vectors_draws east no_sum
                0 [(1, 2)] [0] [1] 1 10 "title" "subtitle" "out" true false
                eq_refl eq_refl) as (H1 & H2 & _).
  split; [exact H1 | exact H2].
Defined.

(** C8, counterexample.  A frame of one oscillator, neither saved nor
    shown: the function returns, and its super title is still on the
    figure, whatever the backend. *)
Lemma super_title_survives :
  result (plot_state_oscillators 0 [(1, 1)] [1] [0] 1 10
            "title" "subtitle" "out" false false) = Returned tt /\
  (forall blocking,
     surface_after blocking blank
       (calls (plot_state_oscillators 0 [(1, 1)] [1] [0] 1 10
                 "title" "subtitle" "out" false false))
     = {| on_axes := []; on_figure := [Suptitle [Str "title"]] |}) /\
  ~ leaves_nothing (plot_state_oscillators 0 [(1, 1)] [1] [0] 1 10
                      "title" "subtitle" "out" false false).
Proof.
  split; [reflexivity|]. split; [intros []; reflexivity|].
  intros H. discriminate (H false blank eq_refl).
Qed.

Lemma frames_clear_the_axes_witness :
  result (plot_state_oscillators 0 [(1, 1)] [1] [0] 1 10
            "title" "subtitle" "out" false true) = Returned tt /\
  on_axes (surface_after false blank
             (calls (plot_state_oscillators 0 [(1, 1)] [1] [0] 1 10
                       "title" "subtitle" "out" false true))) = [].
Proof.
  split; [reflexivity|].
  pose proof (frames_clear_the_axes east no_sum (fun _ _ _ => (0, 0)) None None
                0 [(1, 1)] [] [] [1] [0] 0 10 1
                {| shape_N := 0; frames := [] |} [] PERIODIC
                "name" "title" "subtitle" "out" false false false true)
    as (_ & _ & _ & H & _).
  exact (proj1 (H false blank eq_refl)).
Defined.
End PlotCases.

(** ** The store of dictionaries *)

Module StoreFacts.
Import Py Store.

Lemma Qeq_bool_sym (p q : Q) : Qeq_bool p q = Qeq_bool q p.
Proof.
  destruct (Qeq_bool p q) eqn:E1, (Qeq_bool q p) eqn:E2; try reflexivity.
  - apply Qeq_bool_iff in E1. symmetry in E1. apply Qeq_bool_iff in E1. congruence.
  - apply Qeq_bool_iff in E2. symmetry in E2. apply Qeq_bool_iff in E2. congruence.
Qed.

Lemma key_eqb_refl (k : key) : key_eqb k k = true.
Proof.
  destruct k; simpl; [apply Qeq_bool_iff; reflexivity | apply String.eqb_refl].
Qed.

Lemma key_eqb_sym (k1 k2 : key) : key_eqb k1 k2 = key_eqb k2 k1.
Proof.
  destruct k1, k2; simpl; try reflexivity;
    [apply Qeq_bool_sym | apply String.eqb_sym].
Qed.

Lemma key_eqb_trans (k1 k2 k3 : key) :
  key_eqb k1 k2 = true -> key_eqb k2 k3 = true -> key_eqb k1 k3 = true.
Proof.
  destruct k1, k2, k3; simpl; try discriminate.
  - rewrite !Qeq_bool_iff. intros H1 H2. rewrite H1. exact H2.
  - rewrite !String.eqb_eq. congruence.
Qed.

(** Two keys that are equal for Python look up the same. *)
Lemma key_eqb_left (k k1 k2 : key) :
  key_eqb k1 k2 = true -> key_eqb k k1 = key_eqb k k2.
Proof.
  intros H. destruct (key_eqb k k1) eqn:E1, (key_eqb k k2) eqn:E2; try reflexivity.
  - rewrite (key_eqb_trans _ _ _ E1 H) in E2. discriminate.
  - rewrite key_eqb_sym in H. rewrite (key_eqb_trans _ _ _ E2 H) in E1. discriminate.
Qed.

Lemma key_eqb_right (k k1 k2 : key) :
  key_eqb k1 k2 = true -> key_eqb k1 k = key_eqb k2 k.
Proof.
  intros H. rewrite (key_eqb_sym k1 k), (key_eqb_sym k2 k).
  apply key_eqb_left, H.
Qed.

Lemma lookup_key_eqb (d : pydict) (k1 k2 : key) :
  key_eqb k1 k2 = true ->
  Dict.lookup key_eqb d k1 = Dict.lookup key_eqb d k2.
Proof.
  intros H. induction d as [|[k v] d IH]; [reflexivity|].
  simpl. rewrite (key_eqb_left k k1 k2 H), IH. reflexivity.
Qed.

Lemma lookup_In (d : pydict) (k : key) (v : value) :
  Dict.lookup key_eqb d k = Some v ->
  exists k0, In (k0, v) d /\ key_eqb k0 k = true.
Proof.
  induction d as [|[k0 v0] d IH]; [discriminate|]. simpl.
  destruct (key_eqb k0 k) eqn:E.
  - intros [= ->]. exists k0. auto.
  - intros H. destruct (IH H) as (k1 & Hin & Hk). exists k1. auto.
Qed.

Lemma lookup_set_item (d : pydict) (k k' : key) (v : value) :
  Dict.lookup key_eqb (Dict.set_item key_eqb d k v) k' =
  if key_eqb k k' then Some v else Dict.lookup key_eqb d k'.
Proof.
  induction d as [|[k0 v0] d IH]; [reflexivity|].
  simpl. destruct (key_eqb k0 k) eqn:E0; simpl.
  - rewrite (key_eqb_right k' k0 k E0).
    destruct (key_eqb k k'); reflexivity.
  - rewrite IH. destruct (key_eqb k0 k') eqn:E1; [|reflexivity].
    destruct (key_eqb k k') eqn:E2; [|reflexivity].
    rewrite (key_eqb_sym k k') in E2.
    rewrite (key_eqb_trans _ _ _ E1 E2) in E0. discriminate.
Qed.

Lemma In_set_item (d : pydict) (k : key) (v : value) (k' : key) (v' : value) :
  In (k', v') (Dict.set_item key_eqb d k v) ->
  In (k', v') d \/ (v' = v /\ key_eqb k' k = true).
Proof.
  induction d as [|[k0 v0] d IH]; simpl.
  - intros [[= <- <-]|[]]. right. split; [reflexivity | apply key_eqb_refl].
  - destruct (key_eqb k0 k) eqn:E0; simpl.
    + intros [[= <- <-]|H]; auto.
    + intros [H|H]; auto. destruct (IH H) as [?|?]; auto.
Qed.

(** *** Reading and writing the store *)

Lemma read_write_eq (h : store) (a : addr) (d : pydict) :
  (a < length h)%nat -> read (write h a d) a = d.
Proof.
  intros H. unfold read, write. rewrite list_lookup_insert_eq by exact H. reflexivity.
Qed.

Lemma read_write_ne (h : store) (a b : addr) (d : pydict) :
  a <> b -> read (write h a d) b = read h b.
Proof.
  intros H. unfold read, write. rewrite list_lookup_insert_ne by exact H. reflexivity.
Qed.

Lemma length_write (h : store) (a : addr) (d : pydict) :
  length (write h a d) = length h.
Proof. apply length_insert. Qed.

Lemma read_alloc (h : store) (a : addr) : read (h ++ [[]]) a = read h a.
Proof.
  unfold read. destruct (decide (a < length h)%nat) as [H|H].
  - rewrite lookup_app_l by exact H. reflexivity.
  - rewrite (lookup_ge_None_2 h a) by lia.
    destruct (decide (a = length h)) as [->|Hne].
    + rewrite lookup_app_r by lia. rewrite Nat.sub_diag. reflexivity.
    + rewrite lookup_ge_None_2; [reflexivity|]. rewrite length_app. simpl. lia.
Qed.

Lemma read_out_of_range (h : store) (a : addr) :
  (length h <= a)%nat -> read h a = [].
Proof. intros H. unfold read. rewrite lookup_ge_None_2 by exact H. reflexivity. Qed.

(** *** Growth *)

Lemma ext_refl (h : store) : ext h h.
Proof.
  intros a k. destruct (Dict.lookup key_eqb (read h a) k) as [[x|a']|]; eauto.
Qed.

Lemma ext_trans (h1 h2 h3 : store) : ext h1 h2 -> ext h2 h3 -> ext h1 h3.
Proof.
  intros H12 H23 a k. specialize (H12 a k). specialize (H23 a k).
  destruct (Dict.lookup key_eqb (read h1 a) k) as [[x|a']|]; [| |exact I].
  - destruct H12 as [x' H12]. rewrite H12 in H23. exact H23.
  - rewrite H12 in H23. exact H23.
Qed.

Lemma follow_ext (h h' : store) (ks : list key) (a b : addr) :
  ext h h' -> follow h a ks = Some b -> follow h' a ks = Some b.
Proof.
  intros He. revert a. induction ks as [|k ks IH]; intros a; [auto|].
  simpl. specialize (He a k).
  destruct (Dict.lookup key_eqb (read h a) k) as [[x|a']|]; try discriminate.
  rewrite He. apply IH.
Qed.

Lemma follow_key_eqb (h : store) (ks ks' : list key) (a : addr) :
  Forall2 (fun k k' => key_eqb k k' = true) ks ks' ->
  follow h a ks = follow h a ks'.
Proof.
  intros H. revert a. induction H as [|k k' ks ks' Hk _ IH]; intros a; [reflexivity|].
  simpl. rewrite (lookup_key_eqb _ k k' Hk).
  destruct (Dict.lookup key_eqb (read h a) k') as [[x|a']|]; auto.
Qed.

Lemma follow_app (h : store) (ks1 ks2 : list key) (a : addr) :
  follow h a (ks1 ++ ks2) =
  match follow h a ks1 with
  | Some b => follow h b ks2
  | None => None
  end.
Proof.
  revert a. induction ks1 as [|k ks1 IH]; intros a; [reflexivity|].
  simpl. destruct (Dict.lookup key_eqb (read h a) k) as [[x|a']|]; auto.
Qed.
End StoreFacts.

Module AggregateFacts.
Import Py Plt Store StoreFacts Aggregate PlotFacts.
Local Open Scope py_scope.

Lemma obind_returned {A B} (m : outcome A) (k : A -> outcome B) (b : B) :
  obind m k = Returned b -> exists a, m = Returned a /\ k a = Returned b.
Proof. destruct m as [a|e]; [eauto | discriminate]. Qed.

(** A loop that returns kept its invariant, moved the state along a
    preorder, and left behind what every round established, provided
    later rounds cannot undo it. *)
Lemma foldM_invariant {A S} (body : S -> A -> outcome S)
    (Inv : S -> Prop) (R : S -> S -> Prop) (Q : A -> S -> Prop) :
  (forall s, R s s) ->
  (forall s1 s2 s3, R s1 s2 -> R s2 s3 -> R s1 s3) ->
  (forall x s s', Q x s -> R s s' -> Q x s') ->
  forall xs,
    (forall x s s', In x xs -> Inv s -> body s x = Returned s' ->
                    Inv s' /\ R s s' /\ Q x s') ->
    forall s s', Inv s -> foldM body xs s = Returned s' ->
                 Inv s' /\ R s s' /\ forall x, In x xs -> Q x s'.
Proof.
  intros Rrefl Rtrans Qstable xs. induction xs as [|x xs IH]; intros Hbody s s' Hs Hrun.
  - injection Hrun as <-. split; [exact Hs|]. split; [apply Rrefl|]. intros x [].
  - simpl in Hrun. apply obind_returned in Hrun as (s1 & H1 & Hrest).
    destruct (Hbody x s s1 (or_introl eq_refl) Hs H1) as (Hs1 & R1 & Q1).
    destruct (IH (fun y t t' Hy => Hbody y t t' (or_intror Hy)) s1 s' Hs1 Hrest)
      as (Hs' & R2 & Q2).
    split; [exact Hs'|]. split; [eapply Rtrans; eauto|].
    intros y [<-|Hy]; [eapply Qstable; eauto | apply Q2, Hy].
Qed.

Section Typing.
Variable names : list string.

Lemma entry_ok_mono (D E : list nat) (d : nat) (k : key) (v : value) :
  entry_ok names D d k v -> entry_ok names (D ++ E) d k v.
Proof.
  destruct d, k, v; simpl; auto.
  intros H. apply lookup_app_l_Some. exact H.
Qed.

Lemma entry_ok_eqb (D : list nat) (d : nat) (k k' : key) (v : value) :
  key_eqb k' k = true -> entry_ok names D d k v -> entry_ok names D d k' v.
Proof.
  destruct d, k, k', v; simpl; auto; try discriminate.
  intros H. apply String.eqb_eq in H. subst. auto.
Qed.

Lemma typed_lt (D : list nat) (h : store) (a d : nat) :
  typed names D h -> D !! a = Some d -> (a < length h)%nat.
Proof.
  intros [Hlen _] Ha. rewrite <- Hlen. eapply lookup_lt_Some, Ha.
Qed.

Lemma typed_write (D : list nat) (h : store) (a d : nat) (new : pydict) :
  typed names D h -> D !! a = Some d ->
  (forall k v, In (k, v) new -> entry_ok names D d k v) ->
  typed names D (write h a new).
Proof.
  intros Ht Ha Hnew. pose proof (typed_lt D h a d Ht Ha) as Hlt.
  destruct Ht as [Hlen Hent]. split; [rewrite length_write; exact Hlen|].
  intros b d' k v Hb Hin. destruct (decide (a = b)) as [<-|Hne].
  - rewrite read_write_eq in Hin by exact Hlt.
    assert (d' = d) as -> by congruence. apply Hnew, Hin.
  - rewrite read_write_ne in Hin by exact Hne. eapply Hent; eauto.
Qed.

Lemma typed_alloc (D : list nat) (h : store) (d : nat) :
  typed names D h -> typed names (D ++ [d]) (h ++ [[]]).
Proof.
  intros [Hlen Hent]. split; [rewrite !length_app, Hlen; reflexivity|].
  intros a d' k v Ha Hin. rewrite read_alloc in Hin.
  destruct (decide (a < length D)%nat) as [Hlt|Hge].
  - rewrite lookup_app_l in Ha by exact Hlt.
    apply entry_ok_mono. eapply Hent; eauto.
  - rewrite read_out_of_range in Hin by lia. destruct Hin.
Qed.

Lemma ext_alloc (h : store) : ext h (h ++ [[]]).
Proof. intros a k. rewrite read_alloc. apply ext_refl. Qed.

Lemma ext_write (h : store) (a : addr) (new : pydict) :
  (a < length h)%nat ->
  (forall k,
     match Dict.lookup key_eqb (read h a) k with
     | Some (VDict a') => Dict.lookup key_eqb new k = Some (VDict a')
     | Some (VFloat _) => exists x, Dict.lookup key_eqb new k = Some (VFloat x)
     | None => True
     end) ->
  ext h (write h a new).
Proof.
  intros Hlt Hnew b k. destruct (decide (a = b)) as [<-|Hne].
  - rewrite read_write_eq by exact Hlt. apply Hnew.
  - rewrite read_write_ne by exact Hne. apply ext_refl.
Qed.

(** Storing under a key that is not there, or over a number, keeps
    what the dictionary had. *)
Lemma ext_set_item (h : store) (a : addr) (k : key) (v : value) :
  (a < length h)%nat ->
  match Dict.lookup key_eqb (read h a) k with
  | Some (VDict _) => False
  | Some (VFloat _) => exists x, v = VFloat x
  | None => True
  end ->
  ext h (write h a (Dict.set_item key_eqb (read h a) k v)).
Proof.
  intros Hlt Hold. apply ext_write; [exact Hlt|]. intros k'.
  rewrite lookup_set_item. destruct (key_eqb k k') eqn:E.
  - rewrite <- (lookup_key_eqb _ k k' E).
    destruct (Dict.lookup key_eqb (read h a) k) as [[x|a']|]; [| |exact I].
    + destruct Hold as [y ->]. eauto.
    + destruct Hold.
  - destruct (Dict.lookup key_eqb (read h a) k') as [[x|a']|]; eauto.
Qed.

Lemma mem_false (d : pydict) (k : key) :
  Dict.mem key_eqb d k = false -> Dict.lookup key_eqb d k = None.
Proof. unfold Dict.mem. destruct (Dict.lookup key_eqb d k); [discriminate | reflexivity]. Qed.

Lemma descend_spec (D : list nat) (h : store) (a d : nat) (pval : Q)
    (h' : store) (v : value) :
  typed names D h -> D !! a = Some (S d) ->
  descend h (VDict a) pval = Returned (h', v) ->
  exists D' a',
    v = VDict a' /\ typed names D' h' /\ (exists E, D' = D ++ E) /\
    D' !! a' = Some d /\ ext h h' /\
    Dict.lookup key_eqb (read h' a) (KNum pval) = Some (VDict a').
Proof.
  intros Ht Ha. pose proof (typed_lt D h a _ Ht Ha) as Hlt.
  unfold descend. destruct (Dict.mem key_eqb (read h a) (KNum pval)) eqn:M.
  - unfold subscript, Dict.getitem.
    destruct (Dict.lookup key_eqb (read h a) (KNum pval)) as [w|] eqn:L;
      [|discriminate].
    simpl. intros [= <- <-].
    destruct (lookup_In _ _ _ L) as (k0 & Hin & Hk0).
    pose proof (proj2 Ht a (S d) k0 w Ha Hin) as Hok.
    destruct k0 as [q|s]; [|destruct Hok]. destruct w as [x|a']; [destruct Hok|].
    exists D, a'. split; [reflexivity|]. split; [exact Ht|].
    split; [exists []; symmetry; apply app_nil_r|]. split; [exact Hok|].
    split; [apply ext_refl | exact L].
  - apply mem_false in M. unfold alloc, subscript, Dict.getitem.
    rewrite read_write_eq by (rewrite length_app; simpl; lia).
    rewrite read_alloc, lookup_set_item, key_eqb_refl. simpl.
    intros [= <- <-]. exists (D ++ [d]), (length h).
    split; [reflexivity|].
    assert (HD : (D ++ [d]) !! length h = Some d).
    { rewrite <- (proj1 Ht), lookup_app_r, Nat.sub_diag by lia. reflexivity. }
    split.
    { apply (typed_write _ _ a (S d)).
      - apply typed_alloc, Ht.
      - apply lookup_app_l_Some, Ha.
      - intros k v Hin. apply In_set_item in Hin as [Hin|[-> Hk]].
        + apply entry_ok_mono. eapply (proj2 Ht); eauto.
        + apply (entry_ok_eqb _ _ (KNum pval)); [exact Hk | exact HD]. }
    split; [eauto|]. split; [exact HD|].
    split.
    { eapply ext_trans; [apply ext_alloc|].
      rewrite <- (read_alloc h a). apply ext_set_item.
      - rewrite length_app. simpl. lia.
      - rewrite read_alloc, M. exact I. }
    rewrite read_write_eq by (rewrite length_app; simpl; lia).
    rewrite lookup_set_item, key_eqb_refl. reflexivity.
Qed.

Lemma has_number_ext (a : addr) (stat : string) (h h' : store) :
  has_number a stat h -> ext h h' -> has_number a stat h'.
Proof.
  intros [x Hx] He. specialize (He a (KStr stat)). rewrite Hx in He. exact He.
Qed.

Lemma typed_set_number (D : list nat) (h : store) (a : addr) (stat : string)
    (x : pyfloat) :
  typed names D h -> D !! a = Some 0%nat -> In stat names ->
  typed names D
    (write h a (Dict.set_item key_eqb (read h a) (KStr stat) (VFloat x))) /\
  has_number a stat
    (write h a (Dict.set_item key_eqb (read h a) (KStr stat) (VFloat x))).
Proof.
  intros Ht Ha Hs. pose proof (typed_lt D h a _ Ht Ha) as Hlt. split.
  - apply (typed_write _ _ a 0%nat); [exact Ht | exact Ha |].
    intros k v Hin. apply In_set_item in Hin as [Hin|[-> Hk]].
    + eapply (proj2 Ht); eauto.
    + apply (entry_ok_eqb _ _ (KStr stat)); [exact Hk | exact Hs].
  - exists x. rewrite read_write_eq by exact Hlt.
    rewrite lookup_set_item, key_eqb_refl. reflexivity.
Qed.

Lemma accumulate_spec (D : list nat) (s : list (string * ndarray))
    (h : store) (a : addr) (stat : string) (h' : store) :
  typed names D h -> D !! a = Some 0%nat -> In stat names ->
  accumulate s (VDict a) h stat = Returned h' ->
  typed names D h' /\ ext h h' /\ has_number a stat h' /\
  exists arr, Dict.lookup String.eqb s stat = Some arr.
Proof.
  intros Ht Ha Hs. pose proof (typed_lt D h a _ Ht Ha) as Hlt.
  unfold accumulate, subscript, Dict.getitem.
  destruct (Dict.mem key_eqb (read h a) (KStr stat)) eqn:M.
  - destruct (Dict.lookup key_eqb (read h a) (KStr stat)) as [old|] eqn:L;
      [|discriminate].
    simpl. destruct (Dict.lookup String.eqb s stat) as [arr|]; [|discriminate].
    simpl. destruct old as [y|a']; [|discriminate]. intros [= <-].
    destruct (typed_set_number D h a stat (fadd y (np_mean arr)) Ht Ha Hs) as [T N].
    split; [exact T|]. split; [|split; [exact N | eauto]].
    apply ext_set_item; [exact Hlt|]. rewrite L. eauto.
  - apply mem_false in M.
    destruct (Dict.lookup String.eqb s stat) as [arr|]; [|discriminate].
    simpl. intros [= <-].
    destruct (typed_set_number D h a stat (np_mean arr) Ht Ha Hs) as [T N].
    split; [exact T|]. split; [|split; [exact N | eauto]].
    apply ext_set_item; [exact Hlt|]. rewrite M. exact I.
Qed.

Lemma average_spec (D : list nat) (count : Z) (h : store) (a : addr)
    (stat : string) (h' : store) :
  typed names D h -> D !! a = Some 0%nat -> In stat names ->
  average count (VDict a) h stat = Returned h' ->
  typed names D h' /\ ext h h' /\ has_number a stat h'.
Proof.
  intros Ht Ha Hs. pose proof (typed_lt D h a _ Ht Ha) as Hlt.
  unfold average, subscript, Dict.getitem.
  destruct (Dict.lookup key_eqb (read h a) (KStr stat)) as [old|] eqn:L;
    [|discriminate].
  simpl. destruct old as [y|a']; [|discriminate]. intros [= <-].
  destruct (typed_set_number D h a stat (fdiv y (inject_Z count)) Ht Ha Hs) as [T N].
  split; [exact T|]. split; [|exact N].
  apply ext_set_item; [exact Hlt|]. rewrite L. eauto.
Qed.

(** The loop over [param_list] ends at a dictionary of depth 0 that
    the values of the parameters lead to. *)
Lemma path_spec (mb : FlockModel) (models : models_dict) (batch : string) :
  getmodel models batch = Returned mb ->
  forall (pl : list string) (D : list nat) (h : store) (a : addr)
         (ht' : list (list (key * value)) * value),
    typed names D h -> D !! a = Some (length pl) ->
    foldM (fun (ht : list (list (key * value)) * value) p =>
             mb <- getmodel models batch ;;
             pval <- getparam mb p ;;
             descend (fst ht) (snd ht) pval) pl (h, VDict a) = Returned ht' ->
    exists D' leaf pvals,
      snd ht' = VDict leaf /\ typed names D' (fst ht') /\
      (exists E, D' = D ++ E) /\ D' !! leaf = Some 0%nat /\ ext h (fst ht') /\
      mapM (getparam mb) pl = Returned pvals /\
      follow (fst ht') a (map KNum pvals) = Some leaf.
Proof.
  intros Hmb. induction pl as [|p pl IH]; intros D h a ht' Ht Ha Hrun.
  - injection Hrun as <-. exists D, a, []. simpl.
    split; [reflexivity|]. split; [exact Ht|].
    split; [exists []; symmetry; apply app_nil_r|].
    split; [exact Ha|]. split; [apply ext_refl|]. split; reflexivity.
  - cbn [foldM] in Hrun.
    apply obind_returned in Hrun as ([h1 v1] & Hstep & Hrest).
    apply obind_returned in Hstep as (mb' & Hmb' & Hstep).
    assert (mb' = mb) as -> by congruence.
    apply obind_returned in Hstep as (pval & Hp & Hdesc).
    cbn [fst snd] in Hdesc.
    destruct (descend_spec D h a (length pl) pval h1 v1 Ht Ha Hdesc)
      as (D1 & a1 & -> & Ht1 & [E1 ->] & Ha1 & He1 & Hl1).
    destruct (IH (D ++ E1) h1 a1 ht' Ht1 Ha1 Hrest)
      as (D2 & leaf & pvals & Hleaf & Ht2 & [E2 ->] & Hd2 & He2 & Hm & Hf).
    exists ((D ++ E1) ++ E2), leaf, (pval :: pvals).
    split; [exact Hleaf|]. split; [exact Ht2|].
    split; [exists (E1 ++ E2); symmetry; apply app_assoc|].
    split; [exact Hd2|]. split; [eapply ext_trans; eauto|].
    split; [simpl; rewrite Hp; simpl; rewrite Hm; reflexivity|].
    simpl. pose proof (He2 a (KNum pval)) as Hk. rewrite Hl1 in Hk.
    rewrite Hk. exact Hf.
Qed.

Lemma typed_nested (D : list nat) (h : store) :
  typed names D h ->
  forall d a, D !! a = Some d -> nested names h d a.
Proof.
  intros Ht. induction d as [|d IH]; intros a Ha k v Hin;
    pose proof (proj2 Ht a _ k v Ha Hin) as Hok;
    destruct k as [q|s], v as [x|a']; simpl in Hok; try contradiction; eauto 6.
Qed.

Lemma follow_depth (D : list nat) (h : store) :
  typed names D h ->
  forall ks a b d, D !! a = Some d -> follow h a ks = Some b ->
    exists d', d = (length ks + d')%nat /\ D !! b = Some d'.
Proof.
  intros Ht. induction ks as [|k ks IH]; intros a b d Ha Hf.
  - injection Hf as <-. exists d. auto.
  - simpl in Hf.
    destruct (Dict.lookup key_eqb (read h a) k) as [[x|a']|] eqn:L; try discriminate.
    destruct (lookup_In _ _ _ L) as (k0 & Hin & _).
    pose proof (proj2 Ht a _ k0 _ Ha Hin) as Hok.
    destruct d as [|d], k0 as [q|s]; simpl in Hok; try contradiction.
    destruct (IH a' b d Hok Hf) as (d' & -> & Hb). exists d'. auto.
Qed.
End Typing.

Lemma mapM_length {A B} (f : A -> outcome B) (xs : list A) (ys : list B) :
  mapM f xs = Returned ys -> length ys = length xs.
Proof.
  revert ys. induction xs as [|x xs IH]; intros ys H.
  - injection H as <-. reflexivity.
  - simpl in H. apply obind_returned in H as (y & _ & H).
    apply obind_returned in H as (ys' & Hys & H). injection H as <-.
    simpl. rewrite (IH ys' Hys). reflexivity.
Qed.

(** *** Names of experiments *)

Lemma In_insert (x y : string) (l : list string) :
  In y (Str.insert x l) <-> y = x \/ In y l.
Proof.
  induction l as [|z l IH]; simpl.
  - intuition.
  - destruct (String.leb x z); simpl; rewrite ?IH; intuition.
Qed.

Lemma In_sorted (y : string) (l : list string) : In y (Str.sorted l) <-> In y l.
Proof.
  induction l as [|x l IH]; simpl; [reflexivity|].
  rewrite In_insert, IH. intuition.
Qed.

Lemma getmodel_of_name (models : models_dict) (name : string) :
  In name (map fst models) -> exists m, getmodel models name = Returned m.
Proof.
  unfold getmodel, Dict.getitem. induction models as [|[k m] models IH]; simpl; [intros []|].
  destruct (String.eqb k name) eqn:E; [eauto|].
  intros [->|H]; [rewrite String.eqb_refl in E; discriminate | auto].
Qed.

(** *** When the aggregation returns *)

Lemma foldM_progress {A S} (body : S -> A -> outcome S) (Inv : S -> Prop)
    (xs : list A) :
  (forall x s, In x xs -> Inv s -> exists s', body s x = Returned s' /\ Inv s') ->
  forall s, Inv s -> exists s', foldM body xs s = Returned s' /\ Inv s'.
Proof.
  induction xs as [|x xs IH]; intros Hbody s Hs; [eauto|].
  destruct (Hbody x s (or_introl eq_refl) Hs) as (s1 & H1 & Hs1).
  destruct (IH (fun y t Hy => Hbody y t (or_intror Hy)) s1 Hs1) as (s' & H' & Hs').
  exists s'. simpl. rewrite H1. auto.
Qed.

Lemma mapM_progress {A B} (f : A -> outcome B) (xs : list A) :
  (forall x, In x xs -> exists y, f x = Returned y) ->
  exists ys, mapM f xs = Returned ys.
Proof.
  induction xs as [|x xs IH]; intros H; [eexists; reflexivity|].
  destruct (H x (or_introl eq_refl)) as [y Hy].
  destruct (IH (fun z Hz => H z (or_intror Hz))) as [ys Hys].
  exists (y :: ys). simpl. rewrite Hy. simpl. rewrite Hys. reflexivity.
Qed.

Lemma obind_value {A B} (m : outcome A) (k : A -> outcome B) (a : A) :
  m = Returned a -> obind m k = k a.
Proof. intros ->. reflexivity. Qed.

Lemma prefix_refl (s : string) : String.prefix s s = true.
Proof.
  induction s as [|c s IH]; [reflexivity|].
  simpl. destruct (ascii_dec c c); [exact IH | contradiction].
Qed.

Lemma contains_refl (s : string) : Str.contains s s = true.
Proof.
  destruct s as [|c s]; [reflexivity|].
  change (Str.contains (String c s) (String c s))
    with (String.prefix (String c s) (String c s) || Str.contains (String c s) s).
  rewrite prefix_refl. reflexivity.
Qed.

Lemma batch_in_own_experiments (models : models_dict) (batch : string) :
  In batch (batch_names models) -> In batch (exp_in_batch models batch).
Proof.
  unfold batch_names, exp_in_batch. rewrite !In_sorted, !filter_In.
  intros [H _]. split; [exact H | apply contains_refl].
Qed.

Lemma experiment_is_loaded (models : models_dict) (batch exp : string) :
  In exp (exp_in_batch models batch) -> In exp (map fst models).
Proof. unfold exp_in_batch. rewrite In_sorted, filter_In. tauto. Qed.

Lemma descend_progress (names : list string) (D : list nat) (h : store)
    (a d : nat) (pval : Q) :
  typed names D h -> D !! a = Some d ->
  exists hv, descend h (VDict a) pval = Returned hv.
Proof.
  intros Ht Ha. pose proof (typed_lt names D h a d Ht Ha) as Hlt.
  unfold descend, subscript, Dict.getitem.
  destruct (Dict.mem key_eqb (read h a) (KNum pval)) eqn:M.
  - unfold Dict.mem in M.
    destruct (Dict.lookup key_eqb (read h a) (KNum pval)); [|discriminate].
    eexists. reflexivity.
  - unfold alloc. rewrite read_write_eq by (rewrite length_app; simpl; lia).
    rewrite lookup_set_item, key_eqb_refl. eexists. reflexivity.
Qed.

Lemma accumulate_progress (names : list string) (D : list nat)
    (s : list (string * ndarray)) (h : store) (a : addr) (stat : string)
    (arr : ndarray) :
  typed names D h -> D !! a = Some 0%nat ->
  Dict.lookup String.eqb s stat = Some arr ->
  exists h', accumulate s (VDict a) h stat = Returned h'.
Proof.
  intros Ht Ha Hs. unfold accumulate, subscript, Dict.getitem. rewrite Hs.
  destruct (Dict.mem key_eqb (read h a) (KStr stat)) eqn:M; [|eexists; reflexivity].
  unfold Dict.mem in M.
  destruct (Dict.lookup key_eqb (read h a) (KStr stat)) as [old|] eqn:L;
    [|discriminate].
  destruct (lookup_In _ _ _ L) as (k0 & Hin & _).
  pose proof (proj2 Ht a _ k0 old Ha Hin) as Hok.
  destruct k0 as [q|s0], old as [y|a']; simpl in Hok; try contradiction.
  eexists. reflexivity.
Qed.

Lemma average_progress (count : Z) (h : store) (a : addr) (stat : string) :
  has_number a stat h -> exists h', average count (VDict a) h stat = Returned h'.
Proof.
  intros [x Hx]. unfold average, subscript, Dict.getitem. rewrite Hx.
  eexists. reflexivity.
Qed.

Lemma batch_has_model (models : models_dict) (batch : string) :
  In batch (batch_names models) -> exists m, getmodel models batch = Returned m.
Proof.
  unfold batch_names. rewrite In_sorted, filter_In. intros [H _].
  apply getmodel_of_name, H.
Qed.

Section Statistics.
Variable np_sqrt : Q -> Q.
Variable process_space :
  ndarray3 -> Q -> Plot.EnumBounds -> list (string * ndarray).
Variable process_angles : list (list Q) -> Q -> list (string * ndarray).
Variable em_format : ndarray3 -> ndarray3.
Variable emergence_psi : ndarray3 -> ndarray -> ndarray.

Local Abbreviation stats_of :=
  (experiment_stats np_sqrt process_space process_angles em_format emergence_psi).
Local Abbreviation batch_step :=
  (process_batch np_sqrt process_space process_angles em_format emergence_psi).
Local Abbreviation aggregate :=
  (aggregate_model_stats np_sqrt process_space process_angles em_format
     emergence_psi).

Lemma batch_done_ext models pl names batch (h h' : store) :
  batch_done models pl names batch h -> ext h h' ->
  batch_done models pl names batch h'.
Proof.
  intros (mb & pvals & leaf & Hm & Hp & Hf & Hn) He.
  exists mb, pvals, leaf. split; [exact Hm|]. split; [exact Hp|].
  split; [eapply follow_ext; eauto|].
  intros stat Hs. eapply has_number_ext; eauto.
Qed.

Lemma process_batch_spec (models : models_dict) (pl names : list string)
    (skip : nat) (D : list nat) (h : store) (batch : string) (h' : store) :
  In batch (batch_names models) ->
  typed names D h -> D !! root = Some (length pl) ->
  batch_step models pl names skip h batch = Returned h' ->
  (exists D', typed names D' h' /\ D' !! root = Some (length pl)) /\
  ext h h' /\
  batch_done models pl names batch h' /\
  batch_computed np_sqrt process_space process_angles em_format emergence_psi
    models names skip batch.
Proof.
  intros Hb Ht Hroot Hrun. destruct (batch_has_model _ _ Hb) as [mb Hmb].
  unfold process_batch in Hrun.
  apply obind_returned in Hrun as (count & _ & Hrun).
  apply obind_returned in Hrun as (printed & _ & Hrun).
  apply obind_returned in Hrun as (ht & Hpath & Hrun).
  apply obind_returned in Hrun as (h1 & Hexps & Havg).
  destruct (path_spec names mb models batch Hmb pl D h root ht Ht Hroot Hpath)
    as (D1 & leaf & pvals & Hleaf & Ht1 & [E ->] & Hd1 & He1 & Hm & Hf).
  rewrite Hleaf in Hexps, Havg.
  (* the loop over the experiments *)
  match type of Hexps with foldM ?body _ _ = _ =>
  pose proof (foldM_invariant body (typed names (D ++ E)) ext
    (fun exp _ => exists m s, getmodel models exp = Returned m /\
                    stats_of skip m = Returned s /\
                    forall stat, In stat names ->
                      exists arr, Dict.lookup String.eqb s stat = Some arr)
    ext_refl ext_trans (fun x s s' H _ => H) (exp_in_batch models batch))
    as Hloop end.
  destruct (Hloop) with (s := fst ht) (s' := h1) as (Ht2 & He2 & Hcomp);
    [|exact Ht1|exact Hexps|].
  { intros exp s0 s1 _ Hs0 Hbody.
    apply obind_returned in Hbody as (m & Hgm & Hbody).
    apply obind_returned in Hbody as (s & Hst & Hbody).
    pose proof (foldM_invariant (accumulate s (VDict leaf))
      (typed names (D ++ E)) ext
      (fun stat _ => exists arr, Dict.lookup String.eqb s stat = Some arr)
      ext_refl ext_trans (fun x s s' H _ => H) names) as Hin.
    destruct Hin with (s := s0) (s' := s1) as (Hs1 & He & Harr);
      [|exact Hs0|exact Hbody|].
    - intros stat t t' Hstat Htt Hacc.
      destruct (accumulate_spec names _ s t leaf stat t' Htt Hd1 Hstat Hacc)
        as (T & X & _ & Y). auto.
    - split; [exact Hs1|]. split; [exact He|]. exists m, s. auto. }
  (* the loop that averages *)
  pose proof (foldM_invariant (average count (VDict leaf))
    (typed names (D ++ E)) ext (has_number leaf)
    ext_refl ext_trans (has_number_ext leaf) names) as Hlast.
  destruct Hlast with (s := h1) (s' := h') as (Ht3 & He3 & Hnum);
    [|exact Ht2|exact Havg|].
  { intros stat t t' Hstat Htt Hav.
    apply (average_spec names _ count t leaf stat t' Htt Hd1 Hstat Hav). }
  split; [exists (D ++ E); split; [exact Ht3 | apply lookup_app_l_Some, Hroot]|].
  split; [eapply ext_trans; [exact He1|]; eapply ext_trans; eauto|].
  split; [|exact Hcomp].
  exists mb, pvals, leaf. split; [exact Hmb|]. split; [exact Hm|].
  split; [|exact Hnum].
  eapply follow_ext; [|exact Hf]. eapply ext_trans; eauto.
Qed.

Lemma fresh_store_typed (names : list string) (d : nat) :
  typed names [d] fresh_store.
Proof.
  split; [reflexivity|]. intros a d' k v _ Hin.
  destruct a as [|[|a]]; destruct Hin.
Qed.

Lemma aggregate_batches (models : models_dict) (pl names : list string)
    (skip : nat) (h : store) :
  aggregate models pl names skip = Returned h ->
  (exists D, typed names D h /\ D !! root = Some (length pl)) /\
  forall batch, In batch (batch_names models) ->
    batch_done models pl names batch h /\ batch_computed np_sqrt process_space process_angles em_format emergence_psi
    models names skip batch.
Proof.
  unfold aggregate_model_stats. intros Hrun.
  apply obind_returned in Hrun as (_ & _ & Hrun).
  pose proof (foldM_invariant (batch_step models pl names skip)
    (fun h => exists D, typed names D h /\ D !! root = Some (length pl)) ext
    (fun batch h => batch_done models pl names batch h /\
                    batch_computed np_sqrt process_space process_angles em_format emergence_psi
    models names skip batch)
    ext_refl ext_trans) as Hloop.
  destruct Hloop with (xs := batch_names models) (s := fresh_store) (s' := h)
    as (Hinv & _ & Hall); auto.
  - intros batch s s' [Hd Hc] He. split; [eapply batch_done_ext; eauto | exact Hc].
  - intros batch s s' Hb (D & Ht & Hroot) Hstep.
    destruct (process_batch_spec models pl names skip D s batch s' Hb Ht Hroot Hstep)
      as (Hinv & He & Hd & Hc). auto.
  - exists [length pl]. split; [apply fresh_store_typed | reflexivity].
Qed.

Lemma in_list_In (p : string) (l : list string) : In p l -> in_list p l = true.
Proof.
  intros H. unfold in_list. apply existsb_exists. exists p.
  split; [exact H | apply String.eqb_refl].
Qed.

Lemma path_progress (names : list string) (mb : FlockModel) (models : models_dict)
    (batch : string) :
  getmodel models batch = Returned mb ->
  forall (pl : list string) (D : list nat) (h : store) (a : addr),
    (forall p, In p pl -> exists q, getparam mb p = Returned q) ->
    typed names D h -> D !! a = Some (length pl) ->
    exists ht,
      foldM (fun (ht : list (list (key * value)) * value) p =>
               mb <- getmodel models batch ;;
               pval <- getparam mb p ;;
               descend (fst ht) (snd ht) pval) pl (h, VDict a) = Returned ht.
Proof.
  intros Hmb. induction pl as [|p pl IH]; intros D h a Hp Ht Ha; [eexists; reflexivity|].
  destruct (Hp p (or_introl eq_refl)) as [q Hq].
  destruct (descend_progress names D h a _ q Ht Ha) as [[h1 v1] Hd].
  destruct (descend_spec names D h a (length pl) q h1 v1 Ht Ha Hd)
    as (D1 & a1 & -> & Ht1 & _ & Ha1 & _).
  destruct (IH D1 h1 a1 (fun p' Hp' => Hp p' (or_intror Hp')) Ht1 Ha1) as [ht Hht].
  exists ht. cbn [foldM].
  rewrite (obind_value _ _ _ Hmb), (obind_value _ _ _ Hq). cbn [fst snd].
  rewrite Hd. cbn [obind]. exact Hht.
Qed.

Lemma process_batch_progress (models : models_dict) (pl names : list string)
    (skip : nat) (D : list nat) (h : store) (batch : string) :
  runnable np_sqrt process_space process_angles em_format emergence_psi
    models pl names skip ->
  In batch (batch_names models) ->
  typed names D h -> D !! root = Some (length pl) ->
  exists h', batch_step models pl names skip h batch = Returned h'.
Proof.
  intros (Hpl & Hidx & Hpar & Hst) Hb Ht Hroot.
  destruct (batch_has_model _ _ Hb) as [mb Hmb].
  unfold process_batch.
  (* the count *)
  destruct (mapM_progress run_index (exp_in_batch models batch)) as [idx Hidxs].
  { intros exp He. apply Hidx. eapply experiment_is_loaded, He. }
  assert (Hcount : exists count, count_runs (exp_in_batch models batch) = Returned count).
  { unfold count_runs. rewrite Hidxs. cbn [obind].
    destruct idx as [|i rest]; [|eexists; reflexivity].
    apply mapM_length in Hidxs.
    pose proof (batch_in_own_experiments _ _ Hb) as Hin.
    destruct (exp_in_batch models batch); [destruct Hin | discriminate]. }
  destruct Hcount as [count ->]. cbn [obind].
  (* the arguments of print *)
  destruct (mapM_progress (fun p => mb <- getmodel models batch ;; getparam mb p)
              (model_params models)) as [printed ->].
  { intros p Hp. rewrite Hmb. cbn [obind]. eapply Hpar; eauto. }
  cbn [obind].
  (* the path *)
  destruct (path_progress names mb models batch Hmb pl D h root) as [ht Hpath];
    [intros p Hp; eapply Hpar; eauto | exact Ht | exact Hroot |].
  rewrite Hpath. cbn [obind].
  destruct (path_spec names mb models batch Hmb pl D h root ht Ht Hroot Hpath)
    as (D1 & leaf & pvals & Hleaf & Ht1 & _ & Hd1 & _).
  rewrite Hleaf.
  (* one round of the loop over the experiments *)
  assert (Hround : forall exp s0, In exp (exp_in_batch models batch) ->
            typed names D1 s0 ->
            exists s1,
              (m <- getmodel models exp ;;
               s <- stats_of skip m ;;
               foldM (accumulate s (VDict leaf)) names s0) = Returned s1 /\
              typed names D1 s1 /\ ext s0 s1 /\
              forall stat, In stat names -> has_number leaf stat s1).
  { intros exp s0 He Hs0.
    destruct (getmodel_of_name models exp (experiment_is_loaded _ _ _ He)) as [m Hm].
    destruct (Hst exp m Hm) as (s & Hs & Harr).
    rewrite Hm. cbn [obind]. rewrite Hs. cbn [obind].
    destruct (foldM_progress (accumulate s (VDict leaf)) (typed names D1) names)
      with (s := s0) as (s1 & Hs1 & Ht2); [|exact Hs0|].
    { intros stat t Hstat Htt. destruct (Harr stat Hstat) as [arr Ha].
      destruct (accumulate_progress names D1 s t leaf stat arr Htt Hd1 Ha) as [t' Ht'].
      exists t'. split; [exact Ht'|].
      apply (accumulate_spec names D1 s t leaf stat t' Htt Hd1 Hstat Ht'). }
    exists s1. split; [exact Hs1|]. split; [exact Ht2|].
    apply (foldM_invariant (accumulate s (VDict leaf)) (typed names D1) ext
             (has_number leaf) ext_refl ext_trans (has_number_ext leaf) names)
      with (s := s0); [|exact Hs0|exact Hs1].
    intros stat t t' Hstat Htt Hacc.
    destruct (accumulate_spec names D1 s t leaf stat t' Htt Hd1 Hstat Hacc)
      as (T & X & N & _). auto. }
  (* the loop over the experiments *)
  match goal with |- context [foldM ?body (exp_in_batch models batch) (fst ht)] =>
    destruct (foldM_progress body (typed names D1) (exp_in_batch models batch))
      with (s := fst ht) as (h1 & Hh1 & Ht2);
      [ intros exp s0 He Hs0; destruct (Hround exp s0 He Hs0) as (s1 & ? & ? & _);
        eauto
      | exact Ht1 | ];
    pose proof (foldM_invariant body (typed names D1) ext
      (fun _ s => forall stat, In stat names -> has_number leaf stat s)
      ext_refl ext_trans
      (fun _ s s' H He stat Hs => has_number_ext leaf stat s s' (H stat Hs) He)
      (exp_in_batch models batch)) as Hnum
  end.
  destruct Hnum with (s := fst ht) (s' := h1) as (_ & _ & Hall);
    [|exact Ht1|exact Hh1|].
  { intros exp s0 s1 He Hs0 Hbody.
    destruct (Hround exp s0 He Hs0) as (s1' & Hbody' & T & X & N).
    assert (s1' = s1) as -> by congruence. auto. }
  rewrite Hh1. cbn [obind].
  (* the loop that averages *)
  destruct (foldM_progress (average count (VDict leaf))
              (fun s => typed names D1 s /\
                        forall stat, In stat names -> has_number leaf stat s) names)
    with (s := h1) as (h' & Hh' & _).
  - intros stat t Hstat [Htt Hn].
    destruct (average_progress count t leaf stat (Hn stat Hstat)) as [t' Ht'].
    exists t'. split; [exact Ht'|].
    destruct (average_spec names D1 count t leaf stat t' Htt Hd1 Hstat Ht')
      as (T & X & _).
    split; [exact T|]. intros stat' Hs'. eapply has_number_ext; eauto.
  - split; [exact Ht2|]. apply (Hall batch), batch_in_own_experiments, Hb.
  - exists h'. exact Hh'.
Qed.

Lemma aggregate_returns (models : models_dict) (pl names : list string) (skip : nat) :
  runnable np_sqrt process_space process_angles em_format emergence_psi
    models pl names skip -> exists h, aggregate models pl names skip = Returned h.
Proof.
  intros Hrun. unfold aggregate_model_stats.
  destruct (foldM_progress (fun (_ : unit) p =>
              if in_list p (model_params models) then Returned tt
              else Raised ValueError) (fun _ => True) pl) with (s := tt)
    as (u & -> & _); [|exact I|].
  { intros p [] Hp _. rewrite (in_list_In _ _ (proj1 Hrun p Hp)). eauto. }
  cbn [obind].
  destruct (foldM_progress (batch_step models pl names skip)
              (fun h => exists D, typed names D h /\ D !! root = Some (length pl))
              (batch_names models)) with (s := fresh_store) as (h & Hh & _).
  - intros batch s Hb (D & Ht & Hroot).
    destruct (process_batch_progress models pl names skip D s batch Hrun Hb Ht Hroot)
      as [s' Hs'].
    exists s'. split; [exact Hs'|].
    apply (process_batch_spec models pl names skip D s batch s' Hb Ht Hroot Hs').
  - exists [length pl]. split; [apply fresh_store_typed | reflexivity].
  - exists h. exact Hh.
Qed.
Lemma aggregate_leaves (models : models_dict)
    (param_list stats_names : list string) (skip : nat) (h : store) :
  aggregate models param_list stats_names skip = Returned h ->
  nested stats_names h (length param_list) root /\
  forall batch, In batch (batch_names models) ->
    exists mb pvals leaf,
      getmodel models batch = Returned mb /\
      mapM (getparam mb) param_list = Returned pvals /\
      follow h root (map KNum pvals) = Some leaf /\
      nested stats_names h 0 leaf /\
      forall stat, In stat stats_names -> has_number leaf stat h.
Proof.
  intros Hrun.
  destruct (aggregate_batches models param_list stats_names skip h Hrun)
    as ((D & Ht & Hroot) & Hall).
  split; [eapply typed_nested; eauto|].
  intros batch Hb.
  destruct (Hall batch Hb) as ((mb & pvals & leaf & Hm & Hp & Hf & Hn) & _).
  exists mb, pvals, leaf. repeat (split; [assumption|]). split; [|exact Hn].
  destruct (follow_depth stats_names D h Ht _ _ _ _ Hroot Hf) as (d' & Hlen & Hd').
  rewrite length_map, (mapM_length _ _ _ Hp) in Hlen.
  assert (d' = 0%nat) as -> by lia.
  eapply typed_nested; eauto.
Qed.

(** The nesting of the result.  On runnable input
    [aggregate_model_stats] returns.  What it returns is nested to the
    depth of [param_list]; for every batch, the batch's values of the
    parameters, in the order of [param_list], lead from [stats] to an
    innermost dictionary that maps each requested statistic to a number
    and holds nothing else; and two batches that agree on their first
    [n] parameter values reach the same dictionary by them.  Which
    number an innermost dictionary holds is another matter: see the
    cases below. *)
Theorem aggregate_model_stats_nested (models : models_dict)
    (param_list stats_names : list string) (skip : nat) :
  (runnable np_sqrt process_space process_angles em_format emergence_psi
     models param_list stats_names skip ->
   exists h, aggregate models param_list stats_names skip = Returned h) /\
  forall h,
    aggregate models param_list stats_names skip = Returned h ->
    nested stats_names h (length param_list) root /\
    (forall batch, In batch (batch_names models) ->
       exists mb pvals leaf,
         getmodel models batch = Returned mb /\
         mapM (getparam mb) param_list = Returned pvals /\
         follow h root (map KNum pvals) = Some leaf /\
         nested stats_names h 0 leaf /\
         forall stat, In stat stats_names -> has_number leaf stat h) /\
    (forall b1 b2 m1 m2 pv1 pv2 n,
       In b1 (batch_names models) -> In b2 (batch_names models) ->
       getmodel models b1 = Returned m1 -> getmodel models b2 = Returned m2 ->
       mapM (getparam m1) param_list = Returned pv1 ->
       mapM (getparam m2) param_list = Returned pv2 ->
       Forall2 Qeq (firstn n pv1) (firstn n pv2) ->
       exists shared,
         follow h root (map KNum (firstn n pv1)) = Some shared /\
         follow h root (map KNum (firstn n pv2)) = Some shared).
Proof.
  split; [apply aggregate_returns|]. intros h Hrun.
  destruct (aggregate_leaves models param_list stats_names skip h Hrun)
    as (Hnest & Hleaf).
  split; [exact Hnest|]. split; [exact Hleaf|].
  intros b1 b2 m1 m2 pv1 pv2 n Hb1 _ Hm1 _ Hp1 _ Hagree.
  destruct (Hleaf b1 Hb1) as (mb & pvals & leaf & Hm & Hp & Hf & _).
  assert (mb = m1) as -> by congruence.
  assert (pvals = pv1) as -> by congruence.
  rewrite <- (firstn_skipn n pv1), map_app, follow_app in Hf.
  destruct (follow h root (map KNum (firstn n pv1))) as [shared|] eqn:E;
    [|discriminate].
  exists shared. split; [reflexivity|]. rewrite <- E. symmetry.
  apply follow_key_eqb. clear -Hagree.
  induction Hagree as [|x y xs ys Hxy _ IH]; simpl; constructor; [|exact IH].
  simpl. apply Qeq_bool_iff, Hxy.
Qed.

(** *** The first [skip] timepoints do not count *)

Lemma foldM_ext {A S} (f g : S -> A -> outcome S) (xs : list A) (s : S) :
  (forall s x, f s x = g s x) -> foldM f xs s = foldM g xs s.
Proof.
  intros H. revert s. induction xs as [|x xs IH]; intros s; [reflexivity|].
  simpl. rewrite H. destruct (g s x); simpl; auto.
Qed.

Lemma mapM_ext {A B} (f g : A -> outcome B) (xs : list A) :
  (forall x, f x = g x) -> mapM f xs = mapM g xs.
Proof.
  intros H. induction xs as [|x xs IH]; [reflexivity|].
  simpl. rewrite H, IH. reflexivity.
Qed.

Lemma experiment_stats_skip (skip : nat) (m : FlockModel) :
  stats_of 0%nat (without_first skip m) = stats_of skip m.
Proof. reflexivity. Qed.

Lemma names_map_models f (models : models_dict) :
  map fst (map_models f models) = map fst models.
Proof. unfold map_models. rewrite map_map. reflexivity. Qed.

Lemma getmodel_map_models f (models : models_dict) (name : string) :
  getmodel (map_models f models) name =
  match getmodel models name with
  | Returned m => Returned (f m)
  | Raised e => Raised e
  end.
Proof.
  unfold getmodel, Dict.getitem.
  induction models as [|[k m] models IH]; [reflexivity|].
  simpl. destruct (String.eqb k name); [reflexivity | exact IH].
Qed.

Lemma model_params_without_first (skip : nat) (models : models_dict) :
  model_params (map_models (without_first skip) models) = model_params models.
Proof.
  unfold model_params, map_models.
  induction models as [|[k m] models IH]; [reflexivity|].
  simpl. rewrite IH. reflexivity.
Qed.

Lemma process_batch_skip (models : models_dict) (pl names : list string)
    (skip : nat) (h : store) (batch : string) :
  batch_step (map_models (without_first skip) models) pl names 0%nat h batch =
  batch_step models pl names skip h batch.
Proof.
  unfold process_batch, exp_in_batch.
  rewrite names_map_models, model_params_without_first.
  destruct (count_runs _) as [count|e]; [|reflexivity]. simpl.
  rewrite (mapM_ext _ (fun p => mb <- getmodel models batch ;; getparam mb p)).
  2:{ intros p. rewrite getmodel_map_models.
      destruct (getmodel models batch); reflexivity. }
  destruct (mapM _ _) as [printed|e]; [|reflexivity]. simpl.
  rewrite (foldM_ext _ (fun (ht : list (list (key * value)) * value) p =>
             mb <- getmodel models batch ;;
             pval <- getparam mb p ;;
             descend (fst ht) (snd ht) pval)).
  2:{ intros ht p. rewrite getmodel_map_models.
      destruct (getmodel models batch); reflexivity. }
  destruct (foldM _ pl _) as [ht|e]; [|reflexivity]. simpl.
  rewrite (foldM_ext _ (fun h exp =>
                m <- getmodel models exp ;;
                s <- stats_of skip m ;;
                foldM (accumulate s (snd ht)) names h)).
  2:{ intros h0 exp. rewrite getmodel_map_models.
      destruct (getmodel models exp); reflexivity. }
  reflexivity.
Qed.

Lemma aggregate_skip (models : models_dict) (pl names : list string) (skip : nat) :
  aggregate (map_models (without_first skip) models) pl names 0%nat =
  aggregate models pl names skip.
Proof.
  unfold aggregate_model_stats, batch_names.
  rewrite names_map_models, model_params_without_first.
  destruct (foldM _ pl tt); [|reflexivity]. simpl.
  apply foldM_ext. intros h batch. apply process_batch_skip.
Qed.

(** The experiments that are in a batch.  [plot_results] asks for the
    four statistics of [titles] with the first 10 timepoints skipped.
    When the aggregation returns, every experiment of every batch had
    its statistics computed and they held the four; the innermost
    dictionary of every batch holds exactly the four; and the result is
    the one for the trajectories with their first 10 timepoints removed
    and nothing skipped.  An experiment that is in no batch is not
    reached: see the cases below. *)
Theorem results_stats_four_statistics (models : models_dict)
    (aggregate_by : list string) (h : store) :
  let four := ["avg_abs_vel"; "std_angle"; "std_dist_cmass"; "psi_cmass"]%string in
  results_stats np_sqrt process_space process_angles em_format emergence_psi
    models aggregate_by = Returned h ->
  (forall batch exp,
     In batch (batch_names models) -> In exp (exp_in_batch models batch) ->
     exists m s,
       getmodel models exp = Returned m /\
       stats_of 10%nat m = Returned s /\
       forall stat, In stat four ->
         exists arr, Dict.lookup String.eqb s stat = Some arr) /\
  (forall batch, In batch (batch_names models) ->
     exists mb pvals leaf,
       getmodel models batch = Returned mb /\
       mapM (getparam mb) aggregate_by = Returned pvals /\
       follow h root (map KNum pvals) = Some leaf /\
       (forall stat, In stat four -> has_number leaf stat h) /\
       (forall k v, In (k, v) (read h leaf) ->
          exists stat x, k = KStr stat /\ v = VFloat x /\ In stat four)) /\
  aggregate (map_models (without_first 10) models) aggregate_by four 0%nat
    = Returned h.
Proof.
  intros four Hrun. unfold results_stats in Hrun.
  change (map fst titles) with four in Hrun.
  destruct (aggregate_batches models aggregate_by four 10 h Hrun) as (_ & Hall).
  destruct (aggregate_leaves models aggregate_by four 10 h Hrun) as (_ & Hleaf).
  split; [|split].
  - intros batch exp Hb He. destruct (Hall batch Hb) as [_ Hc]. apply Hc, He.
  - intros batch Hb.
    destruct (Hleaf batch Hb) as (mb & pvals & leaf & Hm & Hp & Hf & Hn & Hs).
    exists mb, pvals, leaf. auto.
  - rewrite aggregate_skip. exact Hrun.
Qed.
End Statistics.
(** *** The checks of the parameter count *)

Lemma calm_bind {A B} (m : run A) (k : A -> run B) :
  calm m -> (forall a, result m = Returned a -> calm (k a)) -> calm (Plt.bind m k).
Proof.
  unfold calm. intros Hm Hk. rewrite result_bind.
  destruct (result m) as [a|e]; [apply Hk; reflexivity|].
  intros [= ->]. apply Hm. reflexivity.
Qed.

Lemma calm_for_fold {A S} (body : S -> A -> run S) (xs : list A) (s : S) :
  (forall s x, calm (body s x)) -> calm (for_fold body xs s).
Proof.
  intros H. revert s. induction xs as [|x xs IH]; intros s; [discriminate|].
  simpl. apply calm_bind; auto.
Qed.

Lemma calm_call (c : plt_call) : calm (call c).
Proof. discriminate. Qed.

Lemma calm_ret {A} (a : A) : calm (Plt.ret a).
Proof. discriminate. Qed.

Lemma calm_lift {A} (o : outcome A) : o <> Raised ValueError -> calm (lift o).
Proof. intros H. exact H. Qed.

Lemma getitem_not_value_error {K V} (eqb : K -> K -> bool) (d : list (K * V)) (k : K) :
  Dict.getitem eqb d k <> Raised ValueError.
Proof. unfold Dict.getitem. destruct (Dict.lookup eqb d k); discriminate. Qed.

Lemma keys_of_not_value_error (h : store) (v : value) :
  keys_of h v <> Raised ValueError.
Proof. destruct v; discriminate. Qed.

Lemma subscript_not_value_error (h : store) (v : value) (k : key) :
  subscript h v k <> Raised ValueError.
Proof. destruct v; [discriminate | apply getitem_not_value_error]. Qed.

Lemma mean_of_not_value_error (v : value) : mean_of v <> Raised ValueError.
Proof. destruct v; discriminate. Qed.

Lemma obind_not_value_error {A B} (m : outcome A) (k : A -> outcome B) :
  m <> Raised ValueError -> (forall a, k a <> Raised ValueError) ->
  obind m k <> Raised ValueError.
Proof.
  destruct m as [a|e]; simpl; auto.
  intros Hm _ [= ->]. apply Hm. reflexivity.
Qed.

Lemma mapM_not_value_error {A B} (f : A -> outcome B) (xs : list A) :
  (forall x, f x <> Raised ValueError) -> mapM f xs <> Raised ValueError.
Proof.
  intros H. induction xs as [|x xs IH]; [discriminate|].
  simpl. apply obind_not_value_error; [apply H|]. intros y.
  apply obind_not_value_error; [exact IH|]. discriminate.
Qed.

Lemma result_lift {A} (o : outcome A) : result (lift o) = o.
Proof. reflexivity. Qed.

(** [plot_2param] given other than two parameters raises [ValueError]
    before it reads the statistics or plots. *)
Lemma plot_2param_bad_count (tex_symbol : string -> bool) (name : string)
    (h : store) (stats : value) (param : list string) (path : string)
    (markers : nat) :
  length param <> 2%nat ->
  plot_2param tex_symbol name h stats param path markers = ([], Raised ValueError).
Proof.
  intros H. unfold plot_2param.
  destruct (Nat.eqb_spec (length param) 2); [contradiction | reflexivity].
Qed.

Lemma calm_savefig (tex_symbol : string -> bool) (a b : string) (file : text) :
  tex_symbol b && tex_symbol a = true -> calm (plt_savefig tex_symbol a b file).
Proof. intros H. unfold plt_savefig. rewrite H. apply calm_call. Qed.

(** Given two parameters, [plot_2param] raises [ValueError] only where
    it saves a figure whose title or super title mathtext cannot
    typeset. *)
Lemma plot_2param_value_error (tex_symbol : string -> bool) (name : string)
    (h : store) (stats : value) (param : list string) (path : string)
    (markers : nat) :
  result (plot_2param tex_symbol name h stats param path markers)
    = Raised ValueError ->
  length param <> 2%nat \/
  tex_symbol (nth 1 param EmptyString) && tex_symbol (nth 0 param EmptyString)
    = false.
Proof.
  intros Hres.
  destruct (Nat.eq_dec (length param) 2) as [Hlen|Hlen]; [right | left; exact Hlen].
  destruct (tex_symbol (nth 1 param EmptyString)
            && tex_symbol (nth 0 param EmptyString)) eqn:E;
    [exfalso | reflexivity].
  revert Hres. unfold plot_2param.
  rewrite Hlen. cbn [Nat.eqb negb].
  apply calm_for_fold. intros m1 val.
  apply calm_bind; [apply calm_lift, keys_of_not_value_error|]. intros top _.
  apply calm_for_fold. intros m2 p0.
  apply calm_bind; [apply calm_lift, subscript_not_value_error|]. intros s0 _.
  apply calm_bind; [apply calm_lift, keys_of_not_value_error|]. intros xval _.
  apply calm_bind.
  { apply calm_lift, mapM_not_value_error. intros p1.
    repeat (apply obind_not_value_error;
            [apply subscript_not_value_error | intros ?]).
    apply mean_of_not_value_error. }
  intros yval Hy. rewrite result_lift in Hy. apply mapM_length in Hy.
  apply calm_bind.
  { unfold plt_plot. rewrite !length_map, Hy, Nat.eqb_refl. discriminate. }
  intros _ _.
  apply calm_bind; [apply calm_lift, getitem_not_value_error|]. intros ttl _.
  repeat (apply calm_bind; [apply calm_call | intros _ _]).
  apply calm_bind; [apply calm_lift, getitem_not_value_error|]. intros lbl _.
  apply calm_bind; [apply calm_call | intros _ _].
  apply calm_bind; [apply calm_savefig, E | intros _ _].
  apply calm_bind; [apply calm_call | intros _ _].
  apply calm_ret.
Qed.

Lemma plot_3param_bad_count (tex_symbol : string -> bool)
    (list_of_set : list key -> list key) (name : string)
    (h : store) (stats : value) (param : list string) (path : string) :
  length param <> 3%nat ->
  plot_3param tex_symbol list_of_set name h stats param path
    = ([], Raised ValueError).
Proof.
  intros H. unfold plot_3param.
  destruct (Nat.eqb_spec (length param) 3); [contradiction | reflexivity].
Qed.

(** [plot_results] with more than three parameters raises before it looks
    for models: whatever [find_models] would return. *)
Lemma plot_results_bad_count np_sqrt process_space process_angles em_format
    emergence_psi list_of_set tex_symbol
    (find_models : string -> string -> models_dict)
    (path out model : string) (aggregate : list string) (markers : nat) :
  (3 < length aggregate)%nat ->
  plot_results np_sqrt process_space process_angles em_format emergence_psi
    list_of_set tex_symbol find_models path out model aggregate markers
  = ([], Raised ValueError).
Proof.
  intros H. unfold plot_results.
  destruct (Nat.ltb_spec 3 (length aggregate)); [reflexivity | lia].
Qed.
End AggregateFacts.

(** ** Cases *)

Module AggregateCases.
Import Py Plt Store Aggregate Sample StoreFacts AggregateFacts.
Local Open Scope string_scope.

Lemma time_average_returned np_sqrt process_space process_angles em_format
    emergence_psi (skip : nat) (m : FlockModel) (stat : string) (x : pyfloat) :
  time_average np_sqrt process_space process_angles em_format emergence_psi skip m stat
    = Returned x ->
  exists s arr,
    experiment_stats np_sqrt process_space process_angles em_format emergence_psi skip m
      = Returned s /\
    Dict.getitem String.eqb s stat = Returned arr /\ x = np_mean arr.
Proof.
  unfold time_average. intros H.
  apply obind_returned in H as (s & Hs & H).
  apply obind_returned in H as (arr & Harr & H).
  injection H as <-. eauto.
Qed.

(** C1.  Two batches of one experiment each, which differ only in [r],
    aggregated by [rho] and [eta]: they share their innermost dictionary.
    Whatever the statistics functions compute, if the time-averages of
    [std_angle] of the two experiments are [xa] and [xb], the dictionary
    ends with [(xa / 1 + xb) / 1]: the second batch adds its experiment
    to the finished average of the first and divides by its own count.
    That is the mean of neither batch nor of the two experiments. *)
Theorem shared_dictionary_adds_batches np_sqrt process_space process_angles
    em_format emergence_psi (xa xb : pyfloat) :
  time_average np_sqrt process_space process_angles em_format emergence_psi
    10 (still 2 (1 # 10) [("r", 1%Q)]) "std_angle" = Returned xa ->
  time_average np_sqrt process_space process_angles em_format emergence_psi
    10 (still 4 (1 # 10) [("r", 2%Q)]) "std_angle" = Returned xb ->
  batch_names r_varies = ["Vicsek_r1"; "Vicsek_r2"] /\
  exp_in_batch r_varies "Vicsek_r1" = ["Vicsek_r1"] /\
  exp_in_batch r_varies "Vicsek_r2" = ["Vicsek_r2"] /\
  aggregate_model_stats np_sqrt process_space process_angles em_format emergence_psi
    r_varies ["rho"; "eta"] ["std_angle"] 10 =
    Returned [ [(KNum 1, VDict 1)];
               [(KNum (1 # 10), VDict 2)];
               [(KStr "std_angle",
                 VFloat (fdiv (fadd (fdiv xa (inject_Z 1)) xb) (inject_Z 1)))] ].
Proof.
  intros Ha Hb. do 3 (split; [reflexivity|]).
  destruct (time_average_returned _ _ _ _ _ _ _ _ _ Ha) as (sa & arra & Hsa & Haa & ->).
  destruct (time_average_returned _ _ _ _ _ _ _ _ _ Hb) as (sb & arrb & Hsb & Hbb & ->).
  vm_compute in Hsa, Haa, Hsb, Hbb.
  vm_compute. rewrite Hsa. vm_compute. rewrite Haa. vm_compute.
  rewrite Hsb. vm_compute. rewrite Hbb. vm_compute. reflexivity.
Qed.

Lemma shared_dictionary_adds_batches_witness :
  sample_average 10 (still 2 (1 # 10) [("r", 1%Q)]) "std_angle" = Returned (Some 2%Q) /\
  sample_average 10 (still 4 (1 # 10) [("r", 2%Q)]) "std_angle" = Returned (Some 4%Q) /\
  aggregate r_varies ["rho"; "eta"] ["std_angle"] 10 =
    Returned [ [(KNum 1, VDict 1)];
               [(KNum (1 # 10), VDict 2)];
               [(KStr "std_angle", VFloat (Some 6%Q))] ].
Proof.
  assert (Ha : sample_average 10 (still 2 (1 # 10) [("r", 1%Q)]) "std_angle"
               = Returned (Some 2%Q)) by (vm_compute; reflexivity).
  assert (Hb : sample_average 10 (still 4 (1 # 10) [("r", 2%Q)]) "std_angle"
               = Returned (Some 4%Q)) by (vm_compute; reflexivity).
  split; [exact Ha|]. split; [exact Hb|].
  exact (proj2 (proj2 (proj2 (shared_dictionary_adds_batches
           sample_sqrt sample_space sample_angles sample_format sample_psi
           (Some 2%Q) (Some 4%Q) Ha Hb)))).
Defined.

(** The same averaging, two more ways.  A batch whose runs are "Vicsek"
    and "Vicsek-2" is divided by 3, the highest run index plus one; and the
    batch "Vicsek" also sums the experiment "Vicsek2", whose name contains
    its own. *)
Example missing_run_divides_by_index :
  aggregate [("Vicsek", still 2 (1 # 10) []); ("Vicsek-2", still 4 (1 # 10) [])]
    ["rho"; "eta"] ["std_angle"] 10 =
    Returned [ [(KNum 1, VDict 1)];
               [(KNum (1 # 10), VDict 2)];
               [(KStr "std_angle", VFloat (Some (6 # 3)))] ].
Proof. vm_compute. reflexivity. Qed.

Example substring_batch_swallows :
  aggregate [("Vicsek", still 2 (1 # 10) []); ("Vicsek2", still 4 (2 # 10) [])]
    ["rho"; "eta"] ["std_angle"] 10 =
    Returned [ [(KNum 1, VDict 1)];
               [(KNum (1 # 10), VDict 2); (KNum (2 # 10), VDict 3)];
               [(KStr "std_angle", VFloat (Some 6%Q))];
               [(KStr "std_angle", VFloat (Some 4%Q))] ].
Proof. vm_compute. reflexivity. Qed.

Lemma three_runs_aggregated :
  aggregate three_runs ["rho"; "eta"] ["avg_abs_vel"; "std_angle"] 10
    = Returned three_runs_stats.
Proof. vm_compute. reflexivity. Qed.

(** C5.  Three experiments of one run each: [Vicsek_a] and [Vicsek_b]
    differ in [r] only, [Vicsek_c] has another [eta].  Aggregated by [rho]
    and [eta], the result is nested two levels deep and keyed by the
    values of [rho] and of [eta]; the three batches share the dictionary
    of [rho = 1], and the first two share their innermost dictionary.
    The time averages of [std_angle] are 2, 4 and 5.  The shared
    innermost dictionary maps [std_angle] to 6, which is
    [(2 / 1 + 4) / 1]: the aggregated value of neither of its batches.
    The innermost dictionary of the third batch maps it to 5. *)
Theorem shared_leaf_holds_no_aggregate :
  batch_names three_runs = ["Vicsek_a"; "Vicsek_b"; "Vicsek_c"] /\
  (forall batch, In batch (batch_names three_runs) ->
     exp_in_batch three_runs batch = [batch]) /\
  (exists xa xb xc,
     sample_average 10 (turning 1 3 (1 # 2) [("r", 1%Q)]) "std_angle"
       = Returned (Some xa) /\
     sample_average 10 (turning 3 5 (1 # 2) [("r", 2%Q)]) "std_angle"
       = Returned (Some xb) /\
     sample_average 10 (turning 4 6 (1 # 4) [("r", 1%Q)]) "std_angle"
       = Returned (Some xc) /\
     (xa == 2)%Q /\ (xb == 4)%Q /\ (xc == 5)%Q) /\
  aggregate three_runs ["rho"; "eta"] ["avg_abs_vel"; "std_angle"] 10
    = Returned three_runs_stats /\
  nested ["avg_abs_vel"; "std_angle"] three_runs_stats 2 root /\
  follow three_runs_stats root [KNum 1; KNum (1 # 2)] = Some 2%nat /\
  follow three_runs_stats root [KNum 1; KNum (1 # 4)] = Some 3%nat /\
  (exists y, Content.number_at three_runs_stats 2 "std_angle" = Some (Some y) /\
             (y == 6)%Q) /\
  (exists y, Content.number_at three_runs_stats 3 "std_angle" = Some (Some y) /\
             (y == 5)%Q).
Proof.
  pose proof three_runs_aggregated as Hrun.
  split; [reflexivity|]. split.
  { intros batch [<-|[<-|[<-|[]]]]; reflexivity. }
  split.
  { do 3 eexists. do 3 (split; [vm_compute; reflexivity|]).
    split; [reflexivity|]. split; reflexivity. }
  split; [exact Hrun|]. split.
  { exact (proj1 (aggregate_leaves sample_sqrt sample_space sample_angles
                    sample_format sample_psi three_runs ["rho"; "eta"]
                    ["avg_abs_vel"; "std_angle"] 10 three_runs_stats Hrun)). }
  split; [reflexivity|]. split; [reflexivity|]. split.
  - eexists. split; reflexivity.
  - eexists. split; reflexivity.
Qed.

Lemma first_occurrences_set_order : set_order first_occurrences.
Proof.
  intros ks. split.
  - induction ks as [|k0 ks IH]; simpl; [auto|].
    intros k [<-|H]; [auto|]. apply filter_In in H as [H _]. auto.
  - destruct ks; [congruence | discriminate].
Qed.

Lemma incomplete_grid_aggregated :
  results_stats sample_sqrt sample_space sample_angles sample_format sample_psi
    incomplete_grid ["rho"; "eta"; "r"] = Returned incomplete_grid_stats.
Proof. vm_compute. reflexivity. Qed.

(** On the incomplete grid the first curve already has two abscissas
    and one ordinate, whichever third-parameter value comes first. *)
Lemma plot_3param_incomplete_grid (tex_symbol : string -> bool)
    (list_of_set : list key -> list key) (name path : string) :
  set_order list_of_set ->
  plot_3param tex_symbol list_of_set name incomplete_grid_stats (VDict root)
    ["rho"; "eta"; "r"] path = ([], Raised ValueError).
Proof.
  intros Hset. destruct (Hset [KNum 1; KNum 2]) as [Hin Hne].
  unfold plot_3param. vm_compute.
  destruct (list_of_set [KNum 1; KNum 2]) as [|k rest] eqn:E.
  - exfalso. apply Hne; [discriminate | reflexivity].
  - destruct (Hin k (or_introl eq_refl)) as [<-|[<-|[]]]; reflexivity.
Qed.

(** C3.  [plot_3param] is given exactly three parameters and the
    statistics of the incomplete grid, and raises [ValueError] all the
    same: not from its check of the count, but from [plt.plot], whatever
    mathtext can typeset. *)
Theorem plot_3param_raises_with_three_parameters
    (tex_symbol : string -> bool)
    (list_of_set : list key -> list key) (name path : string) :
  set_order list_of_set ->
  length ["rho"; "eta"; "r"] = 3%nat /\
  aggregate incomplete_grid ["rho"; "eta"; "r"] (map fst titles) 10
    = Returned incomplete_grid_stats /\
  result (plot_3param tex_symbol list_of_set name incomplete_grid_stats
            (VDict root) ["rho"; "eta"; "r"] path) = Raised ValueError.
Proof.
  intros Hset. split; [reflexivity|]. split; [vm_compute; reflexivity|].
  rewrite (plot_3param_incomplete_grid tex_symbol list_of_set name path Hset).
  reflexivity.
Qed.

Lemma plot_3param_raises_with_three_parameters_witness :
  set_order first_occurrences /\
  result (plot_3param greek first_occurrences "Vicsek" incomplete_grid_stats
            (VDict root) ["rho"; "eta"; "r"] "out") = Raised ValueError.
Proof.
  split; [exact first_occurrences_set_order|].
  exact (proj2 (proj2 (plot_3param_raises_with_three_parameters
                         greek first_occurrences "Vicsek" "out"
                         first_occurrences_set_order))).
Defined.

(** C4.  [plot_results] with three aggregation parameters over the
    incomplete grid: the statistics are aggregated, and then the first
    curve raises; no curve is drawn and no figure is saved. *)
Theorem plot_results_draws_nothing_on_incomplete_grid
    (list_of_set : list key -> list key) (tex_symbol : string -> bool)
    (find_models : string -> string -> models_dict)
    (path out model : string) (markers : nat) :
  set_order list_of_set ->
  find_models path model = incomplete_grid ->
  plot_results sample_sqrt sample_space sample_angles sample_format sample_psi
    list_of_set tex_symbol find_models path out model ["rho"; "eta"; "r"] markers
  = ([RcParams "figure.figsize" [10; 7]%Z], Raised ValueError).
Proof.
  intros Hset Hfind. unfold plot_results. rewrite Hfind.
  rewrite incomplete_grid_aggregated.
  cbn [length Nat.ltb Nat.leb Nat.eqb incomplete_grid lift Plt.bind Plt.call Plt.ret app].
  rewrite (plot_3param_incomplete_grid tex_symbol list_of_set model out Hset).
  reflexivity.
Qed.

Lemma plot_results_draws_nothing_on_incomplete_grid_witness :
  set_order first_occurrences /\
  plot_results sample_sqrt sample_space sample_angles sample_format sample_psi
    first_occurrences greek (fun _ _ => incomplete_grid) "in" "out" "Vicsek"
    ["rho"; "eta"; "r"] 0
  = ([RcParams "figure.figsize" [10; 7]%Z], Raised ValueError).
Proof.
  split; [exact first_occurrences_set_order|].
  exact (plot_results_draws_nothing_on_incomplete_grid
           first_occurrences greek (fun _ _ => incomplete_grid) "in" "out"
           "Vicsek" 0 first_occurrences_set_order eq_refl).
Defined.

Lemma repeated_aggregated :
  aggregate repeated ["rho"; "eta"] (map fst titles) 10 = Returned repeated_stats.
Proof. vm_compute. reflexivity. Qed.

Lemma repeated_runnable :
  runnable sample_sqrt sample_space sample_angles sample_format sample_psi
    repeated ["rho"; "eta"] (map fst titles) 10.
Proof.
  assert (Hmodel : forall name m, getmodel repeated name = Returned m ->
            m = still 2 (1 # 10) [] \/ m = still 4 (1 # 10) []).
  { intros name m. unfold getmodel, Dict.getitem, repeated. cbn [Dict.lookup].
    destruct (String.eqb "Vicsek" name); [intros [= <-]; auto|].
    destruct (String.eqb "Vicsek-1" name); [intros [= <-]; auto | discriminate]. }
  split; [|split; [|split]].
  - intros p [<-|[<-|[]]]; vm_compute; tauto.
  - intros name [<-|[<-|[]]]; eexists; vm_compute; reflexivity.
  - intros name m p Hm Hp. destruct (Hmodel name m Hm) as [-> | ->];
      vm_compute in Hp; decompose [or] Hp; try contradiction; subst p;
      eexists; vm_compute; reflexivity.
  - intros name m Hm. destruct (Hmodel name m Hm) as [-> | ->];
      (eexists; split; [vm_compute; reflexivity|]);
      intros stat Hs; vm_compute in Hs; decompose [or] Hs; try contradiction;
      subst stat; eexists; vm_compute; reflexivity.
Qed.

Lemma three_runs_runnable :
  runnable sample_sqrt sample_space sample_angles sample_format sample_psi
    three_runs ["rho"; "eta"] ["avg_abs_vel"; "std_angle"] 10.
Proof.
  assert (Hmodel : forall name m, getmodel three_runs name = Returned m ->
            m = turning 1 3 (1 # 2) [("r", 1%Q)] \/
            m = turning 3 5 (1 # 2) [("r", 2%Q)] \/
            m = turning 4 6 (1 # 4) [("r", 1%Q)]).
  { intros name m. unfold getmodel, Dict.getitem, three_runs. cbn [Dict.lookup].
    destruct (String.eqb "Vicsek_a" name); [intros [= <-]; auto|].
    destruct (String.eqb "Vicsek_b" name); [intros [= <-]; auto|].
    destruct (String.eqb "Vicsek_c" name); [intros [= <-]; auto | discriminate]. }
  split; [|split; [|split]].
  - intros p [<-|[<-|[]]]; vm_compute; tauto.
  - intros name [<-|[<-|[<-|[]]]]; eexists; vm_compute; reflexivity.
  - intros name m p Hm Hp. destruct (Hmodel name m Hm) as [-> | [-> | ->]];
      vm_compute in Hp; decompose [or] Hp; try contradiction; subst p;
      eexists; vm_compute; reflexivity.
  - intros name m Hm. destruct (Hmodel name m Hm) as [-> | [-> | ->]];
      (eexists; split; [vm_compute; reflexivity|]);
      intros stat Hs; vm_compute in Hs; decompose [or] Hs; try contradiction;
      subst stat; eexists; vm_compute; reflexivity.
Qed.

(** The nesting of the result of [three_runs]: the batches [Vicsek_a] and
    [Vicsek_c], which agree on [rho] and differ in [eta], share the
    dictionary that [rho = 1] leads to. *)
Lemma aggregate_model_stats_nested_witness :
  (exists h, aggregate three_runs ["rho"; "eta"] ["avg_abs_vel"; "std_angle"] 10
             = Returned h) /\
  nested ["avg_abs_vel"; "std_angle"] three_runs_stats 2 root /\
  exists shared,
    follow three_runs_stats root (map KNum (firstn 1 [1; 1 # 2]%Q)) = Some shared /\
    follow three_runs_stats root (map KNum (firstn 1 [1; 1 # 4]%Q)) = Some shared.
Proof.
  pose proof (aggregate_model_stats_nested
                sample_sqrt sample_space sample_angles sample_format sample_psi
                three_runs ["rho"; "eta"] ["avg_abs_vel"; "std_angle"] 10)
    as [Hreturns Hnested].
  split; [exact (Hreturns three_runs_runnable)|].
  destruct (Hnested three_runs_stats three_runs_aggregated) as (Hn & _ & Hshare).
  split; [exact Hn|].
  refine (Hshare "Vicsek_a" "Vicsek_c" _ _ [1; 1 # 2]%Q [1; 1 # 4]%Q 1%nat
            _ _ eq_refl eq_refl eq_refl eq_refl _).
  - left. reflexivity.
  - right. right. left. reflexivity.
  - repeat constructor.
Defined.

Lemma results_stats_four_statistics_witness :
  results_stats sample_sqrt sample_space sample_angles sample_format sample_psi
    repeated ["rho"; "eta"] = Returned repeated_stats /\
  aggregate (map_models (without_first 10) repeated) ["rho"; "eta"]
    ["avg_abs_vel"; "std_angle"; "std_dist_cmass"; "psi_cmass"] 0
  = Returned repeated_stats.
Proof.
  split; [exact repeated_aggregated|].
  exact (proj2 (proj2 (results_stats_four_statistics
                  sample_sqrt sample_space sample_angles sample_format sample_psi
                  repeated ["rho"; "eta"] repeated_stats repeated_aggregated))).
Defined.

(** C6.  The only experiment loaded is a repeat, whose first run is not
    loaded.  It is in no batch: the aggregation that [plot_results] asks
    for returns the empty dictionary, and no statistic of the experiment
    is anywhere in it. *)
Theorem orphan_is_not_aggregated :
  getmodel orphan "Vicsek-1" = Returned (still 2 (1 # 10) []) /\
  batch_names orphan = [] /\
  results_stats sample_sqrt sample_space sample_angles sample_format sample_psi
    orphan ["rho"; "eta"] = Returned fresh_store /\
  ~ exists path leaf stat,
      follow fresh_store root path = Some leaf /\ has_number leaf stat fresh_store.
Proof.
  split; [reflexivity|]. split; [reflexivity|]. split; [vm_compute; reflexivity|].
  intros (path & leaf & stat & Hf & x & Hx).
  destruct path as [|k path]; [|discriminate Hf].
  injection Hf as <-. discriminate Hx.
Qed.
End AggregateCases.

(** ** util/plot.py: what the functions draw, and when they raise *)

Module FigureFacts.
Import Py Plt Plot Figures PlotFacts.
Local Open Scope Q_scope.

(** *** prepare_state_plot *)

Lemma In_range (n k : Z) : In k (range n) <-> (0 <= k < n)%Z.
Proof.
  unfold range. rewrite in_map_iff. split.
  - intros (i & <- & Hi). apply in_seq in Hi. lia.
  - intros H. exists (Z.to_nat k). split; [lia|]. apply in_seq. lia.
Qed.

(** An integer is at most a number exactly when it is at most its floor. *)
Lemma floor_ge (l : Q) (k : Z) : (k <= Qfloor l)%Z <-> inject_Z k <= l.
Proof.
  split.
  - intros H. apply Qle_trans with (inject_Z (Qfloor l)); [|apply Qfloor_le].
    rewrite <- Zle_Qle. exact H.
  - intros H. apply Qfloor_resp_le in H. rewrite Qfloor_Z in H. exact H.
Qed.

Lemma surface_after_settings (blocking : bool) (s : surface) (l : Q) :
  surface_after blocking s (calls (prepare_state_plot l)) = s.
Proof.
  unfold prepare_state_plot. destruct (Qltb l 20); reflexivity.
Qed.

(** X1.  [prepare_state_plot] always returns and draws nothing: it only
    changes settings.  For a size [l] of 20 or more it sets no ticks;
    for [0 <= l < 20] both axes get the same ticks, exactly the integers
    from 0 to [l]. *)
Theorem prepare_state_plot_ticks (l : Q) :
  result (prepare_state_plot l) = Returned tt /\
  (forall blocking s, surface_after blocking s (calls (prepare_state_plot l)) = s) /\
  (20 <= l ->
   calls (prepare_state_plot l) =
     [Axis 0 l 0 l; StyleUse "dark_background"; Gca; SetAspect "equal"]) /\
  (0 <= l -> l < 20 ->
   exists ticks,
     calls (prepare_state_plot l) =
       [Axis 0 l 0 l; StyleUse "dark_background"; Gca; SetAspect "equal";
        SetXTicks ticks; SetYTicks ticks] /\
     forall k, In k ticks <-> (0 <= k)%Z /\ inject_Z k <= l).
Proof.
  split; [apply prepare_state_plot_returns|].
  split; [intros; apply surface_after_settings|].
  split.
  - intros H. unfold prepare_state_plot.
    rewrite (proj2 (Qltb_false l 20) H). reflexivity.
  - intros H0 H20. unfold prepare_state_plot.
    rewrite (proj2 (Qltb_true l 20) H20).
    eexists. split; [reflexivity|].
    intros k. rewrite In_range. unfold int_of_float.
    rewrite (proj2 (Qle_bool_iff 0 l) H0).
    rewrite <- floor_ge. lia.
Qed.

(** *** plot_oscillator and plot_state_oscillators *)

Lemma fade_alpha_out_of_range (p : Q) :
  p < - np_pi \/ 2 * np_pi < p -> valid_alpha (Some (fade_alpha p)) = false.
Proof.
  intros H. pose proof np_pi_pos as Hpi.
  destruct (valid_alpha (Some (fade_alpha p))) eqn:E; [|reflexivity].
  apply valid_alpha_iff in E. destruct E as [E0 E1]. exfalso.
  unfold fade_alpha in E0, E1.
  destruct (Qltb np_pi p) eqn:E2.
  - apply Qltb_true in E2. destruct H as [H|H]; [lra|].
    apply (Qlt_not_le _ _ (Qlt_shift_div_r _ _ _ Hpi
             (ltac:(lra) : 2 * np_pi - p < 0 * np_pi)) E0).
  - apply Qltb_false in E2. destruct H as [H|H]; [|lra].
    assert (E3 : Qltb p 0 = true) by (apply Qltb_true; lra).
    rewrite E3 in E1.
    assert (Ha : Qabs p == - p) by (apply Qabs_neg; lra).
    apply (Qlt_not_le _ _ (Qlt_shift_div_l _ _ _ Hpi
             (ltac:(rewrite Ha; lra) : 1 * np_pi < Qabs p)) E1).
Qed.

(** Outside the range, [plt.scatter] refuses the opacity. *)
Lemma fade_out_of_range_raises (X : Q * Q) (p f dt : Q) (col1 col2 : string) :
  p < - np_pi \/ 2 * np_pi < p ->
  plot_oscillator X p f dt false col1 col2 = ([], Raised ValueError).
Proof.
  intros H. destruct X as [x y]. unfold plot_oscillator, plt_scatter.
  rewrite (fade_alpha_out_of_range p H). reflexivity.
Qed.

(** X2.  In fade mode a phase below [-pi] or above [2 pi] makes
    [plot_oscillator] raise [ValueError] before anything is drawn: the
    opacity that it computes is then outside 0-1.  So in fade mode it
    returns exactly for the phases between [-pi] and [2 pi]. *)
Theorem plot_oscillator_fade_out_of_range
    (X : Q * Q) (p f dt : Q) (col1 col2 : string) :
  (p < - np_pi \/ 2 * np_pi < p ->
   plot_oscillator X p f dt false col1 col2 = ([], Raised ValueError)) /\
  (result (plot_oscillator X p f dt false col1 col2) = Returned tt <->
   - np_pi <= p /\ p <= 2 * np_pi).
Proof.
  split; [apply fade_out_of_range_raises|]. split.
  - intros Hr.
    destruct (Qlt_le_dec p (- np_pi)) as [Hlo|Hlo];
      [rewrite fade_out_of_range_raises in Hr by (left; exact Hlo); discriminate|].
    destruct (Qlt_le_dec (2 * np_pi) p) as [Hhi|Hhi];
      [rewrite fade_out_of_range_raises in Hr by (right; exact Hhi); discriminate|].
    split; assumption.
  - intros [Hlo Hhi]. rewrite plot_oscillator_fade by assumption. reflexivity.
Qed.




(** *** plot_trajectory *)

Lemma lookup_slice {A} (lo hi : nat) (xs : list A) (i : nat) :
  slice lo hi xs !! i = if (lo + i <? hi)%nat then xs !! (lo + i)%nat else None.
Proof.
  unfold slice. rewrite lookup_drop.
  destruct (Nat.ltb_spec (lo + i) hi) as [H|H].
  - apply lookup_take_lt. exact H.
  - apply lookup_take_ge. exact H.
Qed.

(** X4.  The part of the trajectory that [plot_trajectory] plots:
    positions [t - dt - 1] to [t] when [dt < t], positions 0 to [t]
    otherwise, as far as the array goes; never more than [dt + 2]
    positions, and exactly [dt + 2], ending at position [t], when
    [dt < t < len(Xt)]. *)
Theorem window_positions (t dt : nat) (Xt : list (Q * Q)) :
  (forall i, window t dt Xt !! i =
     if (dt <? t)%nat
     then (if (i <=? dt + 1)%nat then Xt !! (t - dt - 1 + i)%nat else None)
     else (if (i <=? t)%nat then Xt !! i else None)) /\
  (length (window t dt Xt) <= dt + 2)%nat /\
  ((dt < t)%nat -> (t < length Xt)%nat ->
   length (window t dt Xt) = (dt + 2)%nat /\
   window t dt Xt !! (dt + 1)%nat = Xt !! t).
Proof.
  split; [|split].
  - intros i. unfold window. destruct (Nat.ltb_spec dt t) as [H|H];
      rewrite lookup_slice.
    + destruct (Nat.ltb_spec (t - dt - 1 + i) (t + 1)), (Nat.leb_spec i (dt + 1));
        try reflexivity; lia.
    + simpl. destruct (Nat.ltb_spec i (t + 1)), (Nat.leb_spec i t);
        try reflexivity; lia.
  - unfold window, slice. destruct (Nat.ltb_spec dt t);
      rewrite length_skipn, length_firstn; lia.
  - intros Hdt Ht. unfold window. rewrite (proj2 (Nat.ltb_lt dt t) Hdt). split.
    + unfold slice. rewrite length_skipn, length_firstn. lia.
    + rewrite lookup_slice.
      destruct (Nat.ltb_spec (t - dt - 1 + (dt + 1)) (t + 1)); [|lia].
      f_equal. lia.
Qed.

(** The converse of [visible_entry] for the exact differences: a position
    whose successor, if any, is nearer than [l - 1] is left visible. *)
Lemma entry_visible (l : Q) (data : list Q) (i : nat) (x : Q) :
  data !! i = Some x ->
  (forall x', data !! S i = Some x' -> Qabs (x' - x) < l - 1) ->
  map unmask (combine data (jump_mask l data)) !! i = Some (Number x).
Proof.
  revert i. induction data as [|x0 tl IH]; intros i Hi Hj.
  { destruct i; discriminate. }
  destruct tl as [|y tl].
  - destruct i as [|i]; [|destruct i; discriminate].
    simpl in Hi. injection Hi as ->. reflexivity.
  - change (jump_mask l (x0 :: y :: tl))
      with (Qle_bool (l - 1) (Qabs (y - x0)) :: jump_mask l (y :: tl)).
    destruct i as [|i].
    + simpl in Hi. injection Hi as ->.
      specialize (Hj y eq_refl). apply Qltb_true in Hj. unfold Qltb in Hj.
      apply negb_true_iff in Hj. cbn [combine map lookup list_lookup].
      unfold unmask at 1. cbn [snd fst]. rewrite Hj. reflexivity.
    + cbn [combine map]. apply (IH i Hi Hj).
Qed.

Lemma visible_point_at (l : Q) (W : list (Q * Q)) (i : nat) (p : Q * Q) :
  W !! i = Some p ->
  (forall q, W !! S i = Some q ->
     Qabs (fst q - fst p) < l - 1 /\ Qabs (snd q - snd p) < l - 1) ->
  point_at (map unmask (combine (map fst W) (jump_mask l (map fst W))))
           (map unmask (combine (map snd W) (jump_mask l (map snd W)))) i = Some p.
Proof.
  intros Hp Hj. unfold point_at.
  rewrite (entry_visible l (map fst W) i (fst p)).
  - rewrite (entry_visible l (map snd W) i (snd p)).
    + destruct p; reflexivity.
    + rewrite lookup_map, Hp. reflexivity.
    + intros y. rewrite lookup_map. destruct (W !! S i) as [q|] eqn:E; [|discriminate].
      intros [= <-]. apply (Hj q eq_refl).
  - rewrite lookup_map, Hp. reflexivity.
  - intros x. rewrite lookup_map. destruct (W !! S i) as [q|] eqn:E; [|discriminate].
    intros [= <-]. apply (Hj q eq_refl).
Qed.

(** X5.  For [t > 0] and a window that is not empty, [plot_trajectory]
    issues one [plt.plot] of as many points as the window has positions,
    in the colour given and at opacity 0.3 for grey and 1 otherwise.  A
    visible point is the position of the window at its index, and the
    step from it to its successor is smaller than [l - 1] along both
    axes: a step of [l - 1] or more hides the position that it starts
    from, and with it the segment that leads there; the last position is
    always visible. *)
Theorem plot_trajectory_visible_positions
    (t : nat) (Xt : list (Q * Q)) (l : Q) (col : string) (dt : nat) :
  (0 < t)%nat -> window t dt Xt <> [] ->
  exists xs ys,
    plot_trajectory t Xt l col dt =
      ([Plot xs ys
          {| kw_color := Named col; kw_linestyle := None; kw_marker := None;
             kw_label := None;
             kw_alpha := Some (if String.eqb col "grey" then 3 # 10 else 1);
             kw_linewidth := None |}], Returned tt) /\
    length xs = length (window t dt Xt) /\
    length ys = length (window t dt Xt) /\
    (forall i p,
       point_at xs ys i = Some p ->
       window t dt Xt !! i = Some p /\
       forall q, window t dt Xt !! S i = Some q ->
         Qabs (fst q - fst p) < l - 1 /\ Qabs (snd q - snd p) < l - 1) /\
    (forall i p q,
       window t dt Xt !! S i = Some p -> window t dt Xt !! S (S i) = Some q ->
       l - 1 <= Qabs (fst q - fst p) \/ l - 1 <= Qabs (snd q - snd p) ->
       segment_drawn xs ys i = false) /\
    (forall p, window t dt Xt !! (length (window t dt Xt) - 1)%nat = Some p ->
       point_at xs ys (length (window t dt Xt) - 1) = Some p).
Proof.
  intros Hpos Hne. unfold plot_trajectory.
  set (W := window t dt Xt) in *.
  rewrite (proj2 (Nat.ltb_lt 0 t) Hpos).
  assert (Hx : map fst W <> []) by (destruct W; [congruence | discriminate]).
  assert (Hy : map snd W <> []) by (destruct W; [congruence | discriminate]).
  unfold masked_array.
  rewrite (length_jump_mask l _ Hx), (length_jump_mask l _ Hy), !Nat.eqb_refl.
  unfold ret. rewrite !bind_ret_l. unfold plt_plot.
  assert (Lx : length (map unmask (combine (map fst W) (jump_mask l (map fst W))))
               = length W)
    by (rewrite length_map, length_combine, (length_jump_mask l _ Hx), length_map;
        apply Nat.min_id).
  assert (Ly : length (map unmask (combine (map snd W) (jump_mask l (map snd W))))
               = length W)
    by (rewrite length_map, length_combine, (length_jump_mask l _ Hy), length_map;
        apply Nat.min_id).
  rewrite Lx, Ly, Nat.eqb_refl.
  assert (Ha : valid_alpha (Some (if String.eqb col "grey" then 3 # 10 else 1)) = true)
    by (destruct (String.eqb col "grey"); reflexivity).
  cbn [kw_alpha]. rewrite Ha. cbn [andb].
  do 2 eexists. split; [reflexivity|]. split; [exact Lx|]. split; [exact Ly|].
  assert (Hiff : forall i p,
       point_at (map unmask (combine (map fst W) (jump_mask l (map fst W))))
                (map unmask (combine (map snd W) (jump_mask l (map snd W)))) i = Some p <->
       W !! i = Some p /\
       forall q, W !! S i = Some q ->
         Qabs (fst q - fst p) < l - 1 /\ Qabs (snd q - snd p) < l - 1).
  { intros i p. split.
    - apply point_at_visible.
    - intros [H1 H2]. apply visible_point_at; assumption. }
  split; [intros i p; apply Hiff|]. split.
  - intros i p q Hp Hq Hjump. unfold segment_drawn.
    destruct (point_at _ _ i); [|reflexivity].
    destruct (point_at _ _ (S i)) as [p'|] eqn:E; [|reflexivity].
    apply Hiff in E. destruct E as [E1 E2].
    assert (p' = p) as -> by congruence.
    destruct (E2 q Hq) as [Jx Jy]. exfalso.
    destruct Hjump as [Hj|Hj];
      [apply (Qlt_not_le _ _ Jx Hj) | apply (Qlt_not_le _ _ Jy Hj)].
  - intros p Hp. apply Hiff. split; [exact Hp|].
    intros q Hq. apply lookup_lt_Some in Hq. apply lookup_lt_Some in Hp. lia.
Qed.

(** *** Loops over the particles *)

Lemma index_app_head {A} (p s : list A) (x : A) :
  index (p ++ x :: s) (length p) = ([], Returned x).
Proof.
  unfold index. rewrite lookup_app_r, Nat.sub_diag by lia. reflexivity.
Qed.




(** *** What is saved *)

Lemma saved_figures_app (blocking : bool) (s : surface) (w1 w2 : list plt_call) :
  saved_figures blocking s (w1 ++ w2) =
  saved_figures blocking s w1 ++
  saved_figures blocking (surface_after blocking s w1) w2.
Proof.
  revert s. induction w1 as [|c w1 IH]; intros s; [reflexivity|].
  cbn [app saved_figures surface_after fold_left]. rewrite IH, <- app_assoc.
  reflexivity.
Qed.

(** Calls that only draw or set leave everything on the surface, add their
    drawings to the axes, and save nothing. *)
Lemma quiet_calls (blocking : bool) (s : surface) (w : list plt_call) :
  Forall (fun c => quiet c = true) w ->
  surface_after blocking s w =
    {| on_axes := on_axes s ++ List.filter artist w; on_figure := on_figure s |} /\
  saved_figures blocking s w = [].
Proof.
  intros H. revert s. induction H as [|c w Hc _ IH]; intros s.
  { simpl. rewrite app_nil_r. destruct s; split; reflexivity. }
  cbn [surface_after fold_left saved_figures List.filter].
  destruct (IH (draw blocking s c)) as [IH1 IH2]. unfold surface_after in IH1.
  rewrite IH1, IH2.
  destruct c; try discriminate Hc; cbn [draw artist on_axes on_figure app];
    rewrite <- ?app_assoc; split; reflexivity.
Qed.

Lemma saves_frame_bind {A} (file title : text) (show : bool)
    (m : run A) (k : A -> run unit) :
  Forall (fun c => quiet c = true) (calls m) ->
  (forall a, saves_frame file title show (k a)) ->
  saves_frame file title show (bind m k).
Proof.
  intros Hq Hk. unfold saves_frame. rewrite result_bind, calls_bind.
  destruct (result m) as [a|e]; [|discriminate].
  intros Hr blocking s. rewrite saved_figures_app.
  destruct (quiet_calls blocking s (calls m) Hq) as [-> ->].
  rewrite (Hk a Hr). cbn [app on_axes]. rewrite List.filter_app, app_assoc.
  reflexivity.
Qed.

(** The tail of a frame saves what is on the surface once the labels are
    set. *)
Lemma saves_frame_finish (lab : list plt_call) (file title : text) (show : bool) :
  Forall (fun c => quiet c = true) lab ->
  saves_frame file title show
    (finish_frame (lab ++ [Suptitle title], Returned tt) file true show).
Proof.
  intros Hq _ blocking s.
  assert (E : calls (finish_frame (lab ++ [Suptitle title], Returned tt) file true show)
              = lab ++ Suptitle title :: (if show then [Show] else [])
                    ++ [Savefig file; Close; Cla]).
  { unfold finish_frame. destruct show; cbn [bind call ret app calls fst];
      rewrite <- ?app_assoc; reflexivity. }
  rewrite E, saved_figures_app, List.filter_app.
  destruct (quiet_calls blocking s lab Hq) as [-> ->].
  destruct show, blocking; cbn; rewrite ?app_nil_r; reflexivity.
Qed.

Lemma quiet_for_each {A} (xs : list A) (body : A -> run unit) :
  (forall x, Forall (fun c => quiet c = true) (calls (body x))) ->
  Forall (fun c => quiet c = true) (calls (for_each xs body)).
Proof.
  intros H. induction xs as [|x xs IH]; [constructor|].
  cbn [for_each]. rewrite calls_bind. apply Forall_app. split; [apply H|].
  destruct (result (body x)); [exact IH | constructor].
Qed.




Lemma quiet_plot_trajectory (t : nat) (Xt : list (Q * Q)) (l : Q) (col : string)
    (dt : nat) :
  Forall (fun c => quiet c = true) (calls (plot_trajectory t Xt l col dt)).
Proof.
  unfold plot_trajectory. destruct (0 <? t)%nat; [|constructor].
  unfold masked_array.
  repeat match goal with
         | |- context [if ?b then ret _ else raise _] => destruct b
         end; try constructor.
  unfold ret. rewrite !bind_ret_l. unfold plt_plot.
  match goal with |- context [if ?b then _ else _] => destruct b end;
    repeat constructor.
Qed.


Section WithGeometry.
Variable ang_to_vec : Q -> Q * Q.
Variable sum_vec_ang : list Q -> list Q -> Q * Q.
Variable centre_of_mass : list (Q * Q) -> Q -> EnumBounds -> Q * Q.

Lemma index_app_end {A} (p : list A) :
  index (p ++ []) (length p) = ([], Raised IndexError).
Proof.
  unfold index. rewrite lookup_app_r, Nat.sub_diag by lia. reflexivity.
Qed.

(** The loop that draws the arrows: one per particle, until an array runs
    out. *)
Lemma vectors_loop (Xp Xs : list (Q * Q)) (Ap As Vp Vs : list Q) :
  length Ap = length Xp -> length Vp = length Xp ->
  for_each (seq (length Xp) (length Xs)) (fun i =>
     bind (index (Xp ++ Xs) i) (fun Xi =>
     bind (index (Ap ++ As) i) (fun Ai =>
     bind (index (Vp ++ Vs) i) (fun Vi =>
     plot_vector_ang ang_to_vec Xi Ai Vi "w")))) =
  (map (fun xav : Q * Q * Q * Q =>
          Quiver (fst (fst (fst xav))) (snd (fst (fst xav)))
            (fst (ang_to_vec (snd (fst xav))) * snd xav)
            (snd (ang_to_vec (snd (fst xav))) * snd xav) "w")
       (combine (combine Xs As) Vs),
   if (length Xs <=? length As)%nat && (length Xs <=? length Vs)%nat
   then Returned tt else Raised IndexError).
Proof.
  revert Xp Ap As Vp Vs. induction Xs as [|x Xs IH]; intros Xp Ap As Vp Vs HA HV.
  { reflexivity. }
  cbn [length seq for_each].
  rewrite index_app_head, bind_ret_l.
  rewrite <- HA.
  destruct As as [|a As]; [rewrite index_app_end; reflexivity|].
  rewrite index_app_head, bind_ret_l.
  rewrite HA, <- HV.
  destruct Vs as [|v Vs].
  { rewrite index_app_end. simpl. rewrite andb_false_r. reflexivity. }
  rewrite index_app_head, bind_ret_l. rewrite HV.
  specialize (IH (Xp ++ [x]) (Ap ++ [a]) As (Vp ++ [v]) Vs).
  rewrite !length_app in IH. cbn [length] in IH.
  rewrite <- !app_assoc in IH. cbn [app] in IH.
  replace (length Xp + 1)%nat with (S (length Xp)) in IH by lia.
  rewrite IH by lia.
  destruct x as [x y]. cbn [plot_vector_ang call bind app combine map fst snd length].
  reflexivity.
Qed.

Lemma vectors_loop_all (X : list (Q * Q)) (A V : list Q) :
  for_each (seq 0 (length X)) (fun i =>
     bind (index X i) (fun Xi =>
     bind (index A i) (fun Ai =>
     bind (index V i) (fun Vi =>
     plot_vector_ang ang_to_vec Xi Ai Vi "w")))) =
  (map (fun xav : Q * Q * Q * Q =>
          Quiver (fst (fst (fst xav))) (snd (fst (fst xav)))
            (fst (ang_to_vec (snd (fst xav))) * snd xav)
            (snd (ang_to_vec (snd (fst xav))) * snd xav) "w")
       (combine (combine X A) V),
   if (length X <=? length A)%nat && (length X <=? length V)%nat
   then Returned tt else Raised IndexError).
Proof. exact (vectors_loop [] X [] A [] V eq_refl eq_refl). Qed.


(** X7.  When [A] or [V] is shorter than [X], [plot_state_vectors] raises
    [IndexError] at the first particle without an angle or a velocity:
    the arrows of the particles before it are drawn, nothing is labelled
    or saved, and the axes are not cleared. *)
Theorem plot_state_vectors_short_arrays (t : nat) (X : list (Q * Q)) (A V : list Q) (l : Q)
    (title subtitle path : string) (sumvec save show : bool) :
  (length A < length X)%nat \/ (length V < length X)%nat ->
  plot_state_vectors ang_to_vec sum_vec_ang
    t X A V l title subtitle path sumvec save show =
  (calls (prepare_state_plot l) ++
   map (fun xav : Q * Q * Q * Q =>
          Quiver (fst (fst (fst xav))) (snd (fst (fst xav)))
            (fst (ang_to_vec (snd (fst xav))) * snd xav)
            (snd (ang_to_vec (snd (fst xav))) * snd xav) "w")
       (combine (combine X A) V),
   Raised IndexError) /\
  length (combine (combine X A) V) = Nat.min (length A) (length V).
Proof.
  intros H. split.
  2:{ rewrite !length_combine. lia. }
  unfold plot_state_vectors.
  rewrite vectors_loop_all.
  assert (E : (length X <=? length A)%nat && (length X <=? length V)%nat = false).
  { apply andb_false_iff.
    destruct H; [left | right]; apply Nat.leb_gt; assumption. }
  rewrite E.
  rewrite (run_eta (prepare_state_plot l)), prepare_state_plot_returns.
  reflexivity.
Qed.




(** X10.  [plot_trajectories] clears the axes first: the figure that it
    saves holds its own drawings only, whatever was on the surface
    before; it is blank when the figure was shown first and [plt.show()]
    blocks. *)
Theorem plot_trajectories_saves_its_own_drawing
    (X : traj3) (M : list (Q * Q)) (l : Q)
    (name title suptitle path : string) (show : bool) :
  result (plot_trajectories X M l name title suptitle path true show) = Returned tt ->
  forall blocking s,
    saved_figures blocking s
      (calls (plot_trajectories X M l name title suptitle path true show)) =
    [([Str path; Str "/trajectories_"; Str name; Str ".png"],
      if show && blocking then blank
      else {| on_axes :=
                List.filter artist
                  (calls (plot_trajectories X M l name title suptitle path true show));
              on_figure := [Suptitle [Str suptitle]] |})].
Proof.
  unfold plot_trajectories.
  set (rest := bind (for_each _ _) _).
  assert (Hrest : saves_frame [Str path; Str "/trajectories_"; Str name; Str ".png"]
                    [Str suptitle] show rest).
  { unfold rest.
    apply saves_frame_bind; [|intros _].
    { apply quiet_for_each. intros i. apply quiet_plot_trajectory. }
    apply saves_frame_bind; [apply quiet_plot_trajectory | intros _].
    apply (saves_frame_finish [Title [Str title]]). repeat constructor. }
  rewrite result_bind, calls_bind. cbn [call result calls fst snd app].
  intros Hr blocking s. cbn [saved_figures app draw].
  rewrite (Hrest Hr). reflexivity.
Qed.

End WithGeometry.
End FigureFacts.

(** ** analysis/plot_aggregate.py: what is averaged, what is plotted *)

Module ContentFacts.
Import Py Plt Store Aggregate Figures Content StoreFacts PlotFacts AggregateFacts.
Local Open Scope py_scope.

(** *** Checks and run numbers *)

Lemma in_list_true (p : string) (l : list string) : in_list p l = true <-> In p l.
Proof.
  split; [|apply in_list_In]. unfold in_list. rewrite existsb_exists.
  intros (q & Hq & E). apply String.eqb_eq in E. subst. exact Hq.
Qed.

(** The loop that checks [param_list]. *)
Lemma check_params (mp pl : list string) :
  foldM (fun (_ : unit) p =>
           if in_list p mp then Returned tt else Raised ValueError) pl tt =
  if forallb (fun p => in_list p mp) pl then Returned tt else Raised ValueError.
Proof.
  induction pl as [|p pl IH]; [reflexivity|].
  cbn [foldM forallb]. destruct (in_list p mp); [exact IH | reflexivity].
Qed.

Lemma sorted_nil : Str.sorted [] = [].
Proof. reflexivity. Qed.

Lemma mapM_inv {A B} (f : A -> outcome B) (xs : list A) (ys : list B) :
  mapM f xs = Returned ys ->
  forall x, In x xs -> exists y, f x = Returned y /\ In y ys.
Proof.
  revert ys. induction xs as [|x xs IH]; intros ys H z Hz; [destruct Hz|].
  simpl in H. apply obind_returned in H as (y & Hy & H).
  apply obind_returned in H as (ys' & Hys & H). injection H as <-.
  destruct Hz as [<-|Hz].
  - exists y. split; [exact Hy | left; reflexivity].
  - destruct (IH ys' Hys z Hz) as (y' & H1 & H2). exists y'. split; [exact H1|].
    right. exact H2.
Qed.

(** Every round of a loop that returned has returned. *)
Lemma foldM_rounds {A S} (body : S -> A -> outcome S) (xs : list A) (s s' : S) :
  foldM body xs s = Returned s' ->
  forall x, In x xs -> exists s1 s2, body s1 x = Returned s2.
Proof.
  revert s. induction xs as [|x xs IH]; intros s H z Hz; [destruct Hz|].
  simpl in H. apply obind_returned in H as (s1 & H1 & H).
  destruct Hz as [<-|Hz]; [eauto | eapply IH; eauto].
Qed.

Lemma digit_of_nonneg (c : ascii) (d : Z) : Str.digit_of c = Some d -> (0 <= d)%Z.
Proof.
  unfold Str.digit_of. destruct (_ && _); [|discriminate].
  intros [= <-]. lia.
Qed.

Lemma digits_nonneg (s : string) (acc z : Z) :
  (0 <= acc)%Z -> Str.digits acc s = Some z -> (0 <= z)%Z.
Proof.
  revert acc. induction s as [|c s IH]; intros acc Hacc H.
  - injection H as <-. exact Hacc.
  - simpl in H. destruct (Str.digit_of c) as [d|] eqn:E; [|discriminate].
    apply digit_of_nonneg in E. apply (IH (10 * acc + d)%Z); [lia | exact H].
Qed.

Lemma run_index_nonneg (m : string) (z : Z) : run_index m = Returned z -> (0 <= z)%Z.
Proof.
  unfold run_index. destruct (1 <? _)%nat; [|intros [= <-]; lia].
  unfold Str.int. destruct (nth 1 (Str.split "-" m) EmptyString) as [|c s] eqn:E;
    [discriminate|].
  destruct (Str.digits 0 (String c s)) as [z'|] eqn:D; [|discriminate].
  intros [= <-]. apply (digits_nonneg (String c s) 0%Z); [lia | exact D].
Qed.

Lemma fold_max_ge (rest : list Z) (i : Z) :
  (i <= fold_left Z.max rest i)%Z /\
  forall z, In z rest -> (z <= fold_left Z.max rest i)%Z.
Proof.
  revert i. induction rest as [|y rest IH]; intros i; [split; [simpl; lia | intros z []]|].
  cbn [fold_left]. destruct (IH (Z.max i y)) as [H1 H2]. split; [lia|].
  intros z [<-|Hz]; [lia | apply H2, Hz].
Qed.

(** [count] is one more than the largest run number, and run numbers are
    not negative. *)
Lemma count_runs_bounds (exps : list string) (count : Z) :
  count_runs exps = Returned count ->
  (1 <= count)%Z /\
  forall exp, In exp exps ->
    exists z, run_index exp = Returned z /\ (0 <= z < count)%Z.
Proof.
  unfold count_runs. intros H. apply obind_returned in H as (idx & Hidx & H).
  destruct idx as [|i rest]; [discriminate|]. injection H as <-.
  destruct (fold_max_ge rest i) as [Hi Hrest].
  assert (Hall : forall exp, In exp exps ->
            exists z, run_index exp = Returned z /\
                      (0 <= z < fold_left Z.max rest i + 1)%Z).
  { intros exp Hin. destruct (mapM_inv _ _ _ Hidx exp Hin) as (z & Hz & Hzin).
    exists z. split; [exact Hz|]. pose proof (run_index_nonneg _ _ Hz).
    destruct Hzin as [<-|Hzin]; [lia|]. specialize (Hrest z Hzin). lia. }
  split; [|exact Hall].
  destruct exps as [|e exps]; [discriminate|].
  destruct (Hall e (or_introl eq_refl)) as (z & _ & Hz). lia.
Qed.

(** *** The effect of each loop on the store *)

Lemma number_at_set (h : store) (a : addr) (stat stat' : string) (x : pyfloat) :
  (a < length h)%nat ->
  number_at (write h a (Dict.set_item key_eqb (read h a) (KStr stat) (VFloat x)))
    a stat' =
  if String.eqb stat stat' then Some x else number_at h a stat'.
Proof.
  intros Hlt. unfold number_at. rewrite read_write_eq by exact Hlt.
  rewrite lookup_set_item. cbn [key_eqb]. destruct (String.eqb stat stat'); reflexivity.
Qed.

Lemma tree_set_number (h : store) (a : addr) (k : key) (x : pyfloat) :
  (a < length h)%nat -> tree h ->
  tree (write h a (Dict.set_item key_eqb (read h a) k (VFloat x))).
Proof.
  intros Hlt Ht a1 a2 k1 k2 c H1 H2.
  assert (Hold : forall b k', In (k', VDict c)
              (read (write h a (Dict.set_item key_eqb (read h a) k (VFloat x))) b) ->
            In (k', VDict c) (read h b)).
  { intros b k' Hin. destruct (Nat.eq_dec a b) as [<-|Hne].
    - rewrite read_write_eq in Hin by exact Hlt.
      apply In_set_item in Hin as [Hin|[Hv _]]; [exact Hin | discriminate].
    - rewrite read_write_ne in Hin by exact Hne. exact Hin. }
  apply (Ht a1 a2 k1 k2 c); apply Hold; assumption.
Qed.

Section Typing.
Variable names : list string.

(** A reference leads to a dictionary of the store. *)
Lemma refs_in_range (D : list nat) (h : store) (a c : addr) (k : key) :
  typed names D h -> In (k, VDict c) (read h a) -> (c < length h)%nat.
Proof.
  intros Ht Hin. destruct (D !! a) as [d|] eqn:Ha.
  - pose proof (proj2 Ht a d k (VDict c) Ha Hin) as Hok.
    destruct d as [|d], k as [q|s]; simpl in Hok; try contradiction.
    rewrite <- (proj1 Ht). eapply lookup_lt_Some, Hok.
  - apply lookup_ge_None in Ha. rewrite (proj1 Ht) in Ha.
    rewrite read_out_of_range in Hin by exact Ha. destruct Hin.
Qed.

(** One round of the loop over [param_list], in full. *)
Lemma descend_effect (D : list nat) (h : store) (a d : nat) (pval : Q)
    (h' : store) (v : value) :
  typed names D h -> D !! a = Some (S d) ->
  descend h (VDict a) pval = Returned (h', v) ->
  exists E a',
    v = VDict a' /\ typed names (D ++ E) h' /\ (D ++ E) !! a' = Some d /\
    ext h h' /\
    Dict.lookup key_eqb (read h' a) (KNum pval) = Some (VDict a') /\
    (forall b, b <> a -> read h' b = read h b) /\
    (tree h -> tree h') /\
    (E = [] \/ (E = [d] /\ a' = length D)).
Proof.
  intros Ht Ha Hrun. pose proof (typed_lt names D h a _ Ht Ha) as Hlt.
  destruct (descend_spec names D h a d pval h' v Ht Ha Hrun)
    as (D' & a' & -> & Ht' & [E ->] & Ha' & He & Hl).
  exists E, a'. split; [reflexivity|]. split; [exact Ht'|]. split; [exact Ha'|].
  split; [exact He|]. split; [exact Hl|].
  pose proof (proj1 Ht') as Hlen. rewrite length_app, (proj1 Ht) in Hlen.
  unfold descend in Hrun.
  destruct (Dict.mem key_eqb (read h a) (KNum pval)) eqn:M.
  - apply obind_returned in Hrun as (w & _ & Hrun). injection Hrun as <- _.
    split; [reflexivity|]. split; [exact (fun H => H)|].
    left. destruct E; [reflexivity | simpl in Hlen; lia].
  - unfold alloc in Hrun. apply obind_returned in Hrun as (w & Hw & Hrun).
    injection Hrun as <- ->.
    unfold subscript, Dict.getitem in Hw.
    rewrite read_write_eq in Hw by (rewrite length_app; simpl; lia).
    rewrite lookup_set_item, key_eqb_refl in Hw. injection Hw as <-.
    rewrite length_write, length_app in Hlen. cbn [length] in Hlen.
    split.
    { intros b Hb. rewrite read_write_ne by congruence. apply read_alloc. }
    split.
    { intros Htree a1 a2 k1 k2 c H1 H2.
      assert (Hcase : forall b k', In (k', VDict c)
                (read (write (h ++ [[]]) a
                        (Dict.set_item key_eqb (read (h ++ [[]]) a) (KNum pval)
                           (VDict (length h)))) b) ->
              In (k', VDict c) (read h b) \/
              (b = a /\ c = length h /\ key_eqb k' (KNum pval) = true)).
      { intros b k' Hin. destruct (Nat.eq_dec a b) as [<-|Hne].
        - rewrite read_write_eq in Hin by (rewrite length_app; simpl; lia).
          rewrite read_alloc in Hin.
          apply In_set_item in Hin as [Hin|[Hv Hk]]; [left; exact Hin|].
          right. injection Hv as ->. auto.
        - rewrite read_write_ne, read_alloc in Hin by exact Hne. left. exact Hin. }
      destruct (Hcase _ _ H1) as [O1|(-> & -> & K1)],
               (Hcase _ _ H2) as [O2|(-> & E2 & K2)].
      - apply (Htree a1 a2 k1 k2 c O1 O2).
      - pose proof (refs_in_range D h a1 c k1 Ht O1). lia.
      - pose proof (refs_in_range D h a2 (length h) k2 Ht O2). lia.
      - split; [reflexivity|]. rewrite (key_eqb_sym k2) in K2.
        apply (key_eqb_trans _ _ _ K1 K2). }
    right. destruct E as [|e [|e' E]]; simpl in Hlen; try lia.
    rewrite <- (proj1 Ht) in Ha'.
    rewrite lookup_app_r, Nat.sub_diag in Ha' by lia. injection Ha' as ->.
    split; [reflexivity | symmetry; exact (proj1 Ht)].
Qed.

(** The loop over [param_list], in full: besides what [path_spec] tells,
    dictionaries of depth 0 are left as they were, the only new one is the
    one that the loop ends at, and no dictionary is referred to twice. *)
Lemma path_effect (mb : FlockModel) (models : models_dict) (batch : string) :
  getmodel models batch = Returned mb ->
  forall (pl : list string) (D : list nat) (h : store) (a : addr)
         (ht' : list (list (key * value)) * value),
    typed names D h -> D !! a = Some (length pl) -> tree h ->
    foldM (fun (ht : list (list (key * value)) * value) p =>
             mb <- getmodel models batch ;;
             pval <- getparam mb p ;;
             descend (fst ht) (snd ht) pval) pl (h, VDict a) = Returned ht' ->
    exists E leaf pvals,
      snd ht' = VDict leaf /\ typed names (D ++ E) (fst ht') /\
      (D ++ E) !! leaf = Some 0%nat /\ ext h (fst ht') /\
      mapM (getparam mb) pl = Returned pvals /\
      follow (fst ht') a (map KNum pvals) = Some leaf /\
      (forall b, (D ++ E) !! b = Some 0%nat -> read (fst ht') b = read h b) /\
      (forall b, (length D <= b)%nat -> (D ++ E) !! b = Some 0%nat -> b = leaf) /\
      tree (fst ht').
Proof.
  intros Hmb. induction pl as [|p pl IH]; intros D h a ht' Ht Ha Htree Hrun.
  - injection Hrun as <-. exists [], a, []. rewrite app_nil_r. cbn [fst snd map follow mapM].
    split; [reflexivity|]. split; [exact Ht|]. split; [exact Ha|].
    split; [apply ext_refl|]. split; [reflexivity|]. split; [reflexivity|].
    split; [reflexivity|]. split; [|exact Htree].
    intros b Hb Hd. apply lookup_lt_Some in Hd. lia.
  - cbn [foldM] in Hrun.
    apply obind_returned in Hrun as ([h1 v1] & Hstep & Hrest).
    apply obind_returned in Hstep as (mb' & Hmb' & Hstep).
    assert (mb' = mb) as -> by congruence.
    apply obind_returned in Hstep as (pval & Hp & Hdesc).
    cbn [fst snd] in Hdesc. cbn [length] in Ha.
    destruct (descend_effect D h a (length pl) pval h1 v1 Ht Ha Hdesc)
      as (E1 & a1 & -> & Ht1 & Ha1 & He1 & Hl1 & Hr1 & Htr1 & Hshape).
    destruct (IH (D ++ E1) h1 a1 ht' Ht1 Ha1 (Htr1 Htree) Hrest)
      as (E2 & leaf & pvals & Hleaf & Ht2 & Hd2 & He2 & Hm & Hf & Hr2 & Hnew & Htr2).
    exists (E1 ++ E2), leaf, (pval :: pvals). rewrite app_assoc.
    split; [exact Hleaf|]. split; [exact Ht2|]. split; [exact Hd2|].
    split; [eapply ext_trans; eauto|].
    split; [simpl; rewrite Hp; simpl; rewrite Hm; reflexivity|].
    split.
    { simpl. pose proof (He2 a (KNum pval)) as Hk. rewrite Hl1 in Hk.
      rewrite Hk. exact Hf. }
    split.
    { intros b Hb. rewrite (Hr2 b Hb). apply Hr1. intros ->.
      rewrite <- app_assoc, (lookup_app_l_Some _ _ _ _ Ha) in Hb. discriminate. }
    split; [|exact Htr2].
    intros b Hlen Hb.
    destruct (Nat.lt_ge_cases b (length (D ++ E1))) as [Hlt|Hge];
      [|apply (Hnew b Hge Hb)].
    destruct Hshape as [->|[-> ->]]; [rewrite app_nil_r in Hlt; lia|].
    rewrite length_app in Hlt. cbn [length] in Hlt.
    assert (b = length D) as -> by lia.
    rewrite (lookup_app_l_Some _ _ _ _ Ha1) in Hb. injection Hb as Hb.
    destruct pl; [|discriminate].
    injection Hrest as <-. cbn [snd] in Hleaf. congruence.
Qed.

(** [tmp[stat] += x], in full. *)
Lemma accumulate_effect (s : list (string * ndarray)) (h : store) (a : addr)
    (stat : string) (h' : store) :
  accumulate s (VDict a) h stat = Returned h' ->
  exists arr,
    Dict.lookup String.eqb s stat = Some arr /\
    h' = write h a (Dict.set_item key_eqb (read h a) (KStr stat)
                      (VFloat (added (number_at h a stat) (np_mean arr)))).
Proof.
  unfold accumulate, subscript, Dict.getitem, number_at.
  destruct (Dict.mem key_eqb (read h a) (KStr stat)) eqn:M.
  - destruct (Dict.lookup key_eqb (read h a) (KStr stat)) as [old|] eqn:L;
      [|discriminate].
    simpl. destruct (Dict.lookup String.eqb s stat) as [arr|]; [|discriminate].
    simpl. destruct old as [y|a']; [|discriminate]. intros [= <-].
    exists arr. split; reflexivity.
  - apply mem_false in M. rewrite M.
    destruct (Dict.lookup String.eqb s stat) as [arr|]; [|discriminate].
    simpl. intros [= <-]. exists arr. split; reflexivity.
Qed.

(** [tmp[stat] /= float(count)], in full. *)
Lemma average_effect (count : Z) (h : store) (a : addr) (stat : string) (h' : store) :
  average count (VDict a) h stat = Returned h' ->
  exists y,
    number_at h a stat = Some y /\
    h' = write h a (Dict.set_item key_eqb (read h a) (KStr stat)
                      (VFloat (fdiv y (inject_Z count)))).
Proof.
  unfold average, subscript, Dict.getitem, number_at.
  destruct (Dict.lookup key_eqb (read h a) (KStr stat)) as [old|] eqn:L;
    [|discriminate].
  simpl. destruct old as [y|a']; [|discriminate]. intros [= <-].
  exists y. split; reflexivity.
Qed.

Lemma same_but_set (D : list nat) (h : store) (a : addr) (stat : string)
    (x : pyfloat) :
  typed names D h -> D !! a = Some 0%nat -> In stat names ->
  same_but names a D h
    (write h a (Dict.set_item key_eqb (read h a) (KStr stat) (VFloat x))).
Proof.
  intros Ht Ha Hs. pose proof (typed_lt names D h a _ Ht Ha) as Hlt.
  split; [apply (typed_set_number names D h a stat x Ht Ha Hs)|].
  split; [intros b Hb; apply read_write_ne; congruence|].
  split; [apply tree_set_number, Hlt|].
  apply ext_set_item; [exact Hlt|].
  destruct (Dict.lookup key_eqb (read h a) (KStr stat)) as [[y|c]|] eqn:L; eauto.
  destruct (lookup_In _ _ _ L) as (k0 & Hin & _).
  pose proof (proj2 Ht a _ k0 _ Ha Hin) as Hok.
  destruct k0; exact Hok.
Qed.

Lemma same_but_trans (a : addr) (D : list nat) (h1 h2 h3 : store) :
  same_but names a D h1 h2 -> same_but names a D h2 h3 -> same_but names a D h1 h3.
Proof.
  intros (T1 & R1 & Tr1 & E1) (T2 & R2 & Tr2 & E2). split; [exact T2|]. split.
  - intros b Hb. rewrite (R2 b Hb). apply R1, Hb.
  - split; [auto | eapply ext_trans; eauto].
Qed.

Lemma same_but_refl (a : addr) (D : list nat) (h : store) :
  typed names D h -> same_but names a D h h.
Proof.
  intros Ht. split; [exact Ht|]. split; [reflexivity|].
  split; [exact (fun H => H) | apply ext_refl].
Qed.

Lemma accumulate_names (s : list (string * ndarray)) (D : list nat) (a : addr) :
  D !! a = Some 0%nat ->
  forall (ns : list string) (h h' : store),
    List.NoDup ns -> (forall stat, In stat ns -> In stat names) ->
    typed names D h ->
    foldM (accumulate s (VDict a)) ns h = Returned h' ->
    same_but names a D h h' /\
    (forall stat, In stat ns ->
       exists arr, Dict.lookup String.eqb s stat = Some arr /\
         number_at h' a stat = Some (added (number_at h a stat) (np_mean arr))) /\
    (forall stat, ~ In stat ns -> number_at h' a stat = number_at h a stat).
Proof.
  intros Ha. induction ns as [|n ns IH]; intros h h' Hnd Hsub Ht Hrun.
  - injection Hrun as <-. split; [|split]; [|intros stat []|reflexivity].
    apply same_but_refl, Ht.
  - cbn [foldM] in Hrun. apply obind_returned in Hrun as (h1 & H1 & Hrest).
    apply List.NoDup_cons_iff in Hnd as [Hn Hnd].
    pose proof (typed_lt names D h a _ Ht Ha) as Hlt.
    destruct (accumulate_effect s h a n h1 H1) as (arr & Harr & ->).
    pose proof (same_but_set D h a n (added (number_at h a n) (np_mean arr))
                  Ht Ha (Hsub n (or_introl eq_refl))) as Hs1.
    destruct (IH _ h' Hnd (fun st H => Hsub st (or_intror H)) (proj1 Hs1) Hrest)
      as (Hs2 & Hin & Hout).
    split; [eapply same_but_trans; eauto|]. split.
    + intros stat [<-|Hstat].
      * exists arr. split; [exact Harr|]. rewrite (Hout n Hn).
        rewrite number_at_set, String.eqb_refl by exact Hlt. reflexivity.
      * destruct (Hin stat Hstat) as (arr' & Harr' & Hv). exists arr'.
        split; [exact Harr'|]. rewrite Hv, number_at_set by exact Hlt.
        destruct (String.eqb_spec n stat) as [->|_]; [contradiction | reflexivity].
    + intros stat Hstat. rewrite (Hout stat) by (intros H; apply Hstat; right; exact H).
      rewrite number_at_set by exact Hlt.
      destruct (String.eqb_spec n stat) as [->|_]; [|reflexivity].
      exfalso. apply Hstat. left. reflexivity.
Qed.

Lemma average_names (count : Z) (D : list nat) (a : addr) :
  D !! a = Some 0%nat ->
  forall (ns : list string) (h h' : store),
    List.NoDup ns -> (forall stat, In stat ns -> In stat names) ->
    typed names D h ->
    foldM (average count (VDict a)) ns h = Returned h' ->
    same_but names a D h h' /\
    (forall stat, In stat ns ->
       exists y, number_at h a stat = Some y /\
         number_at h' a stat = Some (fdiv y (inject_Z count))) /\
    (forall stat, ~ In stat ns -> number_at h' a stat = number_at h a stat).
Proof.
  intros Ha. induction ns as [|n ns IH]; intros h h' Hnd Hsub Ht Hrun.
  - injection Hrun as <-. split; [|split]; [|intros stat []|reflexivity].
    apply same_but_refl, Ht.
  - cbn [foldM] in Hrun. apply obind_returned in Hrun as (h1 & H1 & Hrest).
    apply List.NoDup_cons_iff in Hnd as [Hn Hnd].
    pose proof (typed_lt names D h a _ Ht Ha) as Hlt.
    destruct (average_effect count h a n h1 H1) as (y & Hy & ->).
    pose proof (same_but_set D h a n (fdiv y (inject_Z count))
                  Ht Ha (Hsub n (or_introl eq_refl))) as Hs1.
    destruct (IH _ h' Hnd (fun st H => Hsub st (or_intror H)) (proj1 Hs1) Hrest)
      as (Hs2 & Hin & Hout).
    split; [eapply same_but_trans; eauto|]. split.
    + intros stat [<-|Hstat].
      * exists y. split; [exact Hy|]. rewrite (Hout n Hn).
        rewrite number_at_set, String.eqb_refl by exact Hlt. reflexivity.
      * destruct (Hin stat Hstat) as (y' & Hy' & Hv). exists y'.
        rewrite number_at_set in Hy' by exact Hlt.
        destruct (String.eqb_spec n stat) as [->|_]; [contradiction|].
        split; assumption.
    + intros stat Hstat. rewrite (Hout stat) by (intros H; apply Hstat; right; exact H).
      rewrite number_at_set by exact Hlt.
      destruct (String.eqb_spec n stat) as [->|_]; [|reflexivity].
      exfalso. apply Hstat. left. reflexivity.
Qed.

End Typing.

(** *** Names of experiments, paths, sums *)

Lemma foldM_app {A S} (body : S -> A -> outcome S) (xs ys : list A) (s : S) :
  foldM body (xs ++ ys) s = obind (foldM body xs s) (foldM body ys).
Proof.
  revert s. induction xs as [|x xs IH]; intros s; [reflexivity|].
  cbn [app foldM]. destruct (body s x) as [s1|e]; [apply IH | reflexivity].
Qed.

Lemma NoDup_insert (x : string) (l : list string) :
  ~ In x l -> List.NoDup l -> List.NoDup (Str.insert x l).
Proof.
  intros Hx Hl. induction l as [|y l IH]; [repeat constructor; intros []|].
  cbn [Str.insert]. destruct (String.leb x y); [constructor; assumption|].
  apply List.NoDup_cons_iff in Hl as [Hy Hl]. constructor.
  - rewrite In_insert. intros [->|H]; [apply Hx; left; reflexivity | contradiction].
  - apply IH; [intros H; apply Hx; right; exact H | exact Hl].
Qed.

Lemma NoDup_sorted (l : list string) : List.NoDup l -> List.NoDup (Str.sorted l).
Proof.
  induction 1 as [|x l Hx Hl IH]; [constructor|].
  cbn [Str.sorted fold_right]. apply NoDup_insert; [|exact IH].
  change (fold_right Str.insert [] l) with (Str.sorted l). rewrite In_sorted. exact Hx.
Qed.

Lemma NoDup_batch_names (models : models_dict) :
  List.NoDup (map fst models) -> List.NoDup (batch_names models).
Proof. intros H. apply NoDup_sorted, List.NoDup_filter, H. Qed.

(** In a store where no dictionary is referred to twice, two paths of
    the same length that end at the same dictionary have equal keys. *)
Lemma follow_injective (h : store) (a c : addr) (ks1 ks2 : list key) :
  tree h -> length ks1 = length ks2 ->
  follow h a ks1 = Some c -> follow h a ks2 = Some c ->
  Forall2 (fun k k' => key_eqb k k' = true) ks1 ks2.
Proof.
  intros Ht. revert ks2 c.
  induction ks1 as [|k1 ks1 IH] using rev_ind; intros ks2 c Hlen H1 H2.
  { destruct ks2; [constructor | discriminate]. }
  destruct ks2 as [|k2 ks2 _] using rev_ind.
  { rewrite length_app in Hlen. simpl in Hlen. lia. }
  rewrite !length_app in Hlen. cbn [length] in Hlen.
  rewrite follow_app in H1, H2.
  destruct (follow h a ks1) as [p1|] eqn:F1; [|discriminate].
  destruct (follow h a ks2) as [p2|] eqn:F2; [|discriminate].
  cbn [follow] in H1, H2.
  destruct (Dict.lookup key_eqb (read h p1) k1) as [[x|c1]|] eqn:L1; try discriminate.
  destruct (Dict.lookup key_eqb (read h p2) k2) as [[x|c2]|] eqn:L2; try discriminate.
  injection H1 as ->. injection H2 as ->.
  destruct (lookup_In _ _ _ L1) as (k1' & In1 & K1).
  destruct (lookup_In _ _ _ L2) as (k2' & In2 & K2).
  destruct (Ht p1 p2 k1' k2' c In1 In2) as [-> K].
  apply Forall2_app.
  - apply (IH ks2 p2); [lia | reflexivity | exact F2].
  - repeat constructor. rewrite (key_eqb_sym k1') in K1.
    apply (key_eqb_trans _ _ _ K1). apply (key_eqb_trans _ _ _ K K2).
Qed.

Lemma titles_NoDup : List.NoDup (map fst titles).
Proof.
  cbn. repeat constructor; cbn; intuition discriminate.
Qed.

(** *** Plots of complete statistics *)

Lemma saved_files_app (w1 w2 : list plt_call) :
  saved_files (w1 ++ w2) = saved_files w1 ++ saved_files w2.
Proof. apply flat_map_app. Qed.

Lemma curves_app (w1 w2 : list plt_call) : curves (w1 ++ w2) = curves w1 ++ curves w2.
Proof. apply List.filter_app. Qed.

(** A loop each round of which makes [n] figures. *)
Lemma for_fold_figures {A} (body : nat -> A -> run nat) (files : A -> list text)
    (n : nat) (xs : list A) :
  (forall x mk, In x xs ->
     exists w, body mk x = (w, Returned (mk + n)%nat) /\
               saved_files w = files x /\ length (curves w) = n) ->
  forall mk,
    exists w, for_fold body xs mk = (w, Returned (mk + n * length xs)%nat) /\
              saved_files w = flat_map files xs /\
              length (curves w) = (n * length xs)%nat.
Proof.
  induction xs as [|x xs IH]; intros Hbody mk.
  - exists []. cbn [for_fold length flat_map]. unfold Plt.ret.
    rewrite Nat.mul_0_r, Nat.add_0_r. auto.
  - destruct (Hbody x mk (or_introl eq_refl)) as (w1 & H1 & F1 & C1).
    destruct (IH (fun y m Hy => Hbody y m (or_intror Hy)) (mk + n)%nat)
      as (w2 & H2 & F2 & C2).
    exists (w1 ++ w2). cbn [for_fold length flat_map]. rewrite H1.
    cbn [Plt.bind]. rewrite H2.
    split; [f_equal; f_equal; lia|].
    rewrite saved_files_app, curves_app, length_app, F1, F2, C1, C2.
    split; [reflexivity | lia].
Qed.

(** A key of a dictionary can be looked up. *)
Lemma lookup_of_key (d : list (key * value)) (k : key) :
  In k (map fst d) ->
  exists k0 v, Dict.lookup key_eqb d k = Some v /\ In (k0, v) d.
Proof.
  induction d as [|[k' v'] d IH]; [intros []|].
  cbn [map fst In Dict.lookup]. destruct (key_eqb k' k) eqn:E.
  - intros _. exists k', v'. auto.
  - intros [->|Hin]; [rewrite key_eqb_refl in E; discriminate|].
    destruct (IH Hin) as (k0 & v & Hl & Hi). exists k0, v. auto.
Qed.

Lemma table_titles (val : string) :
  In val (map fst titles) -> exists ttl, table titles val = Returned ttl.
Proof.
  intros H. cbn in H. decompose [or] H; try contradiction; subst val;
    eexists; reflexivity.
Qed.

Lemma table_labels (val : string) :
  In val (map fst titles) -> exists lbl, table labels val = Returned lbl.
Proof.
  intros H. cbn in H. decompose [or] H; try contradiction; subst val;
    eexists; reflexivity.
Qed.

Lemma plot_2param_figures (tex_symbol : string -> bool) (name : string)
    (h : store) (pa pb path : string) (markers : nat) :
  tex_symbol pa = true -> tex_symbol pb = true ->
  nested (map fst titles) h 2 root -> complete2 (map fst titles) h ->
  exists w,
    plot_2param tex_symbol name h (VDict root) [pa; pb] path markers =
      (w, Returned (markers + 4 * length (read h root))%nat) /\
    saved_files w =
      flat_map (fun val =>
                  map (file_2param name path pa pb val) (map fst (read h root)))
        (map fst titles) /\
    length (curves w) = (4 * length (read h root))%nat.
Proof.
  intros Ha Hb Hn Hc. unfold plot_2param. cbn [length Nat.eqb negb].
  match goal with |- exists w, for_fold ?body ?xs ?m0 = _ /\ _ =>
    destruct (for_fold_figures body
      (fun val => map (file_2param name path pa pb val) (map fst (read h root)))
      (length (read h root)) xs) with (mk := m0) as (w & Hw & Hf & Hcv)
  end.
  - intros val mk Hval. cbv beta. cbn [keys_of]. unfold lift at 1.
    rewrite bind_ret_l.
    match goal with |- exists w, for_fold ?body ?xs ?m0 = _ /\ _ =>
      destruct (for_fold_figures body
        (fun p0 => [file_2param name path pa pb val p0]) 1%nat xs)
        with (mk := m0) as (w & Hw & Hf & Hcv)
    end.
    + (* one figure *)
      intros p0 mk' Hp0. cbv beta.
      destruct (lookup_of_key _ _ Hp0) as (k0 & v0 & L0 & I0).
      destruct (Hn k0 v0 I0) as (q0 & a1 & -> & -> & Hn1).
      assert (S0 : subscript h (VDict root) p0 = Returned (VDict a1))
        by (unfold subscript, Dict.getitem; rewrite L0; reflexivity).
      destruct (table_titles val Hval) as [ttl Httl].
      destruct (table_labels val Hval) as [lbl Hlbl].
      rewrite S0. unfold lift at 1. rewrite bind_ret_l.
      cbn [keys_of]. unfold lift at 1. rewrite bind_ret_l.
      match goal with |- context [lift (mapM ?f ?l)] =>
        destruct (mapM_progress f l) as [yval Hy]
      end.
      { intros p1 Hp1. cbn [obind].
        destruct (lookup_of_key _ _ Hp1) as (k1 & v1 & L1 & I1).
        destruct (Hn1 k1 v1 I1) as (q1 & a2 & -> & -> & _).
        unfold subscript at 1, Dict.getitem. rewrite L1. cbn [obind].
        destruct (Hc _ _ _ _ I0 I1 val Hval) as [x Hx].
        unfold subscript, Dict.getitem. rewrite Hx. eexists. reflexivity. }
      rewrite Hy, Httl, Hlbl. unfold lift. rewrite bind_ret_l.
      unfold plt_plot. rewrite !length_map, (mapM_length _ _ _ Hy), length_map,
        Nat.eqb_refl.
      unfold plt_savefig. cbn [nth]. rewrite Ha, Hb.
      cbn [curve_kw kw_alpha valid_alpha andb call Plt.bind Plt.ret app nth].
      replace (mk' + 1)%nat with (S mk') by lia.
      eexists. split; [reflexivity|]. split; reflexivity.
    + exists w. rewrite Hw, length_map, Nat.mul_1_l. split; [reflexivity|].
      rewrite Hf, Hcv, length_map, Nat.mul_1_l. split; [|reflexivity].
      clear. induction (map fst (read h root)); [reflexivity|].
      cbn [flat_map map app]. congruence.
  - exists w. rewrite Hw, Hf, Hcv. cbn [map fst titles length].
    replace (length (read h root) * 4)%nat with (4 * length (read h root))%nat by lia.
    auto.
Qed.

(** Where mathtext cannot typeset the name of one of the two parameters,
    the first figure is plotted and labelled and cannot be saved. *)
Lemma plot_2param_untypeset (tex_symbol : string -> bool) (name : string)
    (h : store) (pa pb path : string) (markers : nat) :
  tex_symbol pb && tex_symbol pa = false ->
  nested (map fst titles) h 2 root -> complete2 (map fst titles) h ->
  read h root <> [] ->
  exists w,
    plot_2param tex_symbol name h (VDict root) [pa; pb] path markers =
      (w, Raised ValueError) /\
    saved_files w = [] /\ length (curves w) = 1%nat.
Proof.
  intros Hsym Hn Hc Hne. unfold plot_2param. cbn [length Nat.eqb negb].
  cbn [titles map fst for_fold keys_of]. unfold lift at 1. rewrite bind_ret_l.
  destruct (read h root) as [|[k0 v0] rest] eqn:Eroot; [contradiction|].
  cbn [map fst for_fold].
  assert (I0 : In (k0, v0) (read h root)) by (rewrite Eroot; left; reflexivity).
  destruct (Hn k0 v0 I0) as (q0 & a1 & -> & -> & Hn1).
  assert (S0 : subscript h (VDict root) (KNum q0) = Returned (VDict a1)).
  { unfold subscript, Dict.getitem. rewrite Eroot. cbn [Dict.lookup].
    rewrite key_eqb_refl. reflexivity. }
  assert (Hval : In "avg_abs_vel"%string (map fst titles)) by (left; reflexivity).
  rewrite S0. unfold lift at 1. rewrite bind_ret_l.
  cbn [keys_of]. unfold lift at 1. rewrite bind_ret_l.
  match goal with |- context [lift (mapM ?f ?l)] =>
    destruct (mapM_progress f l) as [yval Hy]
  end.
  { intros p1 Hp1. cbn [obind].
    destruct (lookup_of_key _ _ Hp1) as (k1 & v1 & L1 & I1).
    destruct (Hn1 k1 v1 I1) as (q1 & a2 & -> & -> & _).
    unfold subscript at 1, Dict.getitem. rewrite L1. cbn [obind].
    destruct (Hc _ _ _ _ I0 I1 _ Hval) as [x Hx].
    unfold subscript, Dict.getitem. rewrite Hx. eexists. reflexivity. }
  rewrite Hy. unfold lift at 1. rewrite bind_ret_l.
  unfold plt_plot. rewrite !length_map, (mapM_length _ _ _ Hy), length_map,
    Nat.eqb_refl.
  unfold plt_savefig. cbn [nth]. rewrite Hsym.
  cbn [curve_kw kw_alpha valid_alpha andb call raise lift table titles labels
       Dict.getitem Dict.lookup String.eqb Ascii.eqb Bool.eqb Plt.bind Plt.ret app].
  eexists. split; [reflexivity|]. split; reflexivity.
Qed.

(** X15.  On statistics nested two levels deep whose innermost
    dictionaries hold the four statistics: where mathtext can typeset
    the names of both parameters, [plot_2param] returns; it saves one
    figure per statistic and value of the first parameter, in this
    order, each of one curve, and advances the marker cycle by one per
    figure.  Where it cannot typeset one of the names and there is a
    value of the first parameter, [plot_2param] raises [ValueError] when
    it is to save the first figure, with one curve plotted and no file
    saved. *)
Theorem plot_2param_complete (tex_symbol : string -> bool) (name : string)
    (h : store) (pa pb path : string) (markers : nat) :
  nested (map fst titles) h 2 root -> complete2 (map fst titles) h ->
  (tex_symbol pa = true -> tex_symbol pb = true ->
   exists w,
     plot_2param tex_symbol name h (VDict root) [pa; pb] path markers =
       (w, Returned (markers + 4 * length (read h root))%nat) /\
     saved_files w =
       flat_map (fun val =>
                   map (file_2param name path pa pb val) (map fst (read h root)))
         (map fst titles) /\
     length (curves w) = (4 * length (read h root))%nat) /\
  (tex_symbol pb && tex_symbol pa = false -> read h root <> [] ->
   exists w,
     plot_2param tex_symbol name h (VDict root) [pa; pb] path markers =
       (w, Raised ValueError) /\
     saved_files w = [] /\ length (curves w) = 1%nat).
Proof.
  intros Hn Hc. split.
  - intros Ha Hb. apply plot_2param_figures; assumption.
  - intros Hsym Hne. apply plot_2param_untypeset; assumption.
Qed.

Lemma for_fold_saved {A} (body : nat -> A -> run nat) (files : A -> list text)
    (xs : list A) :
  (forall x mk, In x xs ->
     exists w mk', body mk x = (w, Returned mk') /\ saved_files w = files x) ->
  forall mk,
    exists w mk', for_fold body xs mk = (w, Returned mk') /\
                  saved_files w = flat_map files xs.
Proof.
  induction xs as [|x xs IH]; intros Hbody mk.
  - exists [], mk. split; reflexivity.
  - destruct (Hbody x mk (or_introl eq_refl)) as (w1 & mk1 & H1 & F1).
    destruct (IH (fun y m Hy => Hbody y m (or_intror Hy)) mk1)
      as (w2 & mk2 & H2 & F2).
    exists (w1 ++ w2), mk2. cbn [for_fold flat_map]. rewrite H1.
    cbn [Plt.bind]. rewrite H2. split; [reflexivity|].
    rewrite saved_files_app, F1, F2. reflexivity.
Qed.

Lemma mapM_members {A B} (f : A -> outcome B) (xs : list A) (ys : list B) :
  mapM f xs = Returned ys ->
  forall y, In y ys -> exists x, In x xs /\ f x = Returned y.
Proof.
  revert ys. induction xs as [|x xs IH]; intros ys H y Hy.
  - injection H as <-. destruct Hy.
  - simpl in H. apply obind_returned in H as (y0 & Hy0 & H).
    apply obind_returned in H as (ys' & Hys & H). injection H as <-.
    destruct Hy as [<-|Hy].
    + exists x. split; [left; reflexivity | exact Hy0].
    + destruct (IH ys' Hys y Hy) as (x' & Hx' & Hf). exists x'.
      split; [right; exact Hx' | exact Hf].
Qed.

Lemma filter_mapM_all {A B} (f : A -> outcome (option B)) (xs : list A) :
  (forall x, In x xs -> exists b, f x = Returned (Some b)) ->
  exists ys, filter_mapM f xs = Returned ys /\ length ys = length xs.
Proof.
  induction xs as [|x xs IH]; intros H.
  - exists []. split; reflexivity.
  - destruct (H x (or_introl eq_refl)) as [b Hb].
    destruct (IH (fun y Hy => H y (or_intror Hy))) as (ys & Hys & Hlen).
    exists (b :: ys). cbn [filter_mapM]. rewrite Hb. cbn [obind]. rewrite Hys.
    cbn [obind length]. split; [reflexivity | lia].
Qed.

Lemma lookup_existsb (d : list (key * value)) (k : key) (v : value) :
  Dict.lookup key_eqb d k = Some v ->
  existsb (key_eqb k) (map fst d) = true.
Proof.
  intros H. destruct (lookup_In _ _ _ H) as (k0 & Hin & Hk).
  apply existsb_exists. exists k0. split.
  - apply in_map_iff. exists (k0, v). auto.
  - rewrite key_eqb_sym. exact Hk.
Qed.

(** A loop that plots curves and saves nothing. *)
Lemma for_fold_curves {A} (body : nat -> A -> run nat) (xs : list A) :
  (forall x mk, In x xs ->
     exists w, body mk x = (w, Returned (S mk)) /\ saved_files w = []) ->
  forall mk,
    exists w, for_fold body xs mk = (w, Returned (mk + length xs)%nat) /\
              saved_files w = [].
Proof.
  induction xs as [|x xs IH]; intros Hbody mk.
  - exists []. cbn [for_fold length]. rewrite Nat.add_0_r. split; reflexivity.
  - destruct (Hbody x mk (or_introl eq_refl)) as (w1 & H1 & F1).
    destruct (IH (fun y m Hy => Hbody y m (or_intror Hy)) (S mk))
      as (w2 & H2 & F2).
    exists (w1 ++ w2). cbn [for_fold length]. rewrite H1. cbn [Plt.bind].
    rewrite H2. split; [f_equal; f_equal; lia|].
    rewrite saved_files_app, F1, F2. reflexivity.
Qed.

(** The curves of one figure of [plot_3param] on a complete grid. *)
Lemma plot_3param_curves (list_of_set : list key -> list key) (h : store)
    (pc val : string) (p0 : key) (k0 : key) (a1 : addr) (p2s : list (list key))
    (mk0 : nat) :
  set_order list_of_set ->
  nested (map fst titles) h 2 a1 -> complete3 (map fst titles) h ->
  In val (map fst titles) ->
  In (k0, VDict a1) (read h root) ->
  subscript h (VDict root) p0 = Returned (VDict a1) ->
  mapM (fun p1 =>
          s0 <- subscript h (VDict root) p0 ;;
          s1 <- subscript h s0 p1 ;;
          keys_of h s1)%py (map fst (read h a1)) = Returned p2s ->
  exists wc,
    for_fold (fun markers p2 =>
      Plt.bind (lift (filter_mapM (fun p1 =>
                    s0 <- subscript h (VDict root) p0 ;;
                    s1 <- subscript h s0 p1 ;;
                    ks <- keys_of h s1 ;;
                    if existsb (key_eqb p2) ks then
                      s0 <- subscript h (VDict root) p0 ;;
                      s1 <- subscript h s0 p1 ;;
                      s2 <- subscript h s1 p2 ;;
                      v <- subscript h s2 (KStr val) ;;
                      y <- mean_of v ;;
                      Returned (Some y)
                    else Returned None)%py (map fst (read h a1))))
        (fun yval =>
           Plt.bind (plt_plot (map datum_of_key (map fst (read h a1)))
                       (map datum_of_float yval)
                       (curve_kw (Some [Str pc; Str " = "%string; piece_of_key p2])
                          (marker_at markers)))
             (fun _ => Plt.ret (S markers))))
      (list_of_set (concat p2s)) mk0 =
      (wc, Returned (mk0 + length (list_of_set (concat p2s)))%nat) /\
    saved_files wc = [].
Proof.
  intros Hset Hn1 Hc Hval I0 S0 Hp2s.
  assert (S1 : forall p1, In p1 (map fst (read h a1)) ->
            exists k1 a2, subscript h (VDict a1) p1 = Returned (VDict a2) /\
                          In (k1, VDict a2) (read h a1)).
  { intros p1 Hp1. destruct (lookup_of_key _ _ Hp1) as (k1 & v1 & L1 & I1).
    destruct (Hn1 k1 v1 I1) as (q1 & a2 & -> & -> & _).
    exists (KNum q1), a2. split; [|exact I1].
    unfold subscript, Dict.getitem. rewrite L1. reflexivity. }
  apply for_fold_curves.
  intros p2 mk2 Hp2. cbv beta.
  apply (proj1 (Hset _)) in Hp2. apply in_concat in Hp2 as (ks & Hks & Hp2).
  destruct (mapM_members _ _ _ Hp2s ks Hks) as (p1' & Hp1' & Hk').
  rewrite S0 in Hk'.
  cbn [obind] in Hk'. destruct (S1 p1' Hp1') as (k1' & a2' & E' & I1').
  rewrite E' in Hk'. cbn [obind keys_of] in Hk'. injection Hk' as <-.
  apply in_map_iff in Hp2 as ([k2 v2] & <- & I2). cbn [fst].
  match goal with |- context [lift (filter_mapM ?f ?l)] =>
    destruct (filter_mapM_all f l) as (yval & Hy & Hlen)
  end.
  { intros p1 Hp1. rewrite S0. cbn [obind].
    destruct (S1 p1 Hp1) as (k1 & a2 & -> & I1).
    cbn [obind keys_of].
    destruct (Hc _ _ _ _ _ _ _ _ I0 I1 I1' I2) as (a3 & L3 & Hnum).
    rewrite (lookup_existsb _ _ _ L3).
    unfold subscript at 1, Dict.getitem. rewrite L3. cbn [obind].
    destruct (Hnum val Hval) as [x Hx].
    unfold subscript, Dict.getitem. rewrite Hx. cbn [obind mean_of].
    eexists. reflexivity. }
  rewrite Hy. unfold lift. rewrite bind_ret_l.
  unfold plt_plot. rewrite !length_map, Hlen, length_map, Nat.eqb_refl.
  cbn [curve_kw kw_alpha valid_alpha andb call Plt.bind Plt.ret app].
  eexists. split; reflexivity.
Qed.

Lemma plot_3param_figures (tex_symbol : string -> bool)
    (list_of_set : list key -> list key)
    (name : string) (h : store) (pa pb pc path : string) :
  tex_symbol pa = true -> tex_symbol pb = true ->
  set_order list_of_set ->
  nested (map fst titles) h 3 root -> complete3 (map fst titles) h ->
  exists w,
    plot_3param tex_symbol list_of_set name h (VDict root) [pa; pb; pc] path =
      (w, Returned tt) /\
    saved_files w =
      flat_map (fun val =>
                  map (file_3param name path pa pb pc val) (map fst (read h root)))
        (map fst titles).
Proof.
  intros Ha Hb Hset Hn Hc. unfold plot_3param. cbn [length Nat.eqb negb].
  match goal with |- exists w, Plt.bind (for_fold ?body ?xs ?m0) _ = _ /\ _ =>
    destruct (for_fold_saved body
      (fun val => map (file_3param name path pa pb pc val) (map fst (read h root)))
      xs) with (mk := m0) as (w & mk' & Hw & Hf)
  end.
  2:{ exists w. rewrite Hw. cbn [Plt.bind Plt.ret]. rewrite app_nil_r. auto. }
  intros val mk Hval. cbv beta. cbn [keys_of]. unfold lift at 1.
  rewrite bind_ret_l.
  match goal with |- exists w mk', for_fold ?body ?xs ?m0 = _ /\ _ =>
    destruct (for_fold_saved body
      (fun p0 => [file_3param name path pa pb pc val p0]) xs)
      with (mk := m0) as (w & mk' & Hw & Hf)
  end.
  2:{ exists w, mk'. split; [exact Hw|]. rewrite Hf.
      clear. induction (map fst (read h root)); [reflexivity|].
      cbn [flat_map map app]. congruence. }
  (* one figure *)
  intros p0 mk0 Hp0. cbv beta.
  destruct (lookup_of_key _ _ Hp0) as (k0 & v0 & L0 & I0).
  destruct (Hn k0 v0 I0) as (q0 & a1 & -> & -> & Hn1).
  assert (S0 : subscript h (VDict root) p0 = Returned (VDict a1))
    by (unfold subscript, Dict.getitem; rewrite L0; reflexivity).
  assert (S1 : forall p1, In p1 (map fst (read h a1)) ->
            exists k1 a2, subscript h (VDict a1) p1 = Returned (VDict a2) /\
                          In (k1, VDict a2) (read h a1)).
  { intros p1 Hp1. destruct (lookup_of_key _ _ Hp1) as (k1 & v1 & L1 & I1).
    destruct (Hn1 k1 v1 I1) as (q1 & a2 & -> & -> & _).
    exists (KNum q1), a2. split; [|exact I1].
    unfold subscript, Dict.getitem. rewrite L1. reflexivity. }
  destruct (table_titles val Hval) as [ttl Httl].
  destruct (table_labels val Hval) as [lbl Hlbl].
  rewrite S0. unfold lift at 1. rewrite bind_ret_l.
  cbn [keys_of]. unfold lift at 1. rewrite bind_ret_l.
  match goal with |- context [lift (mapM ?f ?l)] =>
    destruct (mapM_progress f l) as [p2s Hp2s]
  end.
  { intros p1 Hp1. cbn [obind]. destruct (S1 p1 Hp1) as (k1 & a2 & -> & _).
    cbn [obind keys_of]. eexists. reflexivity. }
  rewrite Hp2s. unfold lift at 1. rewrite bind_ret_l.
  match goal with |- context [Plt.bind (for_fold ?body ?xs mk0) _] =>
    destruct (for_fold_curves body xs) with (mk := mk0) as (wc & Hwc & Hfc)
  end.
  { (* one curve *)
    intros p2 mk2 Hp2. cbv beta.
    apply (proj1 (Hset _)) in Hp2. apply in_concat in Hp2 as (ks & Hks & Hp2).
    destruct (mapM_members _ _ _ Hp2s ks Hks) as (p1' & Hp1' & Hk').
    cbn [obind] in Hk'. destruct (S1 p1' Hp1') as (k1' & a2' & E' & I1').
    rewrite E' in Hk'. cbn [obind keys_of] in Hk'. injection Hk' as <-.
    apply in_map_iff in Hp2 as ([k2 v2] & <- & I2). cbn [fst].
    match goal with |- context [lift (filter_mapM ?f ?l)] =>
      destruct (filter_mapM_all f l) as (yval & Hy & Hlen)
    end.
    { intros p1 Hp1. cbn [obind]. destruct (S1 p1 Hp1) as (k1 & a2 & -> & I1).
      cbn [obind keys_of].
      destruct (Hc _ _ _ _ _ _ _ _ I0 I1 I1' I2) as (a3 & L3 & Hnum).
      rewrite (lookup_existsb _ _ _ L3).
      unfold subscript at 1, Dict.getitem. rewrite L3. cbn [obind].
      destruct (Hnum val Hval) as [x Hx].
      unfold subscript, Dict.getitem. rewrite Hx. cbn [obind mean_of].
      eexists. reflexivity. }
    rewrite Hy. unfold lift. rewrite bind_ret_l.
    unfold plt_plot. rewrite !length_map, Hlen, length_map, Nat.eqb_refl.
    cbn [curve_kw kw_alpha valid_alpha andb call Plt.bind Plt.ret app].
    eexists. split; reflexivity. }
  rewrite Hwc, Httl, Hlbl. unfold lift.
  unfold plt_savefig. cbn [nth]. rewrite Ha, Hb.
  cbn [andb call Plt.bind Plt.ret app nth].
  do 2 eexists. split; [reflexivity|].
  rewrite saved_files_app, Hfc. reflexivity.
Qed.

(** Where mathtext cannot typeset the name of the first or of the second
    parameter, the curves of the first figure are plotted and the figure
    cannot be saved. *)
Lemma plot_3param_untypeset (tex_symbol : string -> bool)
    (list_of_set : list key -> list key)
    (name : string) (h : store) (pa pb pc path : string) :
  tex_symbol pb && tex_symbol pa = false ->
  set_order list_of_set ->
  nested (map fst titles) h 3 root -> complete3 (map fst titles) h ->
  read h root <> [] ->
  exists w,
    plot_3param tex_symbol list_of_set name h (VDict root) [pa; pb; pc] path =
      (w, Raised ValueError) /\
    saved_files w = [].
Proof.
  intros Hsym Hset Hn Hc Hne. unfold plot_3param. cbn [length Nat.eqb negb].
  cbn [titles map fst for_fold keys_of]. unfold lift at 1. rewrite bind_ret_l.
  destruct (read h root) as [|[k0 v0] rest] eqn:Eroot; [contradiction|].
  cbn [map fst for_fold].
  assert (I0 : In (k0, v0) (read h root)) by (rewrite Eroot; left; reflexivity).
  destruct (Hn k0 v0 I0) as (q0 & a1 & -> & -> & Hn1).
  assert (S0 : subscript h (VDict root) (KNum q0) = Returned (VDict a1)).
  { unfold subscript, Dict.getitem. rewrite Eroot. cbn [Dict.lookup].
    rewrite key_eqb_refl. reflexivity. }
  assert (Hval : In "avg_abs_vel"%string (map fst titles)) by (left; reflexivity).
  rewrite S0. unfold lift at 1. rewrite bind_ret_l.
  cbn [keys_of]. unfold lift at 1. rewrite bind_ret_l.
  match goal with |- context [lift (mapM ?f ?l)] =>
    destruct (mapM_progress f l) as [p2s Hp2s]
  end.
  { intros p1 Hp1. cbn [obind].
    destruct (lookup_of_key _ _ Hp1) as (k1 & v1 & L1 & I1).
    destruct (Hn1 k1 v1 I1) as (q1 & a2 & -> & -> & _).
    unfold subscript, Dict.getitem. rewrite L1. cbn [obind keys_of].
    eexists. reflexivity. }
  rewrite Hp2s. unfold lift at 1. rewrite bind_ret_l.
  assert (Hp2s' : mapM (fun p1 =>
            s0 <- subscript h (VDict root) (KNum q0) ;;
            s1 <- subscript h s0 p1 ;;
            keys_of h s1)%py (map fst (read h a1)) = Returned p2s).
  { rewrite <- Hp2s. apply mapM_ext. intros p1. rewrite S0. reflexivity. }
  destruct (plot_3param_curves list_of_set h pc "avg_abs_vel" (KNum q0) (KNum q0)
              a1 p2s 0 Hset Hn1 Hc Hval I0 S0 Hp2s') as (wc & Hwc & Hfc).
  cbn [nth] in Hwc |- *. rewrite S0 in Hwc. rewrite Hwc.
  unfold plt_savefig. rewrite Hsym.
  cbn [call raise lift table titles labels Dict.getitem Dict.lookup String.eqb
       Ascii.eqb Bool.eqb Plt.bind Plt.ret app].
  eexists. split; [reflexivity|].
  rewrite saved_files_app, Hfc. reflexivity.
Qed.

(** X17.  On statistics nested three levels deep that form a complete
    grid, whatever the order in which the set of values of the third
    parameter is iterated: where mathtext can typeset the names of the
    first and of the second parameter, [plot_3param] returns and saves
    one figure per statistic and value of the first parameter; where it
    cannot typeset one of the two and there is a value of the first
    parameter, [plot_3param] raises [ValueError] when it is to save the
    first figure, and no file is saved.  The name of the third parameter
    is not typeset. *)
Theorem plot_3param_complete (tex_symbol : string -> bool)
    (list_of_set : list key -> list key)
    (name : string) (h : store) (pa pb pc path : string) :
  set_order list_of_set ->
  nested (map fst titles) h 3 root -> complete3 (map fst titles) h ->
  (tex_symbol pa = true -> tex_symbol pb = true ->
   exists w,
     plot_3param tex_symbol list_of_set name h (VDict root) [pa; pb; pc] path =
       (w, Returned tt) /\
     saved_files w =
       flat_map (fun val =>
                   map (file_3param name path pa pb pc val) (map fst (read h root)))
         (map fst titles)) /\
  (tex_symbol pb && tex_symbol pa = false -> read h root <> [] ->
   exists w,
     plot_3param tex_symbol list_of_set name h (VDict root) [pa; pb; pc] path =
       (w, Raised ValueError) /\
     saved_files w = []).
Proof.
  intros Hset Hn Hc. split.
  - intros Ha Hb. apply plot_3param_figures; assumption.
  - intros Hsym Hne. apply plot_3param_untypeset; assumption.
Qed.

(** X16.  [plot_2param] given other than two parameters raises
    [ValueError] before it reads the statistics or plots anything.  Given
    two and statistics nested two levels deep, it raises [ValueError]
    only where mathtext cannot typeset the name of one of them: from
    nothing else in it. *)
Theorem plot_2param_two_parameters_only (tex_symbol : string -> bool)
    (name : string) (h : store) (stats : value)
    (param : list string) (path : string) (markers : nat) :
  (length param <> 2%nat ->
   plot_2param tex_symbol name h stats param path markers
     = ([], Raised ValueError)) /\
  (length param = 2%nat ->
   stats = VDict root -> nested (map fst titles) h 2 root ->
   result (plot_2param tex_symbol name h stats param path markers)
     = Raised ValueError ->
   tex_symbol (nth 1 param EmptyString) && tex_symbol (nth 0 param EmptyString)
     = false).
Proof.
  split; [apply plot_2param_bad_count|].
  intros Hlen _ _ Hres.
  destruct (plot_2param_value_error _ _ _ _ _ _ _ Hres) as [H|H];
    [contradiction | exact H].
Qed.

(** *** The order of the directory listing *)

Lemma leb_iff (a b : string) :
  String.leb a b = true <-> String_as_OT.lt a b \/ a = b.
Proof.
  unfold String.leb. rewrite <- String_as_OT.cmp_lt, <- String_as_OT.cmp_eq.
  unfold String_as_OT.cmp. destruct (String.compare a b); split; intros H;
    try reflexivity; try discriminate; auto; destruct H; discriminate.
Qed.

Lemma leb_trans (a b c : string) :
  String.leb a b = true -> String.leb b c = true -> String.leb a c = true.
Proof.
  rewrite !leb_iff. intros [H1| ->] [H2| ->]; auto.
  left. eapply String_as_OT.lt_trans; eauto.
Qed.

Lemma insert_sorted (x : string) (l : list string) :
  StronglySorted (fun a b => String.leb a b = true) l ->
  StronglySorted (fun a b => String.leb a b = true) (Str.insert x l).
Proof.
  induction 1 as [|y l Hl IH Hy]; [repeat constructor|].
  cbn [Str.insert]. destruct (String.leb x y) eqn:E.
  - constructor; [constructor; assumption|]. constructor; [exact E|].
    rewrite List.Forall_forall in Hy. apply List.Forall_forall. intros z Hz.
    eapply leb_trans; [exact E | apply Hy, Hz].
  - constructor; [exact IH|]. apply List.Forall_forall. intros z Hz.
    apply In_insert in Hz as [->|Hz].
    + destruct (String.leb_total x y) as [H|H]; [congruence | exact H].
    + rewrite List.Forall_forall in Hy. apply Hy, Hz.
Qed.

Lemma sorted_sorted (l : list string) :
  StronglySorted (fun a b => String.leb a b = true) (Str.sorted l).
Proof.
  induction l as [|x l IH]; [constructor|]. apply insert_sorted, IH.
Qed.

(** A list has one sorted arrangement. *)
Lemma sorted_unique (l l' : list string) :
  StronglySorted (fun a b => String.leb a b = true) l ->
  StronglySorted (fun a b => String.leb a b = true) l' ->
  Permutation l l' -> l = l'.
Proof.
  intros H. revert l'. induction H as [|a l Hl IH Ha]; intros l' H' Hp.
  - apply Permutation_nil in Hp. congruence.
  - destruct H' as [|b l' Hl' Hb].
    { apply Permutation_sym, Permutation_nil in Hp. discriminate. }
    assert (a = b) as ->.
    { rewrite List.Forall_forall in Ha, Hb.
      assert (Hab : In a (b :: l')) by (eapply Permutation_in; [exact Hp | left; reflexivity]).
      assert (Hba : In b (a :: l))
        by (eapply Permutation_in; [apply Permutation_sym, Hp | left; reflexivity]).
      destruct Hab as [->|Hab]; [reflexivity|].
      destruct Hba as [->|Hba]; [reflexivity|].
      apply String.leb_antisym; [apply Ha, Hba | apply Hb, Hab]. }
    f_equal. apply IH; [exact Hl'|]. eapply Permutation_cons_inv, Hp.
Qed.

Lemma sorted_same_members (l l' : list string) :
  List.NoDup l -> List.NoDup l' -> (forall x, In x l <-> In x l') ->
  Str.sorted l = Str.sorted l'.
Proof.
  intros N N' H. apply sorted_unique; try apply sorted_sorted.
  apply Permutation.NoDup_Permutation; try (apply NoDup_sorted; assumption).
  intros x. rewrite !In_sorted. apply H.
Qed.

(** With distinct keys, what a key leads to is the value it is paired with. *)
Lemma lookup_NoDup {V} (d : list (string * V)) (k : string) (v : V) :
  List.NoDup (map fst d) ->
  (Dict.lookup String.eqb d k = Some v <-> In (k, v) d).
Proof.
  induction d as [|[k' v'] d IH]; cbn [map fst Dict.lookup In];
    [intros _; split; [discriminate | intros []]|].
  intros N. apply List.NoDup_cons_iff in N as [Hk N].
  destruct (String.eqb_spec k' k) as [->|Hne].
  - split; [intros [= ->]; left; reflexivity|].
    intros [[= ->]|Hin]; [reflexivity|].
    exfalso. apply Hk, in_map_iff. exists (k, v). auto.
  - rewrite (IH N). split; [auto|]. intros [[= -> _]|H]; [contradiction | exact H].
Qed.

Lemma getmodel_perm (models models' : models_dict) (name : string) :
  List.NoDup (map fst models) -> Permutation models models' ->
  getmodel models name = getmodel models' name.
Proof.
  intros N P.
  assert (N' : List.NoDup (map fst models'))
    by (eapply Permutation_NoDup; [apply Permutation_map, P | exact N]).
  unfold getmodel, Dict.getitem.
  destruct (Dict.lookup String.eqb models name) as [m|] eqn:L.
  - apply (lookup_NoDup _ _ _ N) in L.
    apply (Permutation_in _ P) in L. apply (lookup_NoDup _ _ _ N') in L.
    rewrite L. reflexivity.
  - destruct (Dict.lookup String.eqb models' name) as [m'|] eqn:L'; [|reflexivity].
    apply (lookup_NoDup _ _ _ N') in L'.
    apply (Permutation_in _ (Permutation_sym P)) in L'.
    apply (lookup_NoDup _ _ _ N) in L'. congruence.
Qed.

Lemma names_perm (models models' : models_dict) (f : string -> bool) :
  List.NoDup (map fst models) -> Permutation models models' ->
  Str.sorted (List.filter f (map fst models)) =
  Str.sorted (List.filter f (map fst models')).
Proof.
  intros N P.
  assert (N' : List.NoDup (map fst models'))
    by (eapply Permutation_NoDup; [apply Permutation_map, P | exact N]).
  apply sorted_same_members; try (apply List.NoDup_filter; assumption).
  intros x. rewrite !filter_In. split; intros [H1 H2]; (split; [|exact H2]).
  - eapply Permutation_in; [apply Permutation_map, P | exact H1].
  - eapply Permutation_in; [apply Permutation_sym, Permutation_map, P | exact H1].
Qed.

Lemma model_params_perm (models models' : models_dict) (p : string) :
  Permutation models models' ->
  (In p (model_params models) <-> In p (model_params models')).
Proof.
  intros P. unfold model_params. rewrite !in_flat_map.
  split; intros (nm & H1 & H2); exists nm; (split; [|exact H2]).
  - eapply Permutation_in; eauto.
  - eapply Permutation_in; [apply Permutation_sym|]; eauto.
Qed.

(** A comprehension whose elements can only fail in one way ends the
    same way, values aside, on two lists with the same members. *)
Lemma mapM_same_members {A B C} (f : A -> outcome B) (e0 : exn)
    (l l' : list A) (k : outcome C) :
  (forall x, (exists y, f x = Returned y) \/ f x = Raised e0) ->
  (forall x, In x l <-> In x l') ->
  obind (mapM f l) (fun _ => k) = obind (mapM f l') (fun _ => k).
Proof.
  intros Hf Hmem.
  assert (Hcase : forall l0, (exists ys, mapM f l0 = Returned ys /\
                                forall x, In x l0 -> exists y, f x = Returned y) \/
                             (mapM f l0 = Raised e0 /\
                                exists x, In x l0 /\ f x = Raised e0)).
  { induction l0 as [|x l0 IH]; [left; exists []; split; [reflexivity | intros x []]|].
    cbn [mapM]. destruct (Hf x) as [[y Hy]|Hx].
    - rewrite Hy. cbn [obind]. destruct IH as [(ys & -> & Hall)|[-> (z & Hz & Hfz)]].
      + left. eexists. split; [reflexivity|]. intros z [<-|Hz]; eauto.
      + right. split; [reflexivity|]. exists z. split; [right; exact Hz | exact Hfz].
    - rewrite Hx. right. split; [reflexivity|]. exists x. split; [left; reflexivity | exact Hx]. }
  destruct (Hcase l) as [(ys & -> & Hall)|[-> (x & Hx & Hfx)]],
           (Hcase l') as [(ys' & -> & Hall')|[-> (x' & Hx' & Hfx')]];
    try reflexivity; exfalso.
  - apply Hmem in Hx'. destruct (Hall x' Hx') as [y Hy]. congruence.
  - apply Hmem in Hx. destruct (Hall' x Hx) as [y Hy]. congruence.
Qed.

Section Statistics.
Variable np_sqrt : Q -> Q.
Variable process_space :
  ndarray3 -> Q -> Plot.EnumBounds -> list (string * ndarray).
Variable process_angles : list (list Q) -> Q -> list (string * ndarray).
Variable em_format : ndarray3 -> ndarray3.
Variable emergence_psi : ndarray3 -> ndarray -> ndarray.

Local Abbreviation stats_of :=
  (experiment_stats np_sqrt process_space process_angles em_format emergence_psi).
Local Abbreviation average_of :=
  (time_average np_sqrt process_space process_angles em_format emergence_psi).
Local Abbreviation batch_step :=
  (process_batch np_sqrt process_space process_angles em_format emergence_psi).
Local Abbreviation aggregate :=
  (aggregate_model_stats np_sqrt process_space process_angles em_format
     emergence_psi).

(** X11.  If a parameter to aggregate by is a parameter of no loaded
    model, [aggregate_model_stats] raises [ValueError], whatever else it
    is given. *)
Theorem aggregate_unknown_parameter (models : models_dict)
    (param_list stats_names : list string) (skip : nat) (p : string) :
  In p param_list -> ~ In p (model_params models) ->
  aggregate models param_list stats_names skip = Raised ValueError.
Proof.
  intros Hin Hnot. unfold aggregate_model_stats. rewrite check_params.
  destruct (forallb _ param_list) eqn:E; [|reflexivity].
  rewrite forallb_forall in E. specialize (E p Hin).
  apply in_list_true in E. contradiction.
Qed.

(** X12.  If the name of every loaded model contains a hyphen, there is
    no batch: given parameters of the models, [aggregate_model_stats]
    returns the empty dictionary. *)
Theorem aggregate_without_first_runs (models : models_dict)
    (param_list stats_names : list string) (skip : nat) :
  (forall p, In p param_list -> In p (model_params models)) ->
  (forall name, In name (map fst models) -> Str.contains "-"%string name = true) ->
  aggregate models param_list stats_names skip = Returned fresh_store /\
  read fresh_store root = [].
Proof.
  intros Hp Hnames. split; [|reflexivity].
  unfold aggregate_model_stats. rewrite check_params.
  assert (E : forallb (fun p => in_list p (model_params models)) param_list = true).
  { apply forallb_forall. intros p Hin. apply in_list_true, Hp, Hin. }
  rewrite E. cbn [obind]. unfold batch_names.
  assert (F : List.filter (fun m => negb (Str.contains "-"%string m)) (map fst models) = []).
  { induction (map fst models) as [|n ns IH]; [reflexivity|].
    cbn [List.filter]. rewrite (Hnames n (or_introl eq_refl)). cbn [negb].
    apply IH. intros name Hn. apply Hnames. right. exact Hn. }
  rewrite F. reflexivity.
Qed.

(** X13.  If [aggregate_model_stats] returns, then every parameter to
    aggregate by is a parameter of some model; the first run of every
    batch has every parameter that any model has (the progress message
    reads them all); and the run suffixes of the experiments of a batch
    are numbers from 0 to [count - 1], with [count] at least 1: the
    division by [count] is never one by zero. *)
Theorem aggregate_returned_inputs (models : models_dict)
    (param_list stats_names : list string) (skip : nat) (h : store) :
  aggregate models param_list stats_names skip = Returned h ->
  (forall p, In p param_list -> In p (model_params models)) /\
  forall batch, In batch (batch_names models) ->
    (exists mb, getmodel models batch = Returned mb /\
       forall p, In p (model_params models) -> exists q, getparam mb p = Returned q) /\
    (exists count,
       count_runs (exp_in_batch models batch) = Returned count /\
       (1 <= count)%Z /\
       forall exp, In exp (exp_in_batch models batch) ->
         exists z, run_index exp = Returned z /\ (0 <= z < count)%Z).
Proof.
  unfold aggregate_model_stats. rewrite check_params. intros H.
  destruct (forallb _ param_list) eqn:E; [|discriminate]. cbn [obind] in H.
  split.
  { intros p Hin. rewrite forallb_forall in E. apply in_list_true, E, Hin. }
  intros batch Hb.
  destruct (foldM_rounds _ _ _ _ H batch Hb) as (s1 & s2 & Hstep).
  unfold process_batch in Hstep.
  apply obind_returned in Hstep as (count & Hcount & Hstep).
  apply obind_returned in Hstep as (printed & Hprint & _).
  destruct (batch_has_model _ _ Hb) as [mb Hmb]. split.
  - exists mb. split; [exact Hmb|]. intros p Hin.
    destruct (mapM_inv _ _ _ Hprint p Hin) as (q & Hq & _).
    rewrite Hmb in Hq. exists q. exact Hq.
  - exists count. split; [exact Hcount|]. apply count_runs_bounds, Hcount.
Qed.

Section Averaging.
Variable models : models_dict.
Variable pl names : list string.
Variable skip : nat.
Hypothesis names_NoDup : List.NoDup names.

(** The loop over the experiments of a batch, in full. *)
Lemma experiments_effect (D : list nat) (a : addr) :
  D !! a = Some 0%nat ->
  forall (exps : list string) (h h' : store),
    typed names D h ->
    foldM (fun h exp =>
             m <- getmodel models exp ;;
             s <- stats_of skip m ;;
             foldM (accumulate s (VDict a)) names h) exps h = Returned h' ->
    same_but names a D h h' /\
    forall stat, In stat names ->
      exists xs,
        mapM (fun exp => m <- getmodel models exp ;; average_of skip m stat) exps
          = Returned xs /\
        number_at h' a stat = accumulated (number_at h a stat) xs.
Proof.
  intros Ha. induction exps as [|exp exps IH]; intros h h' Ht Hrun.
  - injection Hrun as <-. split; [apply same_but_refl, Ht|].
    intros stat _. exists []. split; reflexivity.
  - cbn [foldM] in Hrun. apply obind_returned in Hrun as (h1 & H1 & Hrest).
    apply obind_returned in H1 as (m & Hm & H1).
    apply obind_returned in H1 as (s & Hs & H1).
    destruct (accumulate_names names s D a Ha names h h1 names_NoDup
                (fun st H => H) Ht H1) as (S1 & Hin & _).
    destruct (IH h1 h' (proj1 S1) Hrest) as (S2 & Hxs).
    split; [eapply same_but_trans; eauto|].
    intros stat Hstat.
    destruct (Hin stat Hstat) as (arr & Harr & Hv).
    destruct (Hxs stat Hstat) as (xs & Hmap & Hv').
    exists (np_mean arr :: xs). split.
    + cbn [mapM]. rewrite Hm. cbn [obind]. unfold time_average at 1.
      rewrite Hs. cbn [obind]. unfold Dict.getitem. rewrite Harr. cbn [obind].
      rewrite Hmap. reflexivity.
    + rewrite Hv', Hv. reflexivity.
Qed.

(** One round of the loop over the batches, in full. *)
Lemma process_batch_effect (D : list nat) (h : store) (batch : string) (h' : store) :
  In batch (batch_names models) ->
  typed names D h -> D !! root = Some (length pl) -> tree h ->
  batch_step models pl names skip h batch = Returned h' ->
  exists E leaf mb pvals count,
    typed names (D ++ E) h' /\ tree h' /\ ext h h' /\
    (D ++ E) !! leaf = Some 0%nat /\
    getmodel models batch = Returned mb /\
    mapM (getparam mb) pl = Returned pvals /\
    follow h' root (map KNum pvals) = Some leaf /\
    count_runs (exp_in_batch models batch) = Returned count /\
    (forall stat, In stat names ->
       exists xs y,
         mapM (fun exp => m <- getmodel models exp ;; average_of skip m stat)
           (exp_in_batch models batch) = Returned xs /\
         accumulated (number_at h leaf stat) xs = Some y /\
         number_at h' leaf stat = Some (fdiv y (inject_Z count))) /\
    (forall b, b <> leaf -> (D ++ E) !! b = Some 0%nat -> read h' b = read h b) /\
    (forall b, (length D <= b)%nat -> (D ++ E) !! b = Some 0%nat -> b = leaf).
Proof.
  intros Hb Ht Hroot Htree Hrun. destruct (batch_has_model _ _ Hb) as [mb Hmb].
  unfold process_batch in Hrun.
  apply obind_returned in Hrun as (count & Hcount & Hrun).
  apply obind_returned in Hrun as (printed & _ & Hrun).
  apply obind_returned in Hrun as (ht & Hpath & Hrun).
  apply obind_returned in Hrun as (h1 & Hexps & Havg).
  destruct (path_effect names mb models batch Hmb pl D h root ht Ht Hroot Htree Hpath)
    as (E & leaf & pvals & Hleaf & Ht1 & Hd1 & He1 & Hm & Hf & Hkeep & Hnew & Htr1).
  rewrite Hleaf in Hexps, Havg.
  destruct (experiments_effect (D ++ E) leaf Hd1 _ _ _ Ht1 Hexps) as (S2 & Hacc).
  destruct (average_names names count (D ++ E) leaf Hd1 names h1 h' names_NoDup
              (fun st H => H) (proj1 S2) Havg) as (S3 & Havgd & _).
  pose proof (same_but_trans names leaf (D ++ E) _ _ _ S2 S3) as (T3 & R3 & Tr3 & E3).
  exists E, leaf, mb, pvals, count.
  split; [exact T3|]. split; [apply Tr3, Htr1|].
  split; [eapply ext_trans; eauto|].
  split; [exact Hd1|]. split; [exact Hmb|]. split; [exact Hm|].
  split; [eapply follow_ext; [exact E3 | exact Hf]|].
  split; [exact Hcount|]. split.
  - intros stat Hstat.
    destruct (Hacc stat Hstat) as (xs & Hmap & Hv).
    destruct (Havgd stat Hstat) as (y & Hy & Hv').
    exists xs, y. split; [exact Hmap|]. split; [|exact Hv'].
    rewrite <- Hy, Hv. unfold number_at. rewrite (Hkeep leaf Hd1). reflexivity.
  - split; [|exact Hnew].
    intros b Hb' Hd. rewrite (R3 b Hb'). apply Hkeep, Hd.
Qed.

(** The loop over a list of batches, in full: a dictionary of depth 0
    that none of them ends at is left as it was. *)
Lemma batches_effect (bs : list string) :
  forall (D : list nat) (h h' : store),
    (forall b, In b bs -> In b (batch_names models)) ->
    typed names D h -> D !! root = Some (length pl) -> tree h ->
    foldM (batch_step models pl names skip) bs h = Returned h' ->
    exists E,
      typed names (D ++ E) h' /\ tree h' /\ ext h h' /\
      (forall L,
         (D ++ E) !! L = Some 0%nat \/ (length (D ++ E) <= L)%nat ->
         (forall b mb pvals, In b bs ->
            getmodel models b = Returned mb ->
            mapM (getparam mb) pl = Returned pvals ->
            follow h' root (map KNum pvals) <> Some L) ->
         read h' L = read h L) /\
      (forall L, (length D <= L)%nat -> (D ++ E) !! L = Some 0%nat ->
         exists b mb pvals, In b bs /\
           getmodel models b = Returned mb /\
           mapM (getparam mb) pl = Returned pvals /\
           follow h' root (map KNum pvals) = Some L).
Proof.
  induction bs as [|b bs IH]; intros D h h' Hsub Ht Hroot Htree Hrun.
  - injection Hrun as <-. exists []. rewrite app_nil_r.
    split; [exact Ht|]. split; [exact Htree|]. split; [apply ext_refl|].
    split; [reflexivity|].
    intros L Hlen Hd. apply lookup_lt_Some in Hd. lia.
  - cbn [foldM] in Hrun. apply obind_returned in Hrun as (h1 & H1 & Hrest).
    destruct (process_batch_effect D h b h1 (Hsub b (or_introl eq_refl))
                Ht Hroot Htree H1)
      as (E1 & leaf & mb & pvals & count & Ht1 & Htr1 & He1 & Hd1 & Hmb & Hpv
          & Hf & _ & _ & Hkeep & Hnew).
    destruct (IH (D ++ E1) h1 h' (fun x H => Hsub x (or_intror H)) Ht1
                (lookup_app_l_Some _ _ _ _ Hroot) Htr1 Hrest)
      as (E2 & Ht2 & Htr2 & He2 & Hrest_keep & Hrest_new).
    exists (E1 ++ E2). rewrite app_assoc.
    split; [exact Ht2|]. split; [exact Htr2|].
    split; [eapply ext_trans; eauto|]. split.
    + intros L HL Hother.
      rewrite (Hrest_keep L HL)
        by (intros b' mb' pv' Hin; apply Hother; right; exact Hin).
      assert (Hne : L <> leaf).
      { intros ->. apply (Hother b mb pvals (or_introl eq_refl) Hmb Hpv).
        eapply follow_ext; eauto. }
      destruct (Nat.lt_ge_cases L (length (D ++ E1))) as [Hlt|Hge].
      * apply Hkeep; [exact Hne|].
        destruct HL as [HL|HL]; [|rewrite length_app in HL; lia].
        rewrite lookup_app_l in HL by exact Hlt. exact HL.
      * rewrite !read_out_of_range; [reflexivity| |].
        -- rewrite <- (proj1 Ht). rewrite length_app in Hge. lia.
        -- rewrite <- (proj1 Ht1). exact Hge.
    + intros L Hlen Hd.
      destruct (Nat.lt_ge_cases L (length (D ++ E1))) as [Hlt|Hge].
      * rewrite lookup_app_l in Hd by exact Hlt.
        rewrite (Hnew L Hlen Hd). exists b, mb, pvals.
        split; [left; reflexivity|]. split; [exact Hmb|]. split; [exact Hpv|].
        eapply follow_ext; eauto.
      * destruct (Hrest_new L Hge Hd) as (b' & mb' & pv' & Hin & H').
        exists b', mb', pv'. split; [right; exact Hin | exact H'].
Qed.

Lemma fresh_store_tree : tree fresh_store.
Proof.
  intros a1 a2 k1 k2 c H1. destruct a1 as [|[|a1]]; destruct H1.
Qed.

Lemma Forall2_key_Qeq (pv1 pv2 : list Q) :
  Forall2 (fun k k' => key_eqb k k' = true) (map KNum pv1) (map KNum pv2) ->
  Forall2 Qeq pv1 pv2.
Proof.
  revert pv2. induction pv1 as [|p pv1 IH]; intros [|q pv2] H;
    inversion H; subst; constructor.
  - apply Qeq_bool_iff. assumption.
  - apply IH. assumption.
Qed.

(** X14.  When the names of the models are distinct, and so are the
    statistic names, the innermost dictionary of a batch whose values of
    the parameters to aggregate by are shared by no other batch is
    written in the round of that batch only.  The loop over the batches
    splits at the batch: when its round starts, its innermost dictionary
    is not there yet or is empty, so that every statistic is set there
    with [=] before it is added to with [+=]; and what the round leaves
    in it is what the result holds. *)
Theorem unshared_batch_is_written_once (h : store) (batch : string)
    (mb : FlockModel) (pvals : list Q) :
  List.NoDup (map fst models) ->
  aggregate models pl names skip = Returned h ->
  In batch (batch_names models) ->
  getmodel models batch = Returned mb ->
  mapM (getparam mb) pl = Returned pvals ->
  (forall b' m' pv', In b' (batch_names models) -> b' <> batch ->
     getmodel models b' = Returned m' ->
     mapM (getparam m') pl = Returned pv' ->
     ~ Forall2 Qeq pv' pvals) ->
  exists before after hA hB leaf,
    batch_names models = before ++ batch :: after /\
    foldM (batch_step models pl names skip) before fresh_store = Returned hA /\
    batch_step models pl names skip hA batch = Returned hB /\
    foldM (batch_step models pl names skip) after hB = Returned h /\
    follow hB root (map KNum pvals) = Some leaf /\
    follow h root (map KNum pvals) = Some leaf /\
    read hA leaf = [] /\
    read h leaf = read hB leaf.
Proof.
  intros Hnd Hrun Hb Hmb Hpv Hother.
  unfold aggregate_model_stats in Hrun.
  apply obind_returned in Hrun as (_ & _ & Hrun).
  pose proof (NoDup_batch_names models Hnd) as Hndb.
  destruct (in_split _ _ Hb) as (bs1 & bs2 & Hsplit).
  rewrite Hsplit in Hrun, Hndb.
  assert (Hin1 : forall b, In b bs1 -> In b (batch_names models) /\ b <> batch).
  { intros b Hin. split; [rewrite Hsplit; apply in_or_app; left; exact Hin|].
    intros ->. apply List.NoDup_remove_2 in Hndb. apply Hndb, in_or_app.
    left. exact Hin. }
  assert (Hin2 : forall b, In b bs2 -> In b (batch_names models) /\ b <> batch).
  { intros b Hin. split; [rewrite Hsplit; apply in_or_app; right; right; exact Hin|].
    intros ->. apply List.NoDup_remove_2 in Hndb. apply Hndb, in_or_app.
    right. exact Hin. }
  rewrite foldM_app in Hrun. apply obind_returned in Hrun as (hA & HA & Hrun).
  cbn [foldM] in Hrun. apply obind_returned in Hrun as (hB & HB & HC).
  assert (Hroot0 : [length pl] !! root = Some (length pl)) by reflexivity.
  destruct (batches_effect bs1 [length pl] fresh_store hA
              (fun b H => proj1 (Hin1 b H)) (fresh_store_typed names _)
              Hroot0 fresh_store_tree HA)
    as (EA & HtA & HtrA & HeA & HkeepA & _).
  destruct (process_batch_effect _ hA batch hB Hb HtA
              (lookup_app_l_Some _ _ _ _ Hroot0) HtrA HB)
    as (EB & leaf & mb' & pvals' & count & HtB & HtrB & HeB & HdB & Hmb' & Hpv'
        & HfB & _ & _ & _ & _).
  assert (mb' = mb) as -> by congruence.
  assert (pvals' = pvals) as -> by congruence.
  destruct (batches_effect bs2 _ hB h
              (fun b H => proj1 (Hin2 b H)) HtB
              (lookup_app_l_Some _ _ _ _ (lookup_app_l_Some _ _ _ _ Hroot0))
              HtrB HC)
    as (EC & HtC & HtrC & HeC & HkeepC & _).
  assert (Hleaf : follow h root (map KNum pvals) = Some leaf)
    by (eapply follow_ext; eauto).
  (* no other batch ends at this dictionary *)
  assert (Hapart : forall b' m' pv', In b' (batch_names models) -> b' <> batch ->
            getmodel models b' = Returned m' ->
            mapM (getparam m') pl = Returned pv' ->
            follow h root (map KNum pv') <> Some leaf).
  { intros b' m' pv' Hb' Hne Hm' Hpv'' Hf.
    apply (Hother b' m' pv' Hb' Hne Hm' Hpv''). apply Forall2_key_Qeq.
    apply (follow_injective h root leaf); [exact HtrC| |exact Hf|exact Hleaf].
    rewrite !length_map, (mapM_length _ _ _ Hpv''), (mapM_length _ _ _ Hpv).
    reflexivity. }
  exists bs1, bs2, hA, hB, leaf.
  split; [exact Hsplit|]. split; [exact HA|]. split; [exact HB|].
  split; [exact HC|]. split; [exact HfB|]. split; [exact Hleaf|]. split.
  - (* before the round of the batch *)
    destruct (Nat.lt_ge_cases leaf (length ([length pl] ++ EA))) as [Hlt|Hge].
    + rewrite (HkeepA leaf).
      * destruct leaf as [|[|l]]; reflexivity.
      * left. rewrite <- (lookup_app_l _ EB) by exact Hlt. exact HdB.
      * intros b' m' pv' Hin Hm' Hpv'' Hf.
        destruct (Hin1 b' Hin) as [Hb' Hne].
        apply (Hapart b' m' pv' Hb' Hne Hm' Hpv'').
        eapply follow_ext; [|exact Hf]. eapply ext_trans; eauto.
    + apply read_out_of_range. rewrite <- (proj1 HtA). exact Hge.
  - (* after it *)
    apply (HkeepC leaf).
    + left. apply lookup_app_l_Some, HdB.
    + intros b' m' pv' Hin Hm' Hpv''.
      destruct (Hin2 b' Hin) as [Hb' Hne].
      apply (Hapart b' m' pv' Hb' Hne Hm' Hpv'').
Qed.

End Averaging.

(** After an aggregation by one parameter or more, every dictionary of
    depth 0 is the one of some batch, and holds a number under every
    name. *)
Lemma aggregate_complete (models : models_dict) (pl names : list string)
    (skip : nat) (h : store) :
  List.NoDup names -> pl <> [] ->
  aggregate models pl names skip = Returned h ->
  exists D, typed names D h /\ D !! root = Some (length pl) /\
    forall L, D !! L = Some 0%nat ->
      forall stat, In stat names -> has_number L stat h.
Proof.
  intros Hnd Hpl Hrun.
  destruct (aggregate_batches np_sqrt process_space process_angles em_format
              emergence_psi models pl names skip h Hrun) as [_ Hdone].
  unfold aggregate_model_stats in Hrun.
  apply obind_returned in Hrun as (_ & _ & Hrun).
  assert (Hroot0 : [length pl] !! root = Some (length pl)) by reflexivity.
  destruct (batches_effect models pl names skip Hnd (batch_names models)
              [length pl] fresh_store h (fun b H => H)
              (fresh_store_typed names _) Hroot0 fresh_store_tree Hrun)
    as (E & Ht & _ & _ & _ & Hnew).
  exists ([length pl] ++ E). split; [exact Ht|].
  split; [reflexivity|].
  intros L HL stat Hstat. destruct L as [|L].
  { cbn in HL. destruct pl; [contradiction | discriminate]. }
  destruct (Hnew (S L)) as (b & mb & pvals & Hb & Hmb & Hpv & Hf);
    [cbn; lia | exact HL |].
  destruct (Hdone b Hb) as [(mb' & pvals' & leaf & Hmb' & Hpv' & Hf' & Hnum) _].
  assert (mb' = mb) as -> by congruence.
  assert (pvals' = pvals) as -> by congruence.
  assert (leaf = S L) as -> by congruence.
  apply Hnum, Hstat.
Qed.

Lemma aggregate_complete2 (models : models_dict) (pa pb : string)
    (names : list string) (skip : nat) (h : store) :
  List.NoDup names ->
  aggregate models [pa; pb] names skip = Returned h ->
  nested names h 2 root /\ complete2 names h.
Proof.
  intros Hnd Hrun.
  destruct (aggregate_complete models [pa; pb] names skip h Hnd
              ltac:(discriminate) Hrun) as (D & Ht & Hroot & Hall).
  split; [apply (typed_nested names D h Ht 2%nat root Hroot)|].
  intros k0 a1 k1 a2 I0 I1 stat Hstat.
  pose proof (proj2 Ht root _ k0 _ Hroot I0) as Ok0.
  destruct k0 as [q0|s0]; [|destruct Ok0]. cbn in Ok0.
  pose proof (proj2 Ht a1 _ k1 _ Ok0 I1) as Ok1.
  destruct k1 as [q1|s1]; [|destruct Ok1]. cbn in Ok1.
  apply (Hall a2 Ok1 stat Hstat).
Qed.

(** One round of the loop over the batches reads the models by name only. *)
Lemma process_batch_perm (models models' : models_dict)
    (param_list stats_names : list string) (skip : nat) (h : store) (batch : string) :
  List.NoDup (map fst models) -> Permutation models models' ->
  batch_step models param_list stats_names skip h batch =
  batch_step models' param_list stats_names skip h batch.
Proof.
  intros N P. unfold process_batch, exp_in_batch.
  rewrite <- (names_perm models models' _ N P).
  destruct (count_runs _) as [count|e]; [|reflexivity]. cbn [obind].
  rewrite (mapM_ext
             (fun p => mb <- getmodel models' batch ;; getparam mb p)
             (fun p => mb <- getmodel models batch ;; getparam mb p))
    by (intros p; rewrite (getmodel_perm models models' batch N P); reflexivity).
  rewrite (mapM_same_members
             (fun p => mb <- getmodel models batch ;; getparam mb p) KeyError
             (model_params models) (model_params models')).
  2:{ intros p. unfold getmodel, getparam, Dict.getitem.
      destruct (Dict.lookup String.eqb models batch) as [mb|]; [|right; reflexivity].
      cbn [obind]. destruct (Dict.lookup String.eqb (params mb) p); [left; eauto|].
      right. reflexivity. }
  2:{ intros p. apply model_params_perm, P. }
  destruct (mapM _ (model_params models')) as [printed|e]; [|reflexivity].
  cbn [obind].
  rewrite (foldM_ext
             (fun (ht : list (list (key * value)) * value) p =>
                mb <- getmodel models batch ;;
                pval <- getparam mb p ;;
                descend (fst ht) (snd ht) pval)
             (fun (ht : list (list (key * value)) * value) p =>
                mb <- getmodel models' batch ;;
                pval <- getparam mb p ;;
                descend (fst ht) (snd ht) pval))
    by (intros ht p; rewrite (getmodel_perm models models' batch N P); reflexivity).
  destruct (foldM _ param_list _) as [ht|e]; [|reflexivity]. cbn [obind].
  rewrite (foldM_ext
             (fun h0 exp =>
                m <- getmodel models exp ;;
                s <- experiment_stats np_sqrt process_space process_angles em_format
                       emergence_psi skip m ;;
                foldM (accumulate s (snd ht)) stats_names h0)
             (fun h0 exp =>
                m <- getmodel models' exp ;;
                s <- experiment_stats np_sqrt process_space process_angles em_format
                       emergence_psi skip m ;;
                foldM (accumulate s (snd ht)) stats_names h0))
    by (intros h0 exp; rewrite (getmodel_perm models models' exp N P); reflexivity).
  reflexivity.
Qed.

(** X21.  The outcome of [aggregate_model_stats] does not depend on the
    order in which the models were loaded: batches and experiments are
    processed in sorted order. *)
Theorem aggregate_listing_order (models models' : models_dict)
    (param_list stats_names : list string) (skip : nat) :
  List.NoDup (map fst models) -> Permutation models models' ->
  aggregate models param_list stats_names skip =
  aggregate models' param_list stats_names skip.
Proof.
  intros N P. unfold aggregate_model_stats.
  rewrite !check_params.
  assert (Hcheck : forallb (fun p => in_list p (model_params models)) param_list =
                   forallb (fun p => in_list p (model_params models')) param_list).
  { induction param_list as [|p pl IH]; [reflexivity|]. cbn [forallb].
    rewrite IH. f_equal.
    destruct (in_list p (model_params models)) eqn:E1,
             (in_list p (model_params models')) eqn:E2; try reflexivity.
    - apply in_list_true in E1. apply (model_params_perm _ _ p P) in E1.
      apply in_list_true in E1. congruence.
    - apply in_list_true in E2. apply (model_params_perm _ _ p P) in E2.
      apply in_list_true in E2. congruence. }
  rewrite Hcheck. clear Hcheck. unfold batch_names.
  rewrite (names_perm models models' _ N P).
  destruct (forallb _ param_list); [|reflexivity]. cbn [obind].
  apply foldM_ext. intros h batch. apply process_batch_perm; assumption.
Qed.

Section Script.
Variable list_of_set : list key -> list key.
Variable tex_symbol : string -> bool.
Variable find_models : string -> string -> models_dict.

(** X18.  With two parameters to aggregate by whose names mathtext can
    typeset, and models on which the aggregation can run, [plot_results]
    returns: it aggregates, sets the figure size, and saves four figures
    per value of the first parameter, each of one curve. *)
Theorem plot_results_two_parameters (path out model pa pb : string) (markers : nat) :
  find_models path model <> [] ->
  runnable np_sqrt process_space process_angles em_format emergence_psi
    (find_models path model) [pa; pb] (map fst titles) 10 ->
  tex_symbol pa = true -> tex_symbol pb = true ->
  exists h w,
    results_stats np_sqrt process_space process_angles em_format emergence_psi
      (find_models path model) [pa; pb] = Returned h /\
    plot_results np_sqrt process_space process_angles em_format emergence_psi
      list_of_set tex_symbol find_models path out model [pa; pb] markers =
      (RcParams "figure.figsize" [10; 7]%Z :: w,
       Returned (markers + 4 * length (read h root))%nat) /\
    saved_files w =
      flat_map (fun val =>
                  map (file_2param model out pa pb val) (map fst (read h root)))
        (map fst titles) /\
    length (curves w) = (4 * length (read h root))%nat.
Proof.
  intros Hmodels Hrun Ha Hb.
  destruct (aggregate_returns np_sqrt process_space process_angles em_format
              emergence_psi _ _ _ _ Hrun) as [h Hh].
  destruct (aggregate_complete2 _ pa pb _ _ h titles_NoDup Hh) as [Hn Hc].
  destruct (plot_2param_figures tex_symbol model h pa pb out markers Ha Hb Hn Hc)
    as (w & Hw & Hf & Hcv).
  exists h, w. split; [exact Hh|]. split; [|split; assumption].
  unfold plot_results. cbn [length Nat.ltb Nat.leb Nat.eqb].
  destruct (find_models path model) as [|m ms] eqn:E; [contradiction|].
  cbn [length Nat.eqb]. unfold results_stats. rewrite Hh.
  unfold lift. rewrite bind_ret_l. rewrite Hw.
  cbn [call Plt.bind Plt.ret app]. rewrite app_nil_r. reflexivity.
Qed.

(** X19.  With three parameters, of which mathtext can typeset the names
    of the first and of the second, when the aggregation returns a
    complete grid, [plot_results] returns and saves four figures per
    value of the first parameter; the marker cycle of the module is left
    where it was. *)
Theorem plot_results_three_parameters (path out model pa pb pc : string)
    (markers : nat) (h : store) :
  find_models path model <> [] ->
  results_stats np_sqrt process_space process_angles em_format emergence_psi
    (find_models path model) [pa; pb; pc] = Returned h ->
  set_order list_of_set -> complete3 (map fst titles) h ->
  tex_symbol pa = true -> tex_symbol pb = true ->
  exists w,
    plot_results np_sqrt process_space process_angles em_format emergence_psi
      list_of_set tex_symbol find_models path out model [pa; pb; pc] markers =
      (RcParams "figure.figsize" [10; 7]%Z :: w, Returned markers) /\
    saved_files w =
      flat_map (fun val =>
                  map (file_3param model out pa pb pc val) (map fst (read h root)))
        (map fst titles).
Proof.
  intros Hmodels Hh Hset Hc Ha Hb.
  pose proof (proj1 (aggregate_leaves np_sqrt process_space process_angles
                       em_format emergence_psi _ _ _ _ h Hh)) as Hn.
  destruct (plot_3param_figures tex_symbol list_of_set model h pa pb pc out
              Ha Hb Hset Hn Hc) as (w & Hw & Hf).
  exists w. split; [|exact Hf].
  unfold plot_results. cbn [length Nat.ltb Nat.leb Nat.eqb].
  destruct (find_models path model) as [|m ms] eqn:E; [contradiction|].
  cbn [length Nat.eqb]. rewrite Hh.
  unfold lift. rewrite bind_ret_l. rewrite Hw.
  cbn [call Plt.bind Plt.ret app]. rewrite app_nil_r. reflexivity.
Qed.

(** X20.  [plot_results] exits, with [SystemExit], before it aggregates
    when no model is found; and with fewer than two parameters to
    aggregate by it aggregates, sets the figure size and plots nothing. *)
Theorem plot_results_plots_nothing (path out model : string)
    (aggregate : list string) (markers : nat) :
  ((length aggregate <= 3)%nat -> find_models path model = [] ->
   plot_results np_sqrt process_space process_angles em_format emergence_psi
     list_of_set tex_symbol find_models path out model aggregate markers =
     ([], Raised SystemExit)) /\
  ((length aggregate < 2)%nat -> find_models path model <> [] ->
   forall h,
     results_stats np_sqrt process_space process_angles em_format emergence_psi
       (find_models path model) aggregate = Returned h ->
     plot_results np_sqrt process_space process_angles em_format emergence_psi
       list_of_set tex_symbol find_models path out model aggregate markers =
       ([RcParams "figure.figsize" [10; 7]%Z], Returned markers)).
Proof.
  split.
  - intros Hlen Hnone. unfold plot_results.
    destruct (Nat.ltb_spec 3 (length aggregate)); [lia|].
    rewrite Hnone. reflexivity.
  - intros Hlen Hsome h Hh. unfold plot_results.
    destruct (Nat.ltb_spec 3 (length aggregate)); [lia|].
    destruct (find_models path model) as [|m ms] eqn:E; [contradiction|].
    cbn [length Nat.eqb]. rewrite Hh.
    destruct (Nat.eqb_spec (length aggregate) 2); [lia|].
    destruct (Nat.eqb_spec (length aggregate) 3); [lia|].
    reflexivity.
Qed.

End Script.
End Statistics.
End ContentFacts.

(** ** Instances *)

Module FigureCases.
Import Py Plt Plot Figures Sample Grid PlotFacts FigureFacts.
Local Open Scope Q_scope.

Lemma prepare_state_plot_ticks_witness :
  exists ticks,
    calls (prepare_state_plot (5 # 2)) =
      [Axis 0 (5 # 2) 0 (5 # 2); StyleUse "dark_background"; Gca;
       SetAspect "equal"; SetXTicks ticks; SetYTicks ticks] /\
    forall k, In k ticks <-> (0 <= k)%Z /\ inject_Z k <= 5 # 2.
Proof.
  apply (proj2 (proj2 (proj2 (prepare_state_plot_ticks (5 # 2))))).
  - vm_compute. discriminate.
  - reflexivity.
Defined.

Lemma plot_oscillator_fade_out_of_range_witness :
  plot_oscillator (1, 2) 7 1 1 false "y" "g" = ([], Raised ValueError).
Proof.
  apply (proj1 (plot_oscillator_fade_out_of_range (1, 2) 7 1 1 "y" "g")).
  right. reflexivity.
Defined.


Lemma window_positions_witness :
  length (window 2 0 crossing) = 2%nat /\
  window 2 0 crossing !! 1%nat = crossing !! 2%nat.
Proof.
  apply (proj2 (proj2 (window_positions 2 0 crossing))); simpl; lia.
Defined.

Lemma plot_trajectory_visible_positions_witness :
  exists xs ys,
    plot_trajectory 2 crossing 10 "grey" 20 =
      ([Plot xs ys
          {| kw_color := Named "grey"; kw_linestyle := None; kw_marker := None;
             kw_label := None; kw_alpha := Some (3 # 10); kw_linewidth := None |}],
       Returned tt) /\
    point_at xs ys 0 = None /\
    point_at xs ys 2 = Some (9, 1).
Proof.
  destruct (plot_trajectory_visible_positions 2 crossing 10 "grey" 20)
    as (xs & ys & Heq & _ & _ & Hvis & _ & Hlast).
  - lia.
  - discriminate.
  - exists xs, ys. split; [exact Heq|]. split.
    + destruct (point_at xs ys 0) as [p|] eqn:E; [|reflexivity].
      apply Hvis in E. destruct E as [Hp Hj]. injection Hp as <-.
      destruct (Hj (9, 0) eq_refl) as [Hx _]. vm_compute in Hx. discriminate.
    + apply (Hlast (9, 1)). reflexivity.
Defined.


Lemma plot_state_vectors_short_arrays_witness :
  plot_state_vectors east no_sum 0 [(1, 2); (3, 4)] [0] [1; 1] 10
    "title" "subtitle" "out" false true false =
  (calls (prepare_state_plot 10) ++ [Quiver 1 2 (1 * 1) (0 * 1) "w"],
   Raised IndexError).
Proof.
  refine (proj1 (plot_state_vectors_short_arrays east no_sum 0
                   [(1, 2); (3, 4)] [0] [1; 1] 10
                   "title" "subtitle" "out" false true false _)).
  left. simpl. lia.
Defined.



Lemma plot_trajectories_saves_its_own_drawing_witness :
  saved_figures true {| on_axes := [Legend]; on_figure := [] |}
    (calls (plot_trajectories one_frame [(1, 2)] 10
              "name" "title" "suptitle" "out" true true)) =
  [([Str "out"; Str "/trajectories_"; Str "name"; Str ".png"], blank)].
Proof.
  exact (plot_trajectories_saves_its_own_drawing one_frame [(1, 2)] 10
           "name" "title" "suptitle" "out" true eq_refl true
           {| on_axes := [Legend]; on_figure := [] |}).
Defined.

End FigureCases.

Module ContentCases.
Import Py Plt Store Aggregate Figures Content Sample Grid.
Import StoreFacts PlotFacts AggregateFacts AggregateCases ContentFacts.
Local Open Scope string_scope.

Lemma repeated_names_NoDup : List.NoDup (map fst repeated).
Proof. repeat constructor; simpl; intuition discriminate. Qed.

Lemma r_varies_aggregated :
  aggregate r_varies ["rho"; "eta"; "r"] (map fst titles) 10 = Returned r_varies_stats.
Proof. vm_compute. reflexivity. Qed.

Lemma r_varies_complete : complete3 (map fst titles) r_varies_stats.
Proof.
  intros k0 a1 k1 a2 k1' a2' k2 v I0 I1 I1' I2.
  destruct I0 as [[= <- <-]|[]].
  destruct I1 as [[= <- <-]|[]].
  destruct I1' as [[= <- <-]|[]].
  assert (Hleaf : forall a, a = 3%nat \/ a = 4%nat ->
            forall stat, In stat (map fst titles) -> has_number a stat r_varies_stats).
  { intros a Ha stat Hs. cbn in Hs.
    destruct Ha as [-> | ->]; decompose [or] Hs; try contradiction; subst stat;
      eexists; reflexivity. }
  destruct I2 as [[= <- <-]|[[= <- <-]|[]]].
  - exists 3%nat. split; [reflexivity | apply Hleaf; auto].
  - exists 4%nat. split; [reflexivity | apply Hleaf; auto].
Qed.

Lemma aggregate_unknown_parameter_witness :
  aggregate repeated ["rho"; "r"] (map fst titles) 10 = Raised ValueError.
Proof.
  apply (aggregate_unknown_parameter sample_sqrt sample_space sample_angles
           sample_format sample_psi repeated ["rho"; "r"] (map fst titles) 10 "r").
  - right. left. reflexivity.
  - vm_compute. intuition discriminate.
Defined.

Lemma aggregate_without_first_runs_witness :
  aggregate orphan ["rho"; "eta"] (map fst titles) 10 = Returned fresh_store.
Proof.
  refine (proj1 (aggregate_without_first_runs sample_sqrt sample_space
                   sample_angles sample_format sample_psi
                   orphan ["rho"; "eta"] (map fst titles) 10 _ _)).
  - intros p [<-|[<-|[]]]; vm_compute; tauto.
  - intros name [<-|[]]. reflexivity.
Defined.

Lemma aggregate_returned_inputs_witness :
  exists count,
    count_runs (exp_in_batch repeated "Vicsek") = Returned count /\
    (1 <= count)%Z /\
    forall exp, In exp (exp_in_batch repeated "Vicsek") ->
      exists z, run_index exp = Returned z /\ (0 <= z < count)%Z.
Proof.
  refine (proj2 (proj2 (aggregate_returned_inputs sample_sqrt sample_space
                          sample_angles sample_format sample_psi
                          repeated ["rho"; "eta"] (map fst titles) 10
                          repeated_stats repeated_aggregated)
                   "Vicsek" _)).
  left. reflexivity.
Defined.

Lemma with_other_names_NoDup : List.NoDup (map fst with_other).
Proof. repeat constructor; simpl; intuition discriminate. Qed.

Lemma with_other_aggregated :
  aggregate with_other ["rho"; "eta"] (map fst titles) 10 = Returned with_other_stats.
Proof. vm_compute. reflexivity. Qed.

Lemma unshared_batch_is_written_once_witness :
  exists before after hA hB leaf,
    batch_names with_other = (before ++ "Other" :: after)%list /\
    foldM (process_batch sample_sqrt sample_space sample_angles sample_format
             sample_psi with_other ["rho"; "eta"] (map fst titles) 10)
      before fresh_store = Returned hA /\
    process_batch sample_sqrt sample_space sample_angles sample_format
      sample_psi with_other ["rho"; "eta"] (map fst titles) 10 hA "Other"
      = Returned hB /\
    foldM (process_batch sample_sqrt sample_space sample_angles sample_format
             sample_psi with_other ["rho"; "eta"] (map fst titles) 10)
      after hB = Returned with_other_stats /\
    follow hB root (map KNum [1; 1 # 2]%Q) = Some leaf /\
    follow with_other_stats root (map KNum [1; 1 # 2]%Q) = Some leaf /\
    read hA leaf = [] /\
    read with_other_stats leaf = read hB leaf.
Proof.
  refine (unshared_batch_is_written_once sample_sqrt sample_space sample_angles
            sample_format sample_psi with_other ["rho"; "eta"] (map fst titles) 10
            titles_NoDup with_other_stats "Other" (still 5 (1 # 2) [])
            [1; 1 # 2]%Q with_other_names_NoDup with_other_aggregated _
            eq_refl eq_refl _).
  - left. reflexivity.
  - intros b' m' pv' [<-|[<-|[]]] Hne Hm Hp; [contradiction|].
    injection Hm as <-. injection Hp as <-.
    intros H. inversion H as [|x y l1 l2 _ H2]; subst.
    inversion H2 as [|x y l1 l2 Heta _]; subst.
    vm_compute in Heta. discriminate.
Defined.

Lemma plot_2param_complete_witness :
  (exists w,
     plot_2param greek "Vicsek" repeated_stats (VDict root) ["rho"; "eta"] "out" 0 =
       (w, Returned 4%nat) /\
     saved_files w =
       map (fun val => file_2param "Vicsek" "out" "rho" "eta" val (KNum 1))
         (map fst titles) /\
     length (curves w) = 4%nat) /\
  (exists w,
     plot_2param greek "Vicsek" repeated_stats (VDict root) ["rho"; "r"] "out" 0 =
       (w, Raised ValueError) /\
     saved_files w = [] /\ length (curves w) = 1%nat).
Proof.
  destruct (aggregate_complete2 sample_sqrt sample_space sample_angles
              sample_format sample_psi repeated "rho" "eta" (map fst titles) 10
              repeated_stats titles_NoDup repeated_aggregated) as [Hn Hc].
  split.
  - exact (proj1 (plot_2param_complete greek "Vicsek" repeated_stats "rho" "eta"
                    "out" 0 Hn Hc) eq_refl eq_refl).
  - refine (proj2 (plot_2param_complete greek "Vicsek" repeated_stats "rho" "r"
                     "out" 0 Hn Hc) eq_refl _).
    discriminate.
Defined.

Lemma plot_2param_two_parameters_only_witness :
  plot_2param greek "Vicsek" repeated_stats (VDict root) ["rho"] "out" 0 =
    ([], Raised ValueError) /\
  result (plot_2param greek "Vicsek" repeated_stats (VDict root) ["rho"; "r"]
            "out" 0) = Raised ValueError /\
  greek "r" && greek "rho" = false.
Proof.
  destruct (aggregate_complete2 sample_sqrt sample_space sample_angles
              sample_format sample_psi repeated "rho" "eta" (map fst titles) 10
              repeated_stats titles_NoDup repeated_aggregated) as [Hn Hc].
  assert (Hres : result (plot_2param greek "Vicsek" repeated_stats (VDict root)
                           ["rho"; "r"] "out" 0) = Raised ValueError).
  { destruct (plot_2param_untypeset greek "Vicsek" repeated_stats "rho" "r" "out" 0
                eq_refl Hn Hc) as (w & Hw & _); [discriminate|].
    rewrite Hw. reflexivity. }
  split; [|split; [exact Hres|]].
  - apply (proj1 (plot_2param_two_parameters_only greek "Vicsek" repeated_stats
                    (VDict root) ["rho"] "out" 0)).
    discriminate.
  - exact (proj2 (plot_2param_two_parameters_only greek "Vicsek" repeated_stats
                    (VDict root) ["rho"; "r"] "out" 0) eq_refl eq_refl Hn Hres).
Defined.

Lemma plot_3param_complete_witness :
  (exists w,
     plot_3param greek first_occurrences "Vicsek" r_varies_stats (VDict root)
       ["rho"; "eta"; "r"] "out" = (w, Returned tt) /\
     saved_files w =
       map (fun val => file_3param "Vicsek" "out" "rho" "eta" "r" val (KNum 1))
         (map fst titles)) /\
  (exists w,
     plot_3param greek first_occurrences "Vicsek" r_varies_stats (VDict root)
       ["r"; "rho"; "eta"] "out" = (w, Raised ValueError) /\
     saved_files w = []).
Proof.
  pose proof (proj1 (aggregate_leaves sample_sqrt sample_space sample_angles
                       sample_format sample_psi r_varies ["rho"; "eta"; "r"]
                       (map fst titles) 10 r_varies_stats r_varies_aggregated))
    as Hn.
  split.
  - exact (proj1 (plot_3param_complete greek first_occurrences "Vicsek"
                    r_varies_stats "rho" "eta" "r" "out"
                    first_occurrences_set_order Hn r_varies_complete)
             eq_refl eq_refl).
  - refine (proj2 (plot_3param_complete greek first_occurrences "Vicsek"
                     r_varies_stats "r" "rho" "eta" "out"
                     first_occurrences_set_order Hn r_varies_complete)
              eq_refl _).
    discriminate.
Defined.

Lemma plot_results_two_parameters_witness :
  exists h w,
    results_stats sample_sqrt sample_space sample_angles sample_format sample_psi
      repeated ["rho"; "eta"] = Returned h /\
    plot_results sample_sqrt sample_space sample_angles sample_format sample_psi
      first_occurrences greek found_repeated "in" "out" "Vicsek" ["rho"; "eta"] 0 =
      (RcParams "figure.figsize" [10; 7]%Z :: w,
       Returned (0 + 4 * length (read h root))%nat) /\
    saved_files w =
      flat_map (fun val =>
                  map (file_2param "Vicsek" "out" "rho" "eta" val)
                    (map fst (read h root)))
        (map fst titles) /\
    length (curves w) = (4 * length (read h root))%nat.
Proof.
  refine (plot_results_two_parameters sample_sqrt sample_space sample_angles
            sample_format sample_psi first_occurrences greek found_repeated
            "in" "out" "Vicsek" "rho" "eta" 0 _ repeated_runnable eq_refl eq_refl).
  discriminate.
Defined.

Lemma plot_results_three_parameters_witness :
  exists w,
    plot_results sample_sqrt sample_space sample_angles sample_format sample_psi
      first_occurrences greek found_r_varies "in" "out" "Vicsek"
      ["rho"; "eta"; "r"] 0 =
      (RcParams "figure.figsize" [10; 7]%Z :: w, Returned 0%nat) /\
    saved_files w =
      map (fun val => file_3param "Vicsek" "out" "rho" "eta" "r" val (KNum 1))
        (map fst titles).
Proof.
  refine (plot_results_three_parameters sample_sqrt sample_space sample_angles
            sample_format sample_psi first_occurrences greek found_r_varies
            "in" "out" "Vicsek" "rho" "eta" "r" 0 r_varies_stats _
            r_varies_aggregated first_occurrences_set_order r_varies_complete
            eq_refl eq_refl).
  discriminate.
Defined.

Lemma plot_results_plots_nothing_witness :
  plot_results sample_sqrt sample_space sample_angles sample_format sample_psi
    first_occurrences greek found_nothing "in" "out" "Vicsek" ["rho"; "eta"] 0 =
    ([], Raised SystemExit) /\
  plot_results sample_sqrt sample_space sample_angles sample_format sample_psi
    first_occurrences greek found_repeated "in" "out" "Vicsek" ["rho"] 0 =
    ([RcParams "figure.figsize" [10; 7]%Z], Returned 0%nat).
Proof.
  split.
  - apply (proj1 (plot_results_plots_nothing sample_sqrt sample_space
                    sample_angles sample_format sample_psi first_occurrences
                    greek found_nothing "in" "out" "Vicsek" ["rho"; "eta"] 0)).
    + simpl. lia.
    + reflexivity.
  - eapply (proj2 (plot_results_plots_nothing sample_sqrt sample_space
                     sample_angles sample_format sample_psi first_occurrences
                     greek found_repeated "in" "out" "Vicsek" ["rho"] 0)).
    + simpl. lia.
    + discriminate.
    + vm_compute. reflexivity.
Defined.

Lemma aggregate_listing_order_witness :
  aggregate repeated ["rho"; "eta"] (map fst titles) 10 =
  aggregate (rev repeated) ["rho"; "eta"] (map fst titles) 10.
Proof.
  apply (aggregate_listing_order sample_sqrt sample_space sample_angles
           sample_format sample_psi repeated (rev repeated)
           ["rho"; "eta"] (map fst titles) 10 repeated_names_NoDup).
  apply perm_swap.
Defined.

End ContentCases.
